(** * Résumé field inference of the job-application backend

    A shallow embedding of [src/backend/server.js]: the regular expressions
    of [extractPersonalInfo], [extractEducation], [extractSkills] and
    [extractProjects], run by a backtracking matcher that follows the
    ECMAScript pattern semantics, the text helpers the code calls
    ([trim], [split], [replace], [JSON.stringify]) and the [/submit]
    handler with its collaborators.

    Text is a [string] of code units in the range 0..255.  Every character
    that occurs in a pattern of the program is ASCII, so a letter outside
    ASCII never equals one of them, with or without the [i] flag. *)

From Stdlib Require Import Bool Arith Lia List Ascii String ZArith DecimalString.
From Stdlib Require Import Strings.Byte.
Import ListNotations.
Open Scope string_scope.
Open Scope list_scope.
Open Scope nat_scope.

(** ** Characters *)

Module Char.

Definition code (c : ascii) : nat := nat_of_ascii c.

Definition inRange (lo hi c : ascii) : bool :=
  (code lo <=? code c) && (code c <=? code hi).

Definition isUpper (c : ascii) : bool := inRange "A" "Z" c.
Definition isLower (c : ascii) : bool := inRange "a" "z" c.
Definition isLetter (c : ascii) : bool := isUpper c || isLower c.
Definition isDigit (c : ascii) : bool := inRange "0" "9" c.

(** WhiteSpace and LineTerminator of ECMAScript below U+0100: TAB, LF, VT,
    FF, CR, SP and NBSP.  The class [\s] and [String.prototype.trim] use
    the same set. *)
Definition isWhiteSpace (c : ascii) : bool :=
  existsb (Nat.eqb (code c)) [9; 10; 11; 12; 13; 32; 160].

Definition toUpperCase (c : ascii) : ascii :=
  if isLower c then ascii_of_nat (code c - 32) else c.

Definition toLowerCase (c : ascii) : ascii :=
  if isUpper c then ascii_of_nat (code c + 32) else c.

(** Canonicalize of the pattern semantics (no [u] flag): upper case when
    the [i] flag is set. *)
Definition canonicalize (ignoreCase : bool) (c : ascii) : ascii :=
  if ignoreCase then toUpperCase c else c.

Definition LF : ascii := "010".

End Char.

(** ** Strings *)

Module Str.

Fixpoint drop (n : nat) (s : string) : string :=
  match n, s with
  | S n', String _ s' => drop n' s'
  | _, _ => s
  end.

Definition take (n : nat) (s : string) : string := substring 0 n s.

Fixpoint all (p : ascii -> bool) (s : string) : bool :=
  match s with
  | EmptyString => true
  | String c s' => p c && all p s'
  end.

Fixpoint trimStart (s : string) : string :=
  match s with
  | String c s' => if Char.isWhiteSpace c then trimStart s' else s
  | EmptyString => EmptyString
  end.

Fixpoint trimEnd (s : string) : string :=
  match s with
  | EmptyString => EmptyString
  | String c s' =>
      match trimEnd s' with
      | EmptyString => if Char.isWhiteSpace c then EmptyString else String c EmptyString
      | t => String c t
      end
  end.

(** [String.prototype.trim] *)
Definition trim (s : string) : string := trimEnd (trimStart s).

(** [String.prototype.split] with a one-character separator: the result
    always has at least one element. *)
Fixpoint split (sep : ascii) (s : string) : list string :=
  match s with
  | EmptyString => [EmptyString]
  | String c s' =>
      if Ascii.eqb c sep then EmptyString :: split sep s'
      else match split sep s' with
           | h :: t => String c h :: t
           | [] => [String c EmptyString]
           end
  end.

Definition nl : string := String Char.LF EmptyString.

(** Lines of a text joined by line feeds, to write test inputs. *)
Definition lines (l : list string) : string := String.concat nl l.

End Str.

(** ** Patterns *)

Module Pattern.

(** Members of a character class. *)
Inductive classItem : Type :=
| CChar (c : ascii)
| CRange (lo hi : ascii)
| CSpace                      (* \s *)
| CNonSpace                   (* \S *)
| CDigit.                     (* \d *)

Inductive regex : Type :=
| Eps
| Chr (c : ascii)
| Cls (cs : list classItem)
| Seq (r1 r2 : regex)
| Alt (r1 r2 : regex)
| Rep (min : nat) (max : option nat) (greedy : bool) (r : regex)
| Grp (n : nat) (r : regex)   (* capturing parentheses, numbered from 1 *)
| Look (r : regex)            (* (?= ... ) *)
| Eoi.                        (* $ without the m flag *)

(** A pattern literal [/.../] with its flags; no literal of the inference
    functions has the [g] or [m] flag. *)
Record RegExp : Type := mkRegExp { source : regex; ignoreCase : bool }.

Fixpoint Lit (s : string) : regex :=
  match s with
  | EmptyString => Eps
  | String c s' => Seq (Chr c) (Lit s')
  end.

Fixpoint cat (l : list regex) : regex :=
  match l with
  | [] => Eps
  | r :: l' => Seq r (cat l')
  end.

Fixpoint alts (r : regex) (l : list regex) : regex :=
  match l with
  | [] => r
  | r' :: l' => Alt r (alts r' l')
  end.

Definition Opt (r : regex) : regex := Rep 0 (Some 1) true r.       (* r? *)
Definition Star (r : regex) : regex := Rep 0 None true r.          (* r* *)
Definition Plus (r : regex) : regex := Rep 1 None true r.          (* r+ *)
Definition LazyStar (r : regex) : regex := Rep 0 None false r.     (* r*? *)
Definition Times (n : nat) (r : regex) : regex := Rep n (Some n) true r. (* r{n} *)
Definition AtLeast (n : nat) (r : regex) : regex := Rep n None true r.   (* r{n,} *)
Definition Between (n k : nat) (r : regex) : regex := Rep n (Some k) true r. (* r{n,k} *)

Definition itemMem (i : classItem) (c : ascii) : bool :=
  match i with
  | CChar a => Ascii.eqb a c
  | CRange lo hi => Char.inRange lo hi c
  | CSpace => Char.isWhiteSpace c
  | CNonSpace => negb (Char.isWhiteSpace c)
  | CDigit => Char.isDigit c
  end.

Definition setMem (cs : list classItem) (c : ascii) : bool :=
  existsb (fun i => itemMem i c) cs.

(** CharacterSetMatcher: [ch] is accepted when the set has a member [a]
    with Canonicalize(a) = Canonicalize(ch).  With the [i] flag these [a]
    are [ch] itself, its upper-case and its lower-case form. *)
Definition classMatch (ignoreCase : bool) (cs : list classItem) (ch : ascii) : bool :=
  if ignoreCase
  then setMem cs ch || setMem cs (Char.toUpperCase ch) || setMem cs (Char.toLowerCase ch)
  else setMem cs ch.

Definition charMatch (ignoreCase : bool) (a ch : ascii) : bool :=
  Ascii.eqb (Char.canonicalize ignoreCase a) (Char.canonicalize ignoreCase ch).

(** Numbers of the capturing parentheses inside a pattern. *)
Fixpoint groups (r : regex) : list nat :=
  match r with
  | Eps | Chr _ | Cls _ | Eoi => []
  | Seq r1 r2 | Alt r1 r2 => groups r1 ++ groups r2
  | Rep _ _ _ r1 | Look r1 => groups r1
  | Grp n r1 => n :: groups r1
  end.

(** Match state: the end index, the input from there on and the captures
    (the newest entry for a number is the current one; [None] is
    undefined). *)
Record state : Type := mkState {
  endIndex : nat;
  rest : string;
  captures : list (nat * option string)
}.

Definition advance (x : state) (s' : string) : state :=
  mkState (S (endIndex x)) s' (captures x).

Definition clear (ns : list nat) (x : state) : state :=
  mkState (endIndex x) (rest x) (map (fun n => (n, None)) ns ++ captures x).

Definition isZero (mx : option nat) : bool :=
  match mx with Some 0 => true | _ => false end.

(** RepeatMatcher(m, min, max, greedy, x, c) with the capture numbers [ns]
    of the repeated pattern, which every iteration resets.  An iteration
    with [min = 0] that consumes nothing is refused, so a quantifier on
    [x] needs at most [min + length (rest x)] iterations; [fuel] counts
    them down. *)
Fixpoint repeatMatcher (m : state -> (state -> option state) -> option state)
    (ns : list nat) (greedy : bool) (c : state -> option state)
    (fuel min : nat) (max : option nat) (x : state) {struct fuel} : option state :=
  match fuel with
  | 0 => None
  | S fuel' =>
      if isZero max then c x
      else
        let d := fun y =>
          if (min =? 0) && (endIndex y =? endIndex x) then None
          else repeatMatcher m ns greedy c fuel' (pred min) (option_map pred max) y in
        let xr := clear ns x in
        if negb (min =? 0) then m xr d
        else if greedy then
          match m xr d with
          | Some z => Some z
          | None => c x
          end
        else
          match c x with
          | Some z => Some z
          | None => m xr d
          end
  end.

(** The matcher of a pattern, in continuation-passing style as in the
    ECMAScript definition: [matcher i r x c] tries [r] at [x] and hands
    each candidate end state to [c], in priority order, until [c]
    accepts. *)
Fixpoint matcher (i : bool) (r : regex) (x : state) (c : state -> option state)
  {struct r} : option state :=
  match r with
  | Eps => c x
  | Chr a =>
      match rest x with
      | String ch s' => if charMatch i a ch then c (advance x s') else None
      | EmptyString => None
      end
  | Cls cs =>
      match rest x with
      | String ch s' => if classMatch i cs ch then c (advance x s') else None
      | EmptyString => None
      end
  | Seq r1 r2 => matcher i r1 x (fun y => matcher i r2 y c)
  | Alt r1 r2 =>
      match matcher i r1 x c with
      | Some z => Some z
      | None => matcher i r2 x c
      end
  | Rep min max greedy r1 =>
      repeatMatcher (matcher i r1) (groups r1) greedy c
        (S (min + String.length (rest x))) min max x
  | Grp n r1 =>
      matcher i r1 x (fun y =>
        c (mkState (endIndex y) (rest y)
             ((n, Some (Str.take (endIndex y - endIndex x) (rest x))) :: captures y)))
  | Look r1 =>
      match matcher i r1 x Some with
      | Some y => c (mkState (endIndex x) (rest x) (captures y))
      | None => None
      end
  | Eoi =>
      match rest x with
      | EmptyString => c x
      | String _ _ => None
      end
  end.

(** The array a successful [String.prototype.match] returns. *)
Record matchResult : Type := mkMatch {
  index : nat;
  whole : string;                        (* element 0 *)
  caps : list (nat * option string)
}.

Fixpoint lookup (n : nat) (l : list (nat * option string)) : option string :=
  match l with
  | [] => None
  | (k, v) :: l' => if k =? n then v else lookup n l'
  end.

(** Element [n >= 1] of the match array; [None] is [undefined]. *)
Definition group (n : nat) (mr : matchResult) : option string := lookup n (caps mr).

(** RegExpBuiltinExec without [g]: the first index, from [i] on, at which
    the pattern matches. *)
Fixpoint scan (re : RegExp) (i : nat) (s : string) : option matchResult :=
  match matcher (ignoreCase re) (source re) (mkState i s []) Some with
  | Some e => Some (mkMatch i (Str.take (endIndex e - i) s) (captures e))
  | None =>
      match s with
      | EmptyString => None
      | String _ s' => scan re (S i) s'
      end
  end.

(** [text.match(re)]; [None] is [null]. *)
Definition exec (re : RegExp) (text : string) : option matchResult := scan re 0 text.

(** [text.replace(re, '')]: the first match is cut out. *)
Definition remove (re : RegExp) (text : string) : string :=
  match exec re text with
  | Some mr => (Str.take (index mr) text ++ Str.drop (index mr + String.length (whole mr)) text)%string
  | None => text
  end.

End Pattern.

(** ** JavaScript values and results *)

Module Js.

Inductive exn : Type :=
| TypeError (msg : string)
| Error (msg : string).

Inductive result (A : Type) : Type :=
| Ok (a : A)
| Throw (e : exn).

Arguments Ok {A} a.
Arguments Throw {A} e.

Definition bind {A B : Type} (r : result A) (f : A -> result B) : result B :=
  match r with
  | Ok a => f a
  | Throw e => Throw e
  end.

(** [Number.isSafeInteger] on an integer *)
Definition isSafeInteger (z : Z) : bool := (Z.abs z <=? 9007199254740991)%Z.

(** A Number that is a safe integer; these print in plain decimal. *)
Record SafeInteger : Type := mkSafeInteger {
  int : Z;
  int_safe : isSafeInteger int = true
}.

(** The values an argument can be.  [VObject] lists the properties in the
    order of their enumeration.  [VOther] is a value of any other kind: a
    Number that is not a safe integer, a BigInt, a function, a symbol, a
    Date or another object with a [toJSON] method, a reference back into
    the structure that holds it.  It carries what serialising it at its
    place gives (SerializeJSONProperty): a text, [undefined] or a throw. *)
#[warnings="-register-all"]
Inductive value : Type :=
| VUndefined
| VNull
| VBool (b : bool)
| VNumber (n : SafeInteger)
| VString (s : string)
| VArray (l : list value)
| VObject (l : list (string * value))
| VOther (json : result (option string)).

Definition hexDigit (n : nat) : ascii :=
  if n <? 10 then ascii_of_nat (48 + n) else ascii_of_nat (87 + n).

(** QuoteJSONString *)
Definition escape (c : ascii) : string :=
  let n := Char.code c in
  if n =? 34 then String "\" (String c "")
  else if n =? 92 then "\\"
  else if n =? 8 then "\b"
  else if n =? 9 then "\t"
  else if n =? 10 then "\n"
  else if n =? 12 then "\f"
  else if n =? 13 then "\r"
  else if n <? 32 then
    String "\" (String "u" (String "0" (String "0"
      (String (hexDigit (n / 16)) (String (hexDigit (n mod 16)) "")))))
  else String c "".

Fixpoint quoteBody (s : string) : string :=
  match s with
  | EmptyString => EmptyString
  | String c s' => (escape c ++ quoteBody s')%string
  end.

Definition quote (s : string) : string :=
  (String "034" (quoteBody s) ++ String "034" "")%string.

Definition numberToString (n : SafeInteger) : string :=
  NilZero.string_of_int (Z.to_int (int n)).

(** [JSON.stringify(v)]; [None] is [undefined].  The elements and the
    properties are serialised in their order, and a throw ends the
    serialisation.  Inside an array [undefined] prints as null, inside an
    object the property is left out. *)
Fixpoint stringify (v : value) : result (option string) :=
  match v with
  | VUndefined => Ok None
  | VNull => Ok (Some "null")
  | VBool b => Ok (Some (if b then "true" else "false"))
  | VNumber n => Ok (Some (numberToString n))
  | VString s => Ok (Some (quote s))
  | VOther json => json
  | VArray l =>
      bind ((fix elements (l : list value) : result (list string) :=
               match l with
               | [] => Ok []
               | e :: l' =>
                   bind (stringify e) (fun strP =>
                   bind (elements l') (fun partial =>
                   Ok (match strP with Some t => t | None => "null" end :: partial)))
               end) l)
           (fun partial => Ok (Some ("[" ++ String.concat "," partial ++ "]")%string))
  | VObject l =>
      bind ((fix properties (l : list (string * value)) : result (list string) :=
               match l with
               | [] => Ok []
               | (P, e) :: l' =>
                   bind (stringify e) (fun strP =>
                   bind (properties l') (fun partial =>
                   Ok (match strP with
                       | Some t => (quote P ++ ":" ++ t)%string :: partial
                       | None => partial
                       end)))
               end) l)
           (fun partial => Ok (Some ("{" ++ String.concat "," partial ++ "}")%string))
  end.

(** A JavaScript [Set] of strings in insertion order. *)
Definition SetAdd (s : list string) (x : string) : list string :=
  if existsb (String.eqb x) s then s else s ++ [x].

(** [[...new Set(xs)]] *)
Definition newSet (xs : list string) : list string := fold_left SetAdd xs [].

End Js.

(** ** The patterns of server.js *)

Module Patterns.

Import Pattern.

Definition ws : regex := Cls [CSpace].                             (* \s *)
Definition sep : regex := Cls [CChar ":"; CChar "-"].              (* [:\-] *)
Definition upper : regex := Cls [CRange "A" "Z"].                  (* [A-Z] *)
Definition lower : regex := Cls [CRange "a" "z"].                  (* [a-z] *)
Definition digit : regex := Cls [CDigit].                          (* \d *)
Definition dsep : regex := Cls [CChar "-"; CChar "."; CSpace].     (* [-.\s] *)
Definition anyChar : regex := Cls [CSpace; CNonSpace].             (* [\s\S] *)

(** [([A-Z][a-z]+(?:\s+[A-Z][a-z]+)+)] as group [g] *)
Definition nameWords (g : nat) : regex :=
  Grp g (cat [upper; Plus lower; Plus (cat [Plus ws; upper; Plus lower])]).

(** [/(Name|NAME)?\s*[:\-]?\s*([A-Z][a-z]+(?:\s+[A-Z][a-z]+)+)/i] *)
Definition nameRegex : RegExp :=
  mkRegExp
    (cat [Opt (Grp 1 (alts (Lit "Name") [Lit "NAME"]));
          Star ws; Opt sep; Star ws;
          nameWords 2])
    true.

(** [[a-zA-Z0-9._%+-]] *)
Definition localPart : list classItem :=
  [CRange "a" "z"; CRange "A" "Z"; CRange "0" "9";
   CChar "."; CChar "_"; CChar "%"; CChar "+"; CChar "-"].

(** [([a-zA-Z0-9._%+-]+@[a-zA-Z0-9.-]+\.[a-zA-Z]{2,})] as group [g] *)
Definition address (g : nat) : regex :=
  Grp g (cat [Plus (Cls localPart);
              Chr "@";
              Plus (Cls [CRange "a" "z"; CRange "A" "Z"; CRange "0" "9";
                         CChar "."; CChar "-"]);
              Chr ".";
              AtLeast 2 (Cls [CRange "a" "z"; CRange "A" "Z"])]).

(** [/(Email|EMAIL)?\s*[:\-]?\s*([a-zA-Z0-9._%+-]+@[a-zA-Z0-9.-]+\.[a-zA-Z]{2,})/i] *)
Definition emailRegex : RegExp :=
  mkRegExp
    (cat [Opt (Grp 1 (alts (Lit "Email") [Lit "EMAIL"]));
          Star ws; Opt sep; Star ws;
          address 2])
    true.

(** [/([a-zA-Z0-9._%+-]+@[a-zA-Z0-9.-]+\.[a-zA-Z]{2,})/i] *)
Definition emailFallbackRegex : RegExp := mkRegExp (address 1) true.

(** [Phone Number|Phone number|Contact Number|Contact number|Contact|CONTACT|Phone|PHONE] *)
Definition phoneLabel : regex :=
  alts (Lit "Phone Number")
       [Lit "Phone number"; Lit "Contact Number"; Lit "Contact number";
        Lit "Contact"; Lit "CONTACT"; Lit "Phone"; Lit "PHONE"].

(** [(\+?\d{1,3}[-.\s]?)?\(?\d{3}\)?[-.\s]?\d{3}[-.\s]?\d{4}], the
    parentheses being group [g] *)
Definition phoneNumber (g : nat) : regex :=
  cat [Opt (Grp g (cat [Opt (Chr "+"); Between 1 3 digit; Opt dsep]));
       Opt (Chr "("); Times 3 digit; Opt (Chr ")"); Opt dsep;
       Times 3 digit; Opt dsep; Times 4 digit].

(** [/(Phone Number|...|PHONE)?\s*[:\-]?\s*(\+?\d{1,3}[-.\s]?)?\(?\d{3}\)?[-.\s]?\d{3}[-.\s]?\d{4}/i] *)
Definition phoneRegex : RegExp :=
  mkRegExp
    (cat [Opt (Grp 1 phoneLabel); Star ws; Opt sep; Star ws; phoneNumber 2])
    true.

(** [/(\+?\d{1,3}[-.\s]?)?\(?\d{3}\)?[-.\s]?\d{3}[-.\s]?\d{4}/i] *)
Definition phoneFallbackRegex : RegExp := mkRegExp (phoneNumber 1) true.

(** [/(Phone Number|...|PHONE)[:\-]?\s*/i], the pattern of the [replace] *)
Definition phoneLabelRegex : RegExp :=
  mkRegExp (cat [Grp 1 phoneLabel; Opt sep; Star ws]) true.

(** [/(Education|Educations|EDUCATION|EDUCATIONS|Academic Background|ACADEMIC BACKGROUND)\s*([\s\S]*?)(?=Skills|Projects|Qualifications|$)/i] *)
Definition educationRegex : RegExp :=
  mkRegExp
    (cat [Grp 1 (alts (Lit "Education")
                      [Lit "Educations"; Lit "EDUCATION"; Lit "EDUCATIONS";
                       Lit "Academic Background"; Lit "ACADEMIC BACKGROUND"]);
          Star ws;
          Grp 2 (LazyStar anyChar);
          Look (alts (Lit "Skills") [Lit "Projects"; Lit "Qualifications"; Eoi])])
    true.

(** [/(Skill|Skills|SKILL|SKILLS|Technical Skill|Technical Skills|TECHNICAL SKILL|TECHNICAL SKILLS|Qualifications|QUALIFICATIONS)\s*([\s\S]*?)(?=Projects|Education|$)/i] *)
Definition skillsRegex : RegExp :=
  mkRegExp
    (cat [Grp 1 (alts (Lit "Skill")
                      [Lit "Skills"; Lit "SKILL"; Lit "SKILLS";
                       Lit "Technical Skill"; Lit "Technical Skills";
                       Lit "TECHNICAL SKILL"; Lit "TECHNICAL SKILLS";
                       Lit "Qualifications"; Lit "QUALIFICATIONS"]);
          Star ws;
          Grp 2 (LazyStar anyChar);
          Look (alts (Lit "Projects") [Lit "Education"; Eoi])])
    true.

(** [/(Project|Projects|PROJECT|PROJECTS|Work Experience|WORK EXPERIENCE)\s*([\s\S]*?)(?=Education|Skills|Qualifications|$)/i] *)
Definition projectsRegex : RegExp :=
  mkRegExp
    (cat [Grp 1 (alts (Lit "Project")
                      [Lit "Projects"; Lit "PROJECT"; Lit "PROJECTS";
                       Lit "Work Experience"; Lit "WORK EXPERIENCE"]);
          Star ws;
          Grp 2 (LazyStar anyChar);
          Look (alts (Lit "Education") [Lit "Skills"; Lit "Qualifications"; Eoi])])
    true.

End Patterns.

(** ** The inference functions of server.js *)

Module Server.

Import Pattern Patterns Js.

Local Notation "x <- e ;; k" := (bind e (fun x => k))
  (at level 61, e at next level, right associativity).

(** The tagging library (compromise): [nlp(text).match(pattern)] read
    with [.out('text')] and with [.out('array')]. *)
Record Tagger : Type := mkTagger {
  outText : string -> string -> string;
  outArray : string -> string -> list string
}.

Record PersonalInfo : Type := mkInfo { name : string; email : string; phone : string }.

(** The guard [if (typeof text !== 'string') text = JSON.stringify(text)];
    [None] is [undefined]. *)
Definition ensureString (text : value) : result (option string) :=
  match text with
  | VString s => Ok (Some s)
  | _ => stringify text
  end.

(** A method call on [text]: on [undefined] it throws.  ([nlp(text)] comes
    before the first such call and [text.match] throws if it did not.) *)
Definition receiver (text : option string) : result string :=
  match text with
  | Some s => Ok s
  | None => Throw (TypeError "Cannot read properties of undefined")
  end.

(** [m[n].trim()] on a match array: an element that is [undefined]
    throws. *)
Definition element (n : nat) (mr : matchResult) : result string :=
  match group n mr with
  | Some s => Ok s
  | None => Throw (TypeError "Cannot read properties of undefined")
  end.

Definition truthy (s : string) : bool := 0 <? String.length s.

(** [s.trim().split('\n').map(line => line.trim()).filter(e => e.length > 0)] *)
Definition entries (s : string) : list string :=
  filter (fun entry => 0 <? String.length entry)
         (map Str.trim (Str.split Char.LF (Str.trim s))).

Section Inference.

Variable nlp : Tagger.

Definition extractPersonalInfo (text : value) : result PersonalInfo :=
  text <- ensureString text ;;
  text <- receiver text ;;
  name <-
    match exec nameRegex text with
    | Some nameMatch => g <- element 2 nameMatch ;; Ok (Str.trim g)
    | None =>
        let personMatch := outText nlp "#Person" text in
        if truthy personMatch then Ok (Str.trim personMatch)
        else
          let lines := filter (fun line => 0 <? String.length line)
                              (map Str.trim (Str.split Char.LF text)) in
          match lines with
          | line :: _ => Ok line
          | [] => Ok ""
          end
    end ;;
  email <-
    match exec emailRegex text with
    | Some emailMatch => g <- element 2 emailMatch ;; Ok (Str.trim g)
    | None =>
        match exec emailFallbackRegex text with
        | Some emailFallback => Ok (Str.trim (whole emailFallback))
        | None => Ok ""
        end
    end ;;
  phone <-
    match exec phoneRegex text with
    | Some phoneMatch => Ok (Str.trim (remove phoneLabelRegex (whole phoneMatch)))
    | None =>
        match exec phoneFallbackRegex text with
        | Some phoneFallback => Ok (Str.trim (whole phoneFallback))
        | None => Ok ""
        end
    end ;;
  Ok (mkInfo name email phone).

(** [[...doc.match('#Education').out('array'), ...doc.match('Education|...').out('array')]] *)
Definition educationMatches (text : string) : list string :=
  outArray nlp "#Education" text
  ++ outArray nlp "Education|Educations|EDUCATION|EDUCATIONS|Academic Background|ACADEMIC BACKGROUND" text.

Definition extractEducation (text : value) : result (list string) :=
  text <- ensureString text ;;
  text <- receiver text ;;
  let uniqueEducation := newSet (educationMatches text) in
  if List.length uniqueEducation =? 0 then
    match exec educationRegex text with
    | Some m => g <- element 2 m ;; Ok (entries g)
    | None => Ok uniqueEducation
    end
  else Ok uniqueEducation.

Definition skillsMatches (text : string) : list string :=
  outArray nlp "#Skill" text
  ++ outArray nlp "Skill|Skills|SKILL|SKILLS|Technical Skill|Technical Skills|TECHNICAL SKILL|TECHNICAL SKILLS|Qualifications|QUALIFICATIONS" text.

Definition extractSkills (text : value) : result (list string) :=
  text <- ensureString text ;;
  text <- receiver text ;;
  let uniqueSkills := newSet (skillsMatches text) in
  if List.length uniqueSkills =? 0 then
    match exec skillsRegex text with
    | Some m => g <- element 2 m ;; Ok (entries g)
    | None => Ok uniqueSkills
    end
  else Ok uniqueSkills.

Definition projectMatches (text : string) : list string :=
  outArray nlp "#Project" text
  ++ outArray nlp "Project|Projects|PROJECT|PROJECTS|Work Experience|WORK EXPERIENCE" text.

Definition extractProjects (text : value) : result (list string) :=
  text <- ensureString text ;;
  text <- receiver text ;;
  let uniqueProjects := newSet (projectMatches text) in
  if List.length uniqueProjects =? 0 then
    match exec projectsRegex text with
    | Some m => g <- element 2 m ;; Ok (entries g)
    | None => Ok uniqueProjects
    end
  else Ok uniqueProjects.

End Inference.

(** A tagger that finds nothing. *)
Definition silent : Tagger := mkTagger (fun _ _ => "") (fun _ _ => []).

End Server.

(** ** The [/submit] handler of server.js *)

Module Handler.

Import Js Server.

(** [req.file] as multer's memory storage fills it in. *)
Record File : Type := mkFile { originalname : string; buffer : list byte }.

(** The request as [upload.single('cv')] hands it to the handler.  multer
    reads a multipart request only: it sets [req.body] to the text fields
    of the form and [req.file] to the uploaded file, if the form has one.
    Any other request reaches the handler as it came, with [req.body] and
    [req.file] both [undefined]. *)
Inductive Request : Type :=
| mkRequest (formName formEmail formPhone : string) (file : option File)
| notMultipart.

(** [req.file] *)
Definition file (req : Request) : option File :=
  match req with
  | mkRequest _ _ _ file => file
  | notMultipart => None
  end.

(** The text fields [name], [email] and [phone] of [req.body]. *)
Record Body : Type := mkBody { bodyName : string; bodyEmail : string; bodyPhone : string }.

(** [req.body]; [None] is [undefined]. *)
Definition body (req : Request) : option Body :=
  match req with
  | mkRequest name email phone _ => Some (mkBody name email phone)
  | notMultipart => None
  end.

(** The text fields of the form of a multipart request; another request
    has none, and the handler does not get to read them. *)
Definition formName (req : Request) : string :=
  match body req with Some form => bodyName form | None => "" end.

Definition formEmail (req : Request) : string :=
  match body req with Some form => bodyEmail form | None => "" end.

Definition formPhone (req : Request) : string :=
  match body req with Some form => bodyPhone form | None => "" end.

Record Response : Type := mkResponse { status : nat; message : string }.

Record CvData : Type := mkCvData { cvName : string; cvEmail : string; cvPhone : string }.

(** The JSON body and the [X-Candidate-Email] header of the webhook
    call. *)
Record Webhook : Type := mkWebhook {
  candidateEmail : string;
  personal_info : CvData;
  education : list string;
  skills : list string;
  projects : list string;
  cv_public_link : string;
  applicant_name : string;
  applicant_email : string;
  processed_timestamp : string
}.

(** What the process does to the outside, in order.  [Infer] stands for the
    four extract calls, each of which hands the text to the tagger. *)
Inductive effect : Type :=
| ReadFile (path : string)
| ParsePdf (data : list byte)
| ParseDocx (data : list byte)
| Infer (text : string)
| PutObject (key : string) (body : list byte)
| AppendRow (row : list string)
| SendMail (to : string)
| Post (payload : Webhook)
| ConsoleLog (line : string)
| ConsoleError (error : exn).

(** The libraries and services behind the handler; each call returns or
    throws. *)
Record World : Type := mkWorld {
  nlp : Tagger;
  readFile : string -> result (list byte);          (* fs.promises.readFile *)
  pdf : list byte -> result string;                 (* pdf-parse, [.text] *)
  extractRawText : list byte -> result string;      (* mammoth, [.value] *)
  send : string -> list byte -> result unit;        (* s3Client.send(PutObjectCommand) *)
  append : list string -> result unit;              (* sheets.spreadsheets.values.append *)
  sendMail : string -> result unit;                 (* transporter.sendMail *)
  fetch : Webhook -> result bool;                   (* node-fetch, [.ok] *)
  BUCKET_NAME : string;
  now : string                                      (* new Date().toISOString() *)
}.

(** Computations that add to the trace of effects and may throw. *)
Definition M (A : Type) : Type := list effect -> result A * list effect.

Definition ret {A : Type} (a : A) : M A := fun t => (Ok a, t).

Definition throw {A : Type} (e : exn) : M A := fun t => (Throw e, t).

Definition bindM {A B : Type} (m : M A) (f : A -> M B) : M B :=
  fun t =>
    match m t with
    | (Ok a, t') => f a t'
    | (Throw e, t') => (Throw e, t')
    end.

Definition emit (e : effect) : M unit := fun t => (Ok tt, t ++ [e]).

Definition lift {A : Type} (r : result A) : M A := fun t => (r, t).

(** [try { body } catch (error) { handler }] *)
Definition tryCatch {A : Type} (body : M A) (handler : exn -> M A) : M A :=
  fun t =>
    match body t with
    | (Ok a, t') => (Ok a, t')
    | (Throw e, t') => handler e t'
    end.

Local Notation "x <- e ;; k" := (bindM e (fun x => k))
  (at level 61, e at next level, right associativity).
Local Notation "e ;; k" := (bindM e (fun _ => k))
  (at level 61, right associativity).

(** [file.buffer] when [req.file] is [undefined] throws. *)
Definition receiver_file (f : option File) : result File :=
  match f with
  | Some x => Ok x
  | None => Throw (TypeError "Cannot read properties of undefined")
  end.

(** [const { name, email, phone } = req.body]: on [undefined] it throws. *)
Definition destructure (body : option Body) : result Body :=
  match body with
  | Some form => Ok form
  | None => Throw (TypeError "Cannot destructure property 'name' of 'req.body' as it is undefined.")
  end.

(** [a || b] on strings *)
Definition orElse (a b : string) : string := if truthy a then a else b.

Section Submit.

Variable w : World.

Definition extractTextFromPDF (filePath : string) : M string :=
  tryCatch
    (emit (ReadFile filePath) ;;
     dataBuffer <- lift (readFile w filePath) ;;
     emit (ParsePdf dataBuffer) ;;
     lift (pdf w dataBuffer))
    (fun error => emit (ConsoleError error) ;; ret "").

Definition extractTextFromDOCX (filePath : string) : M string :=
  tryCatch
    (emit (ReadFile filePath) ;;
     dataBuffer <- lift (readFile w filePath) ;;
     emit (ParseDocx dataBuffer) ;;
     lift (extractRawText w dataBuffer))
    (fun error => emit (ConsoleError error) ;; ret "").

Definition uploadToS3 (buffer : list byte) (fileName : string) : M string :=
  emit (PutObject fileName buffer) ;;
  lift (send w fileName buffer) ;;
  ret ("https://" ++ BUCKET_NAME w ++ ".s3.amazonaws.com/" ++ fileName)%string.

Definition storeInGoogleSheets (data : list string) : M unit :=
  emit (AppendRow data) ;;
  lift (append w data).

Definition sendEmail (email : string) : M unit :=
  tryCatch
    (emit (SendMail email) ;;
     lift (sendMail w email) ;;
     emit (ConsoleLog "Email sent successfully to:"))
    (fun error => emit (ConsoleError error)).

Definition sendWebhook (email : string) (cvData : CvData) (publicUrl : string)
    (education skills projects : list string) : M bool :=
  let payload :=
    mkWebhook email cvData education skills projects publicUrl
              (cvName cvData) (cvEmail cvData) (now w) in
  emit (Post payload) ;;
  lift (fetch w payload).

(** [file.originalname.split('.').pop()] *)
Definition extension (originalname : string) : string :=
  last (Str.split "." originalname) "".

(** The handler.  Its first two statements stand before the [try] block:
    what the destructuring throws leaves the handler, which then has sent
    no response. *)
Definition submit (req : Request) : M Response :=
  form <- lift (destructure (body req)) ;;
  let file := file req in
  tryCatch
    (file <- lift (receiver_file file) ;;
     let fileBuffer := buffer file in
     let fileExtension := extension (originalname file) in
     text <-
       (if String.eqb fileExtension "pdf" then
          emit (ParsePdf fileBuffer) ;; lift (pdf w fileBuffer)
        else if String.eqb fileExtension "docx" then
          emit (ParseDocx fileBuffer) ;; lift (extractRawText w fileBuffer)
        else
          throw (Error "Unsupported file format. Only PDF and DOCX are allowed.")) ;;
     emit (Infer text) ;;
     personalInfo <- lift (extractPersonalInfo (nlp w) (VString text)) ;;
     education <- lift (extractEducation (nlp w) (VString text)) ;;
     skills <- lift (extractSkills (nlp w) (VString text)) ;;
     projects <- lift (extractProjects (nlp w) (VString text)) ;;
     publicUrl <- uploadToS3 fileBuffer (originalname file) ;;
     storeInGoogleSheets
       [orElse (name personalInfo) (bodyName form);
        orElse (email personalInfo) (bodyEmail form);
        orElse (phone personalInfo) (bodyPhone form);
        publicUrl;
        String.concat Str.nl education;
        String.concat Str.nl skills;
        String.concat Str.nl projects] ;;
     sendEmail (bodyEmail form) ;;
     let cvData :=
       mkCvData (orElse (name personalInfo) (bodyName form))
                (orElse (email personalInfo) (bodyEmail form))
                (orElse (phone personalInfo) (bodyPhone form)) in
     sendWebhook (bodyEmail form) cvData publicUrl education skills projects ;;
     ret (mkResponse 200 "Application submitted successfully!"))
    (fun error =>
       emit (ConsoleError error) ;;
       ret (mkResponse 500 "Error processing application.")).

End Submit.

End Handler.

(** ** Vocabulary of the properties *)

Module Props.

Import Pattern Patterns Js Server Handler.

(** Characters a pattern can consume. *)
Fixpoint allowed (i : bool) (r : regex) (c : ascii) : bool :=
  match r with
  | Eps | Eoi | Look _ => false
  | Chr a => charMatch i a c
  | Cls cs => classMatch i cs c
  | Seq r1 r2 | Alt r1 r2 => allowed i r1 c || allowed i r2 c
  | Rep _ _ _ r1 | Grp _ r1 => allowed i r1 c
  end.

(** [y] lies ahead of [x]: the input between them is [w], made of
    characters in [p], and the captures added on the way are [l], with
    numbers in [ns]. *)
Definition span (p : ascii -> bool) (ns : list nat) (w : string)
    (l : list (nat * option string)) (x y : state) : Prop :=
  rest x = (w ++ rest y)%string
  /\ endIndex y = endIndex x + String.length w
  /\ Str.all p w = true
  /\ captures y = l ++ captures x
  /\ Forall (fun e => In (fst e) ns) l.

(** Two states at the same place of the input. *)
Definition samePlace (x y : state) : Prop :=
  rest x = rest y /\ endIndex x = endIndex y.

(** Two outcomes that fail together or end at the same place. *)
Definition agree (o1 o2 : option state) : Prop :=
  match o1, o2 with
  | None, None => True
  | Some z1, Some z2 => samePlace z1 z2
  | _, _ => False
  end.

(** Patterns that differ in the numbers of their groups only. *)
Fixpoint similar (r1 r2 : regex) : Prop :=
  match r1, r2 with
  | Eps, Eps | Eoi, Eoi => True
  | Chr a, Chr b => a = b
  | Cls cs, Cls ds => cs = ds
  | Seq a1 a2, Seq b1 b2 | Alt a1 a2, Alt b1 b2 => similar a1 b1 /\ similar a2 b2
  | Rep m1 x1 g1 a, Rep m2 x2 g2 b => m1 = m2 /\ x1 = x2 /\ g1 = g2 /\ similar a b
  | Grp _ a, Grp _ b => similar a b
  | Look a, Look b => similar a b
  | _, _ => False
  end.

(** Every match through [r] leaves group [n] defined. *)
Fixpoint sets (n : nat) (r : regex) : bool :=
  match r with
  | Grp k r1 => (k =? n) || sets n r1
  | Seq r1 r2 => sets n r2 || (sets n r1 && negb (existsb (Nat.eqb n) (groups r2)))
  | Alt r1 r2 => sets n r1 && sets n r2
  | _ => false
  end.

(** Element [n] of a match array where it is a string. *)
Definition capture (n : nat) (mr : matchResult) : string :=
  match group n mr with
  | Some s => s
  | None => ""
  end.

(** The three fields as [extractPersonalInfo] computes them on a string. *)
Definition nameOf (nlp : Tagger) (text : string) : string :=
  match exec nameRegex text with
  | Some nameMatch => Str.trim (capture 2 nameMatch)
  | None =>
      if truthy (outText nlp "#Person" text) then Str.trim (outText nlp "#Person" text)
      else match filter (fun line => 0 <? String.length line)
                        (map Str.trim (Str.split Char.LF text)) with
           | line :: _ => line
           | [] => ""
           end
  end.

Definition emailOf (text : string) : string :=
  match exec emailRegex text with
  | Some emailMatch => Str.trim (capture 2 emailMatch)
  | None =>
      match exec emailFallbackRegex text with
      | Some emailFallback => Str.trim (whole emailFallback)
      | None => ""
      end
  end.

Definition phoneOf (text : string) : string :=
  match exec phoneRegex text with
  | Some phoneMatch => Str.trim (remove phoneLabelRegex (whole phoneMatch))
  | None =>
      match exec phoneFallbackRegex text with
      | Some phoneFallback => Str.trim (whole phoneFallback)
      | None => ""
      end
  end.

(** What is left of [s] after the literal [a], compared as the matcher
    compares characters. *)
Fixpoint stripPrefix (i : bool) (a s : string) : option string :=
  match a with
  | EmptyString => Some s
  | String ca a' =>
      match s with
      | String ch s' => if charMatch i ca ch then stripPrefix i a' s' else None
      | EmptyString => None
      end
  end.

Definition isPrefix (i : bool) (a s : string) : bool :=
  match stripPrefix i a s with
  | Some _ => true
  | None => false
  end.

(** The first of the literals [As] that starts [s], with what follows
    it. *)
Fixpoint firstLabel (i : bool) (As : list string) (s : string) : option (string * string) :=
  match As with
  | [] => None
  | A :: As' =>
      match stripPrefix i A s with
      | Some s' => Some (A, s')
      | None => firstLabel i As' s
      end
  end.

(** No literal of the list comes before a longer one that it starts. *)
Fixpoint ordered (i : bool) (As : list string) : bool :=
  match As with
  | [] => true
  | B :: Bs =>
      forallb (fun A => negb (isPrefix i B A) || (String.length A <=? String.length B)) Bs
      && ordered i Bs
  end.

(** An alternation of literals. *)
Definition altsLit (A : string) (As : list string) : regex := alts (Lit A) (map Lit As).

Definition phoneLabels : list string :=
  ["Phone Number"; "Phone number"; "Contact Number"; "Contact number";
   "Contact"; "CONTACT"; "Phone"; "PHONE"].

(** The shape of the name, email and phone patterns: an optional label,
    an optional separator, then the value. *)
Definition lead (label : regex) : regex :=
  cat [Opt (Grp 1 label); Star ws; Opt sep; Star ws].

Definition labelled (label core : regex) : regex :=
  cat [Opt (Grp 1 label); Star ws; Opt sep; Star ws; core].

(** The state in which a scan tries index [i]. *)
Definition start (i : nat) (s : string) : state := mkState i s [].

(** The continuation was called at a state ahead and accepted. *)
Definition reached (p : ascii -> bool) (ns : list nat)
    (c : state -> option state) (x z : state) : Prop :=
  exists y w l, c y = Some z /\ span p ns w l x y.

(** A matcher looks at its continuation only at states its pattern can
    reach. *)
Definition local (p : ascii -> bool) (ns : list nat)
    (m : state -> (state -> option state) -> option state) : Prop :=
  forall x c1 c2,
    (forall y w l, span p ns w l x y -> c1 y = c2 y) -> m x c1 = m x c2.

(** The state [x] seen from a text that has [k] more characters in
    front. *)
Definition shift (k : nat) (x : state) : state :=
  mkState (k + endIndex x) (rest x) (captures x).

(** The match [mr] seen from a text that has [k] more characters in
    front. *)
Definition shiftMatch (k : nat) (mr : matchResult) : matchResult :=
  mkMatch (k + index mr) (whole mr) (caps mr).

(** Continuations that cannot tell states at the same place apart. *)
Definition agreeing (c1 c2 : state -> option state) : Prop :=
  forall y1 y2, samePlace y1 y2 -> agree (c1 y1) (c2 y2).

(** The 256 characters. *)
Definition allAscii : list ascii := map ascii_of_nat (seq 0 256).

(** The pattern matches somewhere in the text. *)
Definition occurs (re : RegExp) (text : string) : Prop := exec re text <> None.

(** Index of the first occurrence of [x] in [l]; [length l] if there is
    none. *)
Fixpoint indexOf (x : string) (l : list string) : nat :=
  match l with
  | [] => 0
  | y :: l' => if String.eqb x y then 0 else S (indexOf x l')
  end.

(** Characters of a phone number as the pattern admits them, and the
    separator between label and number. *)
Definition phoneChar (c : ascii) : bool :=
  Char.isDigit c || Char.isWhiteSpace c
  || existsb (Ascii.eqb c) ["+"; "-"; "."; "("; ")"; ":"]%char.

(** What tier 1 returns for a list of matches: each match once, in the
    order of the first occurrences. *)
Definition firstOccurrences (matches r : list string) : Prop :=
  NoDup r
  /\ (forall x, In x r <-> In x matches)
  /\ (forall x y, In x matches -> In y matches ->
        (indexOf x r < indexOf y r <-> indexOf x matches < indexOf y matches)).

(** A tagger for examples: it tags the word [Education] and the whole text,
    the word twice. *)
Definition echo : Tagger :=
  mkTagger (fun _ _ => "") (fun _ text => ["Education"; text; "Education"]).

(** The input ends a name: it is empty or starts, possibly after one white
    space character, with a character that is neither a letter nor white
    space. *)
Definition endsName (s : string) : bool :=
  match s with
  | EmptyString => true
  | String c t =>
      if Char.isLetter c then false
      else if Char.isWhiteSpace c then
        match t with
        | EmptyString => true
        | String d _ => negb (Char.isLetter d) && negb (Char.isWhiteSpace d)
        end
      else true
  end.

(** The text does not end with a character in [p]. *)
Fixpoint endsOutside (p : ascii -> bool) (s : string) : bool :=
  match s with
  | EmptyString => true
  | String c EmptyString => negb (p c)
  | String _ s' => endsOutside p s'
  end.

(** A character the local part of an address can have. *)
Definition localChar (c : ascii) : bool := classMatch true localPart c.

Definition isAt (c : ascii) : bool := Ascii.eqb c "@".

(** The texts of the examples of the specification. *)
Definition nameLine : string := "Name: Jane Doe".

Definition janeDoe : string := "jane.doe@example.com".

(** [Email|EMAIL] *)
Definition emailLabel : regex := alts (Lit "Email") [Lit "EMAIL"].

(** The input ends an address: it is empty or starts with a character that
    is not a letter, a digit, a dot or a hyphen. *)
Definition endsAddress (s : string) : bool :=
  match s with
  | EmptyString => true
  | String c _ =>
      negb (Char.isLetter c || Char.isDigit c || Ascii.eqb c "." || Ascii.eqb c "-")
  end.

(** A world for examples: a PDF parser that wants the [%PDF] magic, a DOCX
    parser that wants the ZIP magic, services that succeed. *)
Definition demo : World :=
  mkWorld silent
    (fun _ => Throw (Error "ENOENT"))
    (fun data => match data with
                 | x25 :: x50 :: x44 :: x46 :: _ => Ok "Jane Doe"
                 | _ => Throw (Error "Invalid PDF structure")
                 end)
    (fun data => match data with
                 | x50 :: x4b :: _ => Ok "Jane Doe"
                 | _ => Throw (Error "Can't find end of central directory")
                 end)
    (fun _ _ => Ok tt)
    (fun _ => Ok tt)
    (fun _ => Ok tt)
    (fun _ => Ok true)
    "bucket"
    "2025-01-01T00:00:00.000Z".

End Props.

(** ** Vocabulary of the handler's outcomes *)

Module Outcome.

Import Pattern Patterns Js Server Handler Props.

(** The lists as the three section functions compute them on a string. *)
Definition educationOf (nlp : Tagger) (text : string) : list string :=
  if List.length (newSet (educationMatches nlp text)) =? 0
  then match exec educationRegex text with
       | Some m => entries (capture 2 m)
       | None => newSet (educationMatches nlp text)
       end
  else newSet (educationMatches nlp text).

Definition skillsOf (nlp : Tagger) (text : string) : list string :=
  if List.length (newSet (skillsMatches nlp text)) =? 0
  then match exec skillsRegex text with
       | Some m => entries (capture 2 m)
       | None => newSet (skillsMatches nlp text)
       end
  else newSet (skillsMatches nlp text).

Definition projectsOf (nlp : Tagger) (text : string) : list string :=
  if List.length (newSet (projectMatches nlp text)) =? 0
  then match exec projectsRegex text with
       | Some m => entries (capture 2 m)
       | None => newSet (projectMatches nlp text)
       end
  else newSet (projectMatches nlp text).

(** The two extensions [submit] accepts, with the parser call and the
    effect of each. *)
Definition supported (fileExtension : string) : bool :=
  String.eqb fileExtension "pdf" || String.eqb fileExtension "docx".

Definition parser (w : World) (fileExtension : string) : list byte -> result string :=
  if String.eqb fileExtension "pdf" then pdf w else extractRawText w.

Definition parseEffect (fileExtension : string) (data : list byte) : effect :=
  if String.eqb fileExtension "pdf" then ParsePdf data else ParseDocx data.

(** The value of the template literal in [uploadToS3]. *)
Definition publicUrlOf (w : World) (fileName : string) : string :=
  ("https://" ++ BUCKET_NAME w ++ ".s3.amazonaws.com/" ++ fileName)%string.

(** [cvData], the row for the sheet and the webhook payload as [submit]
    builds them from the form and the text of the file. *)
Definition cvDataOf (w : World) (req : Request) (text : string) : CvData :=
  mkCvData (orElse (nameOf (nlp w) text) (formName req))
           (orElse (emailOf text) (formEmail req))
           (orElse (phoneOf text) (formPhone req)).

Definition rowOf (w : World) (req : Request) (f : File) (text : string) : list string :=
  [orElse (nameOf (nlp w) text) (formName req);
   orElse (emailOf text) (formEmail req);
   orElse (phoneOf text) (formPhone req);
   publicUrlOf w (originalname f);
   String.concat Str.nl (educationOf (nlp w) text);
   String.concat Str.nl (skillsOf (nlp w) text);
   String.concat Str.nl (projectsOf (nlp w) text)].

Definition payloadOf (w : World) (req : Request) (f : File) (text : string) : Webhook :=
  mkWebhook (formEmail req) (cvDataOf w req text)
            (educationOf (nlp w) text) (skillsOf (nlp w) text) (projectsOf (nlp w) text)
            (publicUrlOf w (originalname f))
            (cvName (cvDataOf w req text)) (cvEmail (cvDataOf w req text)) (now w).

(** What [sendEmail] writes to the console after the call of
    [transporter.sendMail]. *)
Definition mailLog (w : World) (email : string) : effect :=
  match sendMail w email with
  | Ok _ => ConsoleLog "Email sent successfully to:"
  | Throw error => ConsoleError error
  end.

(** The services behind the handler, and worlds for examples in which one
    of them is down while the others answer as in [demo]. *)
Inductive service : Type := S3 | Sheets | Mail | Hook.

Definition isDown (s t : service) : bool :=
  match s, t with
  | S3, S3 | Sheets, Sheets | Mail, Mail | Hook, Hook => true
  | _, _ => false
  end.

Definition down (s : service) : World :=
  mkWorld silent (readFile demo) (pdf demo) (extractRawText demo)
    (fun _ _ => if isDown s S3 then Throw (Error "S3 is down") else Ok tt)
    (fun _ => if isDown s Sheets then Throw (Error "Sheets is down") else Ok tt)
    (fun _ => if isDown s Mail then Throw (Error "SMTP is down") else Ok tt)
    (fun _ => if isDown s Hook then Throw (Error "webhook is down") else Ok false)
    "bucket"
    "2025-01-01T00:00:00.000Z".

(** Requests for examples: a form with a file that starts like a PDF, and
    with one that starts like a ZIP archive. *)
Definition pdfBytes : list byte := [x25; x50; x44; x46].

Definition zipBytes : list byte := [x50; x4b; x03; x04].

Definition janeForm (f : option File) : Request :=
  mkRequest "Jane" "jane@example.com" "555" f.

End Outcome.

(** ** The language of a pattern *)

Module Language.

Import Pattern Patterns Props.

(** [n] words of [L] in a row. *)
Fixpoint iter (L : string -> Prop) (n : nat) (w : string) : Prop :=
  match n with
  | 0 => w = ""
  | S n' => exists w1 w2, w = (w1 ++ w2)%string /\ L w1 /\ iter L n' w2
  end.

Definition within (n : nat) (mx : option nat) : Prop :=
  match mx with
  | Some k => n <= k
  | None => True
  end.

(** The words a pattern can consume: the regular language of the pattern,
    an assertion consuming nothing. *)
Fixpoint lang (i : bool) (r : regex) (w : string) : Prop :=
  match r with
  | Eps | Eoi | Look _ => w = ""
  | Chr a => exists ch, w = String ch "" /\ charMatch i a ch = true
  | Cls cs => exists ch, w = String ch "" /\ classMatch i cs ch = true
  | Seq r1 r2 => exists w1 w2, w = (w1 ++ w2)%string /\ lang i r1 w1 /\ lang i r2 w2
  | Alt r1 r2 => lang i r1 w \/ lang i r2 w
  | Rep mn mx _ r1 => exists n, mn <= n /\ within n mx /\ iter (lang i r1) n w
  | Grp _ r1 => lang i r1 w
  end.

(** The continuation was called behind a word of [L] and accepted. *)
Definition behind (L : string -> Prop) (c : state -> option state) (x z : state) : Prop :=
  exists y w, c y = Some z /\ rest x = (w ++ rest y)%string
              /\ endIndex y = endIndex x + String.length w /\ L w.

(** No quantifier [{n,k}] has [k < n] (such a pattern is a syntax
    error). *)
Fixpoint wellFormed (r : regex) : bool :=
  match r with
  | Eps | Chr _ | Cls _ | Eoi => true
  | Seq r1 r2 | Alt r1 r2 => wellFormed r1 && wellFormed r2
  | Rep mn mx _ r1 =>
      match mx with Some k => mn <=? k | None => true end && wellFormed r1
  | Grp _ r1 | Look r1 => wellFormed r1
  end.

(** Number of characters of [s] that satisfy [p]. *)
Fixpoint count (p : ascii -> bool) (s : string) : nat :=
  match s with
  | EmptyString => 0
  | String c s' => (if p c then 1 else 0) + count p s'
  end.

(** The first and the last character of a text. *)
Definition first (s : string) : option ascii :=
  match s with
  | EmptyString => None
  | String c _ => Some c
  end.

Fixpoint final (s : string) : option ascii :=
  match s with
  | EmptyString => None
  | String c s' => match final s' with Some d => Some d | None => Some c end
  end.

(** The characters a one-character pattern accepts. *)
Definition accepts (i : bool) (r : regex) (c : ascii) : bool :=
  match r with
  | Chr a => charMatch i a c
  | Cls cs => classMatch i cs c
  | _ => false
  end.

(** Bounds on the number of characters in [p] that a word of the pattern
    has; [None] is no upper bound. *)
Fixpoint atLeast (p : ascii -> bool) (i : bool) (r : regex) : nat :=
  match r with
  | Eps | Eoi | Look _ => 0
  | Chr _ | Cls _ =>
      if forallb (fun c => implb (accepts i r c) (p c)) allAscii then 1 else 0
  | Seq r1 r2 => atLeast p i r1 + atLeast p i r2
  | Alt r1 r2 => Nat.min (atLeast p i r1) (atLeast p i r2)
  | Rep mn _ _ r1 => mn * atLeast p i r1
  | Grp _ r1 => atLeast p i r1
  end.

Definition plus (a b : option nat) : option nat :=
  match a, b with
  | Some x, Some y => Some (x + y)
  | _, _ => None
  end.

Definition times (mx a : option nat) : option nat :=
  match a, mx with
  | Some 0, _ => Some 0
  | Some x, Some k => Some (k * x)
  | _, _ => None
  end.

Definition larger (a b : option nat) : option nat :=
  match a, b with
  | Some x, Some y => Some (Nat.max x y)
  | _, _ => None
  end.

Fixpoint atMost (p : ascii -> bool) (i : bool) (r : regex) : option nat :=
  match r with
  | Eps | Eoi | Look _ => Some 0
  | Chr _ | Cls _ =>
      Some (if existsb (fun c => accepts i r c && p c) allAscii then 1 else 0)
  | Seq r1 r2 => plus (atMost p i r1) (atMost p i r2)
  | Alt r1 r2 => larger (atMost p i r1) (atMost p i r2)
  | Rep _ mx _ r1 => times mx (atMost p i r1)
  | Grp _ r1 => atMost p i r1
  end.

(** Every word of the pattern that is not empty starts, respectively ends,
    with a character in [q]. *)
Fixpoint begins (q : ascii -> bool) (i : bool) (r : regex) : bool :=
  match r with
  | Eps | Eoi | Look _ => true
  | Chr _ | Cls _ => forallb (fun c => implb (accepts i r c) (q c)) allAscii
  | Seq r1 r2 =>
      begins q i r1 && ((0 <? atLeast (fun _ => true) i r1) || begins q i r2)
  | Alt r1 r2 => begins q i r1 && begins q i r2
  | Rep _ _ _ r1 | Grp _ r1 => begins q i r1
  end.

Fixpoint ends (q : ascii -> bool) (i : bool) (r : regex) : bool :=
  match r with
  | Eps | Eoi | Look _ => true
  | Chr _ | Cls _ => forallb (fun c => implb (accepts i r c) (q c)) allAscii
  | Seq r1 r2 =>
      ends q i r2 && ((0 <? atLeast (fun _ => true) i r2) || ends q i r1)
  | Alt r1 r2 => ends q i r1 && ends q i r2
  | Rep _ _ _ r1 | Grp _ r1 => ends q i r1
  end.

(** Characters of the local part and of the domain of an address. *)
Definition localOk (c : ascii) : bool :=
  Char.isLetter c || Char.isDigit c
  || existsb (Ascii.eqb c) ["."; "_"; "%"; "+"; "-"]%char.

Definition domainOk (c : ascii) : bool :=
  Char.isLetter c || Char.isDigit c || existsb (Ascii.eqb c) ["."; "-"]%char.

Definition nameChar (c : ascii) : bool := Char.isLetter c || Char.isWhiteSpace c.

End Language.

(** ** Sections of a text, in terms of strings *)

Module Sections.

Import Pattern Patterns Props.

(** The header words and the stop words of the three section patterns, in
    the order of the alternatives. *)
Definition educationHeads : list string :=
  ["Education"; "Educations"; "EDUCATION"; "EDUCATIONS";
   "Academic Background"; "ACADEMIC BACKGROUND"].

Definition educationStops : list string := ["Skills"; "Projects"; "Qualifications"].

Definition skillsHeads : list string :=
  ["Skill"; "Skills"; "SKILL"; "SKILLS"; "Technical Skill"; "Technical Skills";
   "TECHNICAL SKILL"; "TECHNICAL SKILLS"; "Qualifications"; "QUALIFICATIONS"].

Definition skillsStops : list string := ["Projects"; "Education"].

Definition projectHeads : list string :=
  ["Project"; "Projects"; "PROJECT"; "PROJECTS"; "Work Experience"; "WORK EXPERIENCE"].

Definition projectStops : list string := ["Education"; "Skills"; "Qualifications"].

(** The text starts, in any case of the letters, with one of the words, or
    it is empty. *)
Fixpoint stopsAt (ts : list string) (s : string) : bool :=
  match ts with
  | [] => match s with EmptyString => true | String _ _ => false end
  | t :: ts' => isPrefix true t s || stopsAt ts' s
  end.

(** The shortest prefix of [s] behind which [stop] holds; the whole of [s]
    if it holds nowhere. *)
Fixpoint upTo (stop : string -> bool) (s : string) : string :=
  if stop s then EmptyString
  else match s with
       | EmptyString => EmptyString
       | String c s' => String c (upTo stop s')
       end.

(** The first place of [s] at which one of the words starts, in any case of
    the letters: the word, the first in the list that starts there, and the
    text behind it. *)
Fixpoint findLabel (As : list string) (s : string) : option (string * string) :=
  match firstLabel true As s with
  | Some r => Some r
  | None =>
      match s with
      | EmptyString => None
      | String _ s' => findLabel As s'
      end
  end.

(** The body of a section: what stands behind the first header word and
    the white space after it, up to the first stop word or the end of the
    text. *)
Definition sectionBody (heads stops : list string) (text : string) : option string :=
  match findLabel heads text with
  | Some (_, after) => Some (upTo (stopsAt stops) (Str.trimStart after))
  | None => None
  end.

(** The shape of the three section patterns:
    [/(A|As...)\s*([\s\S]*?)(?=t|ts...|$)/i]. *)
Definition sectionRegex (A : string) (As : list string) (t : string) (ts : list string)
    : RegExp :=
  mkRegExp
    (cat [Grp 1 (altsLit A As); Star ws; Grp 2 (LazyStar anyChar);
          Look (alts (Lit t) (map Lit ts ++ [Eoi]))])
    true.

(** An entry as tier 2 returns it: not empty, without white space at its
    ends and without a line feed. *)
Definition cleanEntry (e : string) : Prop :=
  e <> "" /\ Str.trim e = e /\ Str.all (fun c => negb (Ascii.eqb c Char.LF)) e = true.

(** The word [a] in any case of its letters. *)
Definition anyCase (a s : string) : Prop := stripPrefix true a s = Some "".

(** The text [s] holds the word [a], in any case of its letters. *)
Definition holds (a s : string) : Prop :=
  exists u w v, s = (u ++ w ++ v)%string /\ anyCase a w.

(** The word starts with a letter. *)
Definition startsLetter (a : string) : bool :=
  match a with
  | EmptyString => false
  | String c _ => Char.isLetter c
  end.

Definition notLetter (c : ascii) : bool := negb (Char.isLetter c).

End Sections.

(** ** The earlier version of the program (src/unnamed/part_000) *)

Module Earlier.

Import Pattern Patterns Js Server Handler Props.

Local Notation "x <- e ;; k" := (bindM e (fun x => k))
  (at level 61, e at next level, right associativity).
Local Notation "e ;; k" := (bindM e (fun _ => k))
  (at level 61, right associativity).

(** [.]: every character but a line terminator (LF and CR below
    U+0100). *)
Definition dot : regex :=
  Cls [CRange "000" "009"; CRange "011" "012"; CRange "014" "255"].

(** The name pattern: [(?:Name|NAME)], [\s*], [[:-]?], [\s*] and, as group
    1, the rest of the line (a dot under a star); flag [i]. *)
Definition nameRegex : RegExp :=
  mkRegExp
    (cat [alts (Lit "Name") [Lit "NAME"]; Star ws; Opt sep; Star ws; Grp 1 (Star dot)])
    true.

(** The email pattern: as the name pattern, with [(?:Email|EMAIL)]. *)
Definition emailRegex : RegExp :=
  mkRegExp
    (cat [alts (Lit "Email") [Lit "EMAIL"]; Star ws; Opt sep; Star ws; Grp 1 (Star dot)])
    true.

(** The phone pattern: as the name pattern, with [(?:Phone|PHONE)]. *)
Definition phoneRegex : RegExp :=
  mkRegExp
    (cat [alts (Lit "Phone") [Lit "PHONE"]; Star ws; Opt sep; Star ws; Grp 1 (Star dot)])
    true.

(** [/(Education|Educations|EDUCATION|EDUCATIONS)\s*([\s\S]*?)(?=Skills|Projects|Qualifications|$)/i] *)
Definition educationRegex : RegExp :=
  mkRegExp
    (cat [Grp 1 (alts (Lit "Education") [Lit "Educations"; Lit "EDUCATION"; Lit "EDUCATIONS"]);
          Star ws;
          Grp 2 (LazyStar anyChar);
          Look (alts (Lit "Skills") [Lit "Projects"; Lit "Qualifications"; Eoi])])
    true.

(** [/(Skill|Skills|SKILL|SKILLS|Qualifications)\s*([\s\S]*?)(?=Projects|Education|$)/i] *)
Definition skillsRegex : RegExp :=
  mkRegExp
    (cat [Grp 1 (alts (Lit "Skill") [Lit "Skills"; Lit "SKILL"; Lit "SKILLS";
                                     Lit "Qualifications"]);
          Star ws;
          Grp 2 (LazyStar anyChar);
          Look (alts (Lit "Projects") [Lit "Education"; Eoi])])
    true.

(** [/(Project|Projects|PROJECT|PROJECTS)\s*([\s\S]*?)(?=Education|Skills|Qualifications|$)/i] *)
Definition projectsRegex : RegExp :=
  mkRegExp
    (cat [Grp 1 (alts (Lit "Project") [Lit "Projects"; Lit "PROJECT"; Lit "PROJECTS"]);
          Star ws;
          Grp 2 (LazyStar anyChar);
          Look (alts (Lit "Education") [Lit "Skills"; Lit "Qualifications"; Eoi])])
    true.

(** [text.match(re)?.[1]?.trim() || ''] *)
Definition firstGroup (re : RegExp) (text : string) : string :=
  match exec re text with
  | Some m =>
      match group 1 m with
      | Some g => Str.trim g
      | None => ""
      end
  | None => ""
  end.

Definition extractPersonalInfo (text : string) : PersonalInfo :=
  let name := firstGroup nameRegex text in
  let name :=
    if truthy name then name
    else
      let lines := map Str.trim (Str.split Char.LF text) in
      match lines with
      | line :: _ => line
      | [] => name
      end in
  let email := firstGroup emailRegex text in
  let phone := firstGroup phoneRegex text in
  mkInfo name email phone.

Definition extractEducation (text : string) : result (list string) :=
  match exec educationRegex text with
  | None => Ok []
  | Some m => bind (element 1 m) (fun g => Ok (entries g))
  end.

Definition extractSkills (text : string) : result (list string) :=
  match exec skillsRegex text with
  | None => Ok []
  | Some m => bind (element 2 m) (fun g => Ok (entries g))
  end.

Definition extractProjects (text : string) : result (list string) :=
  match exec projectsRegex text with
  | None => Ok []
  | Some m => bind (element 1 m) (fun g => Ok (entries g))
  end.

Section Submit.

Variable w : World.

Definition extractTextFromPDF (buffer : list byte) : M string :=
  tryCatch
    (emit (ParsePdf buffer) ;; lift (pdf w buffer))
    (fun error => emit (ConsoleError error) ;; ret "").

Definition extractTextFromDOCX (buffer : list byte) : M string :=
  tryCatch
    (emit (ParseDocx buffer) ;; lift (extractRawText w buffer))
    (fun error => emit (ConsoleError error) ;; ret "").

(** The handler of this version: it takes the text from the two helpers
    and has no branch for other extensions.  Its first two statements
    stand before the [try] block, as in server.js.  [uploadToS3],
    [storeInGoogleSheets], [sendEmail] and [sendWebhook] read as in
    server.js. *)
Definition submit (req : Request) : M Response :=
  form <- lift (destructure (body req)) ;;
  let file := file req in
  tryCatch
    (file <- lift (receiver_file file) ;;
     let buffer := buffer file in
     let fileExtension := extension (originalname file) in
     text <-
       (if String.eqb fileExtension "pdf" then extractTextFromPDF buffer
        else if String.eqb fileExtension "docx" then extractTextFromDOCX buffer
        else ret "") ;;
     let personalInfo := extractPersonalInfo text in
     education <- lift (extractEducation text) ;;
     skills <- lift (extractSkills text) ;;
     projects <- lift (extractProjects text) ;;
     publicUrl <- uploadToS3 w buffer (originalname file) ;;
     storeInGoogleSheets w
       [orElse (name personalInfo) (bodyName form);
        orElse (email personalInfo) (bodyEmail form);
        orElse (phone personalInfo) (bodyPhone form);
        publicUrl;
        String.concat Str.nl education;
        String.concat Str.nl skills;
        String.concat Str.nl projects] ;;
     sendEmail w (bodyEmail form) ;;
     let cvData :=
       mkCvData (orElse (name personalInfo) (bodyName form))
                (orElse (email personalInfo) (bodyEmail form))
                (orElse (phone personalInfo) (bodyPhone form)) in
     sendWebhook w (bodyEmail form) cvData publicUrl education skills projects ;;
     ret (mkResponse 200 "Application submitted successfully!"))
    (fun error =>
       emit (ConsoleError error) ;;
       ret (mkResponse 500 "Error processing application.")).

End Submit.

End Earlier.

(** ** Labelled values, in terms of strings *)

Module Lines.

Import Pattern Patterns Js Server Handler Props Sections.

Definition isLineTerminator (c : ascii) : bool :=
  existsb (Nat.eqb (Char.code c)) [10; 13].

Definition isSeparator (c : ascii) : bool := existsb (Ascii.eqb c) [":"; "-"]%char.

(** The text is at the end of a line. *)
Definition lineEnd (s : string) : bool :=
  match s with
  | EmptyString => true
  | String c _ => isLineTerminator c
  end.

(** The text does not start with a character in [p]. *)
Definition unless (p : ascii -> bool) (s : string) : bool :=
  match s with
  | EmptyString => true
  | String c _ => negb (p c)
  end.

(** One separator at the start is left out. *)
Definition skipSeparator (s : string) : string :=
  match s with
  | EmptyString => EmptyString
  | String c s' => if isSeparator c then s' else s
  end.

(** The value of a labelled line: what stands behind the first occurrence
    of the label (in any case of the letters), white space, at most one
    separator and white space again, up to the end of that line,
    trimmed. *)
Definition labelValue (labels : list string) (text : string) : string :=
  match findLabel labels text with
  | Some (_, after) =>
      Str.trim (upTo lineEnd (Str.trimStart (skipSeparator (Str.trimStart after))))
  | None => ""
  end.

(** The row and the payload of a submission in which nothing was taken
    from the file. *)
Definition formRow (w : World) (req : Request) (f : File) : list string :=
  [formName req; formEmail req; formPhone req;
   ("https://" ++ BUCKET_NAME w ++ ".s3.amazonaws.com/" ++ originalname f)%string;
   ""; ""; ""].

Definition formPayload (w : World) (req : Request) (f : File) : Webhook :=
  mkWebhook (formEmail req) (mkCvData (formName req) (formEmail req) (formPhone req))
            [] [] []
            ("https://" ++ BUCKET_NAME w ++ ".s3.amazonaws.com/" ++ originalname f)%string
            (formName req) (formEmail req) (now w).

End Lines.

(** ** Arguments without a text *)

Module Guard.

Import Js Server.

(** The argument [v] is not a string and [JSON.stringify] gives no text
    for it: either it throws [e], or it returns [undefined] and [e] is the
    TypeError of the first method call on that. *)
Definition noText (v : value) (e : exn) : Prop :=
  (forall s, v <> VString s)
  /\ (stringify v = Throw e
      \/ (stringify v = Ok None
          /\ e = TypeError "Cannot read properties of undefined")).

(** What [JSON.stringify] throws for a BigInt. *)
Definition bigIntError : exn := TypeError "Do not know how to serialize a BigInt".

End Guard.

(** ** The configuration of server.js *)

Module Config.

Import Pattern Js.

(** [text.replace(re, by)] for a pattern with the [g] flag and a
    replacement without [$]: the matches are looked for from left to right,
    each search starting where the last match ended, and one character
    further after an empty match; the text between the matches is kept.
    [s] is the text from index [i] on; [fuel] bounds the number of
    searches. *)
Fixpoint replaceAll (re : RegExp) (by_ : string) (fuel i : nat) (s : string) : string :=
  match fuel with
  | 0 => s
  | S fuel' =>
      let next :=
        match s with
        | EmptyString => EmptyString
        | String c s' => String c (replaceAll re by_ fuel' (S i) s')
        end in
      match matcher (ignoreCase re) (source re) (mkState i s []) Some with
      | Some e =>
          match endIndex e - i with
          | 0 => (by_ ++ next)%string
          | n => (by_ ++ replaceAll re by_ fuel' (i + n) (Str.drop n s))%string
          end
      | None => next
      end
  end.

Definition replace_g (re : RegExp) (by_ : string) (text : string) : string :=
  replaceAll re by_ (S (String.length text)) 0 text.

Definition backslash : ascii := "092".

(** The two characters a pattern or an environment file writes for a line
    feed: a backslash and the letter n. *)
Definition escaped : string := String backslash "n".

(** The pattern of [private_key], a backslash and the letter n; its [g]
    flag is read by [replace], see [replace_g]. *)
Definition escapedNewline : RegExp := mkRegExp (Lit escaped) false.

(** [process.env.GOOGLE_PRIVATE_KEY.replace(re, LF)] with [re] the pattern
    above; a variable that is not set is [undefined]. *)
Definition private_key (GOOGLE_PRIVATE_KEY : option string) : result string :=
  match GOOGLE_PRIVATE_KEY with
  | Some key => Ok (replace_g escapedNewline Str.nl key)
  | None => Throw (TypeError "Cannot read properties of undefined")
  end.

(** The text with a line feed for every backslash followed by n, read from
    left to right. *)
Fixpoint unescape (s : string) : string :=
  match s with
  | EmptyString => EmptyString
  | String c s' =>
      match s' with
      | String d s'' =>
          if Ascii.eqb c backslash && Ascii.eqb d "n" then String Char.LF (unescape s'')
          else String c (unescape s')
      | EmptyString => String c EmptyString
      end
  end.

End Config.

(** * Properties *)

(** Case analysis over the 256 characters. *)
Ltac each_char c := destruct c as [[] [] [] [] [] [] [] []].

(** ** Facts about characters *)

Module CharFacts.

Import Pattern Props.

Lemma ascii_forall (p : ascii -> bool) :
  forallb p allAscii = true -> forall c, p c = true.
Proof.
  intros H c. rewrite forallb_forall in H. apply H.
  unfold allAscii. apply in_map_iff. exists (nat_of_ascii c). split.
  - apply ascii_nat_embedding.
  - apply in_seq. pose proof (nat_ascii_bounded c). lia.
Qed.

(** The three candidates of the class matcher are all the characters with
    the canonical form of [ch]. *)
Lemma canonical_forms a ch :
  Ascii.eqb (Char.canonicalize true a) (Char.canonicalize true ch)
  = Ascii.eqb a ch || Ascii.eqb a (Char.toUpperCase ch) || Ascii.eqb a (Char.toLowerCase ch).
Proof.
  revert ch. revert a.
  assert (H : forall a, forallb (fun ch => Bool.eqb
             (Ascii.eqb (Char.canonicalize true a) (Char.canonicalize true ch))
             (Ascii.eqb a ch || Ascii.eqb a (Char.toUpperCase ch)
              || Ascii.eqb a (Char.toLowerCase ch))) allAscii = true).
  { apply (ascii_forall (fun a => forallb (fun ch => Bool.eqb
             (Ascii.eqb (Char.canonicalize true a) (Char.canonicalize true ch))
             (Ascii.eqb a ch || Ascii.eqb a (Char.toUpperCase ch)
              || Ascii.eqb a (Char.toLowerCase ch))) allAscii)).
    vm_compute. reflexivity. }
  intros a ch. specialize (H a).
  pose proof (ascii_forall _ H ch) as E. simpl in E.
  now apply Bool.eqb_prop in E.
Qed.

(** CharacterSetMatcher: with the [i] flag a class accepts [ch] when one
    of its members has the canonical form of [ch]. *)
Lemma classMatch_canonical cs ch :
  classMatch true cs ch = true
  <-> exists a, setMem cs a = true
                /\ Char.canonicalize true a = Char.canonicalize true ch.
Proof.
  unfold classMatch. split.
  - intros H. apply orb_true_iff in H as [H | H]; [apply orb_true_iff in H as [H | H] |].
    + exists ch. split; [exact H | reflexivity].
    + exists (Char.toUpperCase ch). split; [exact H |].
      apply Ascii.eqb_eq. rewrite canonical_forms.
      now rewrite Ascii.eqb_refl, orb_true_r.
    + exists (Char.toLowerCase ch). split; [exact H |].
      apply Ascii.eqb_eq. rewrite canonical_forms.
      now rewrite Ascii.eqb_refl, !orb_true_r.
  - intros (a & Ha & E). apply Ascii.eqb_eq in E. rewrite canonical_forms in E.
    apply orb_true_iff in E as [E | E]; [apply orb_true_iff in E as [E | E] |];
      apply Ascii.eqb_eq in E; subst a; rewrite Ha; simpl; rewrite ?orb_true_r;
      reflexivity.
Qed.

End CharFacts.

(** ** Facts about strings *)

Module StrFacts.

Import Str.

Lemma app_assoc (a b c : string) : ((a ++ b) ++ c = a ++ (b ++ c))%string.
Proof. induction a as [|h a IH]; simpl; [reflexivity | now rewrite IH]. Qed.

Lemma app_nil_r (a : string) : (a ++ "" = a)%string.
Proof. induction a as [|h a IH]; simpl; [reflexivity | now rewrite IH]. Qed.

Lemma length_app (a b : string) :
  String.length (a ++ b) = String.length a + String.length b.
Proof. induction a as [|h a IH]; simpl; [reflexivity | now rewrite IH]. Qed.

Lemma all_app p (a b : string) : all p (a ++ b) = all p a && all p b.
Proof.
  induction a as [|h a IH]; simpl; [reflexivity |].
  now rewrite IH, andb_assoc.
Qed.

Lemma all_mono (p q : ascii -> bool) (w : string) :
  (forall c, p c = true -> q c = true) -> all p w = true -> all q w = true.
Proof.
  intros Hpq. induction w as [|h w IH]; simpl; [reflexivity |].
  intros H. apply andb_true_iff in H as [Hh Hw].
  now rewrite (Hpq _ Hh), (IH Hw).
Qed.

Lemma take_app (w s : string) : take (String.length w) (w ++ s) = w.
Proof.
  unfold take. induction w as [|h w IH]; simpl.
  - now destruct s.
  - now rewrite IH.
Qed.

Lemma drop_app (w s : string) : drop (String.length w) (w ++ s) = s.
Proof. induction w as [|h w IH]; simpl; [now destruct s | exact IH]. Qed.

Lemma take_0 (s : string) : take 0 s = "".
Proof. unfold take. now destruct s. Qed.

Lemma all_trimStart p (s : string) : all p s = true -> all p (trimStart s) = true.
Proof.
  induction s as [|h s IH]; simpl; [reflexivity |].
  intros H. destruct (Char.isWhiteSpace h); [| exact H].
  apply andb_true_iff in H as [_ H]. now apply IH.
Qed.

Lemma all_trimEnd p (s : string) : all p s = true -> all p (trimEnd s) = true.
Proof.
  induction s as [|h s IH]; simpl; [reflexivity |].
  intros H. apply andb_true_iff in H as [Hh Hs].
  specialize (IH Hs).
  destruct (trimEnd s) as [|h' t].
  - destruct (Char.isWhiteSpace h); simpl; [reflexivity | now rewrite Hh].
  - simpl in *. now rewrite Hh, IH.
Qed.

Lemma all_trim p (s : string) : all p s = true -> all p (trim s) = true.
Proof. intros H. unfold trim. now apply all_trimEnd, all_trimStart. Qed.

Lemma all_drop p n (s : string) : all p s = true -> all p (drop n s) = true.
Proof.
  revert s. induction n as [|n IH]; intros [|h s]; simpl; auto.
  intros H. apply andb_true_iff in H as [_ H]. now apply IH.
Qed.

End StrFacts.

(** ** Facts about the matcher *)

Module MatcherFacts.

Import Pattern Props.

Lemma span_refl p ns x : span p ns "" [] x x.
Proof. unfold span; simpl. repeat split; auto. Qed.

Lemma span_trans p ns w1 w2 l1 l2 x y z :
  span p ns w1 l1 x y -> span p ns w2 l2 y z ->
  span p ns (w1 ++ w2) (l2 ++ l1) x z.
Proof.
  intros (R1 & E1 & A1 & C1 & F1) (R2 & E2 & A2 & C2 & F2).
  unfold span. repeat split.
  - now rewrite R1, R2, StrFacts.app_assoc.
  - rewrite E2, E1, StrFacts.length_app. lia.
  - now rewrite StrFacts.all_app, A1, A2.
  - now rewrite C2, C1, List.app_assoc.
  - apply Forall_app; split; assumption.
Qed.

Lemma span_weaken (p q : ascii -> bool) ns ms w l x y :
  (forall c, p c = true -> q c = true) -> incl ns ms ->
  span p ns w l x y -> span q ms w l x y.
Proof.
  intros Hpq Hinc (R & E & A & C & F).
  unfold span. repeat split; auto.
  - eapply StrFacts.all_mono; eauto.
  - eapply Forall_impl; [| exact F]. intros e He. now apply Hinc.
Qed.

Lemma span_clear p ns x :
  span p ns "" (map (fun n => (n, None)) ns) x (clear ns x).
Proof.
  unfold span, clear; simpl. repeat split; auto.
  apply Forall_forall. intros e He.
  apply in_map_iff in He as (n & <- & Hn). exact Hn.
Qed.

Lemma repeat_sound (p : ascii -> bool) (ns : list nat)
    (m : state -> (state -> option state) -> option state) :
  (forall x c z, m x c = Some z -> reached p ns c x z) ->
  forall greedy c fuel mn mx x z,
    repeatMatcher m ns greedy c fuel mn mx x = Some z -> reached p ns c x z.
Proof.
  intros Hm greedy c fuel.
  induction fuel as [|fuel IH]; intros mn mx x z H; simpl in H; [discriminate |].
  assert (Hc : c x = Some z -> reached p ns c x z).
  { intros E. exists x, "", []. split; [exact E | apply span_refl]. }
  assert (Hd : m (clear ns x)
                 (fun y => if (mn =? 0) && (endIndex y =? endIndex x) then None
                           else repeatMatcher m ns greedy c fuel (pred mn)
                                  (option_map pred mx) y) = Some z ->
               reached p ns c x z).
  { intros E. apply Hm in E as (y & w & l & Ey & Sy).
    destruct ((mn =? 0) && (endIndex y =? endIndex x)); [discriminate |].
    apply IH in Ey as (y' & w' & l' & Ey' & Sy').
    exists y', (w ++ w')%string, (l' ++ l ++ map (fun n => (n, None)) ns).
    split; [exact Ey' |].
    pose proof (span_trans _ _ _ _ _ _ _ _ _
                  (span_trans _ _ _ _ _ _ _ _ _ (span_clear p ns x) Sy) Sy') as T.
    exact T. }
  destruct (isZero mx); [now apply Hc |].
  destruct (negb (mn =? 0)); [now apply Hd |].
  destruct greedy.
  - destruct (m (clear ns x) _) eqn:E; [| now apply Hc].
    injection H as ->. now apply Hd.
  - destruct (c x) eqn:E; [injection H as ->; now apply Hc | now apply Hd].
Qed.

(** Soundness of the matcher: a result comes from the continuation, called
    at a state ahead that the pattern could reach. *)
Lemma matcher_sound i r :
  forall x c z, matcher i r x c = Some z ->
                reached (allowed i r) (groups r) c x z.
Proof.
  induction r as [| a | cs | r1 IH1 r2 IH2 | r1 IH1 r2 IH2
                  | mn mx g r1 IH1 | n r1 IH1 | r1 IH1 |];
    intros x c z H; [simpl in H .. | | simpl in H | simpl in H | simpl in H].
  - exists x, "", []. split; [exact H | apply span_refl].
  - destruct (rest x) as [|ch s'] eqn:Ex; [discriminate |].
    destruct (charMatch i a ch) eqn:Ec; [| discriminate].
    exists (advance x s'), (String ch ""), []. split; [exact H |].
    unfold span; simpl. rewrite Ec. repeat split; auto. lia.
  - destruct (rest x) as [|ch s'] eqn:Ex; [discriminate |].
    destruct (classMatch i cs ch) eqn:Ec; [| discriminate].
    exists (advance x s'), (String ch ""), []. split; [exact H |].
    unfold span; simpl. rewrite Ec. repeat split; auto. lia.
  - apply IH1 in H as (y & w & l & Hy & Sy).
    apply IH2 in Hy as (y' & w' & l' & Hy' & Sy').
    exists y', (w ++ w')%string, (l' ++ l). split; [exact Hy' |].
    eapply span_trans.
    + eapply span_weaken; [| | exact Sy]; simpl.
      * intros ch ->. reflexivity.
      * apply incl_appl, incl_refl.
    + eapply span_weaken; [| | exact Sy']; simpl.
      * intros ch ->. apply orb_true_r.
      * apply incl_appr, incl_refl.
  - destruct (matcher i r1 x c) eqn:E1.
    + injection H as ->. apply IH1 in E1 as (y & w & l & Hy & Sy).
      exists y, w, l. split; [exact Hy |].
      eapply span_weaken; [| | exact Sy]; simpl.
      * intros ch ->. reflexivity.
      * apply incl_appl, incl_refl.
    + apply IH2 in H as (y & w & l & Hy & Sy).
      exists y, w, l. split; [exact Hy |].
      eapply span_weaken; [| | exact Sy]; simpl.
      * intros ch ->. apply orb_true_r.
      * apply incl_appr, incl_refl.
  - apply (repeat_sound _ _ _ IH1) in H. exact H.
  - apply IH1 in H as (y & w & l & Hy & Sy).
    eexists _, w, (_ :: l). split; [exact Hy |].
    destruct Sy as (R & E & A & C & F).
    unfold span; simpl. repeat split; auto.
    + now rewrite C.
    + constructor; [now left |].
      eapply Forall_impl; [| exact F]. intros e He. now right.
  - destruct (matcher i r1 x Some) as [y|] eqn:E1; [| discriminate].
    apply IH1 in E1 as (y' & w & l & Hy & Sy).
    injection Hy as ->.
    eexists _, "", l. split; [exact H |].
    destruct Sy as (R & E & A & C & F).
    unfold span; simpl. repeat split; auto.
  - destruct (rest x) eqn:Ex; [| discriminate].
    exists x, "", []. split; [exact H | apply span_refl].
Qed.

End MatcherFacts.

Module ScanFacts.

Import Pattern Props MatcherFacts.

(** *** Group numbers do not decide whether a pattern matches *)

Lemma samePlace_refl x : samePlace x x.
Proof. split; reflexivity. Qed.

Lemma agree_first (a1 a2 b1 b2 : option state) :
  agree a1 a2 -> agree b1 b2 ->
  agree (match a1 with Some z => Some z | None => b1 end)
        (match a2 with Some z => Some z | None => b2 end).
Proof. destruct a1, a2; simpl; intros Ha Hb; tauto. Qed.

Lemma repeat_agree m1 m2 ns1 ns2 :
  (forall x1 x2 c1 c2, samePlace x1 x2 -> agreeing c1 c2 ->
                       agree (m1 x1 c1) (m2 x2 c2)) ->
  forall greedy c1 c2, agreeing c1 c2 ->
  forall fuel mn mx x1 x2, samePlace x1 x2 ->
    agree (repeatMatcher m1 ns1 greedy c1 fuel mn mx x1)
          (repeatMatcher m2 ns2 greedy c2 fuel mn mx x2).
Proof.
  intros Hm greedy c1 c2 Hc fuel.
  induction fuel as [|fuel IH]; intros mn mx x1 x2 Hx; simpl; [exact I |].
  destruct (isZero mx); [now apply Hc |].
  assert (Hd : agree
    (m1 (clear ns1 x1) (fun y => if (mn =? 0) && (endIndex y =? endIndex x1) then None
       else repeatMatcher m1 ns1 greedy c1 fuel (pred mn) (option_map pred mx) y))
    (m2 (clear ns2 x2) (fun y => if (mn =? 0) && (endIndex y =? endIndex x2) then None
       else repeatMatcher m2 ns2 greedy c2 fuel (pred mn) (option_map pred mx) y))).
  { apply Hm.
    - destruct Hx as [Hr He]. split; simpl; assumption.
    - intros y1 y2 Hy. destruct Hx as [_ He]. destruct (Hy) as [_ Hey].
      rewrite He, Hey.
      destruct ((mn =? 0) && (endIndex y2 =? endIndex x2)); [exact I |].
      now apply IH. }
  destruct (negb (mn =? 0)); [exact Hd |].
  destruct greedy; apply agree_first; auto.
Qed.

Lemma matcher_agree i r1 :
  forall r2, similar r1 r2 ->
  forall x1 x2 c1 c2, samePlace x1 x2 -> agreeing c1 c2 ->
    agree (matcher i r1 x1 c1) (matcher i r2 x2 c2).
Proof.
  induction r1 as [| a | cs | a1 IH1 a2 IH2 | a1 IH1 a2 IH2
                   | mn mx g a IH | n a IH | a IH |];
    intros [| b | ds | b1 b2 | b1 b2 | mn' mx' g' b | n' b | b |] Hs;
    try contradiction; intros x1 x2 c1 c2 Hx Hc.
  - simpl. now apply Hc.
  - simpl in Hs. subst b. simpl. destruct Hx as [Hr He]. rewrite <- Hr.
    destruct (rest x1) as [|ch s']; [exact I |].
    destruct (charMatch i a ch); [| exact I].
    apply Hc. split; simpl; congruence.
  - simpl in Hs. subst ds. simpl. destruct Hx as [Hr He]. rewrite <- Hr.
    destruct (rest x1) as [|ch s']; [exact I |].
    destruct (classMatch i cs ch); [| exact I].
    apply Hc. split; simpl; congruence.
  - destruct Hs as [H1 H2]. simpl. apply IH1; auto.
    intros y1 y2 Hy. apply IH2; auto.
  - destruct Hs as [H1 H2]. simpl. apply agree_first; [apply IH1 | apply IH2]; auto.
  - destruct Hs as (-> & -> & -> & Hs).
    change (agree (repeatMatcher (matcher i a) (groups a) g' c1
                     (S (mn' + String.length (rest x1))) mn' mx' x1)
                  (repeatMatcher (matcher i b) (groups b) g' c2
                     (S (mn' + String.length (rest x2))) mn' mx' x2)).
    destruct (Hx) as [Hr _]. rewrite <- Hr.
    apply repeat_agree; auto.
  - simpl in Hs. simpl. apply IH; auto.
    intros y1 y2 [Hr He]. apply Hc. split; simpl; assumption.
  - simpl in Hs. simpl.
    assert (Hin : agree (matcher i a x1 Some) (matcher i b x2 Some)).
    { apply IH; auto. intros y1 y2 Hy. exact Hy. }
    destruct (matcher i a x1 Some), (matcher i b x2 Some); simpl in Hin;
      try contradiction; [| exact I].
    apply Hc. destruct Hx as [Hr He]. split; simpl; assumption.
  - simpl. destruct Hx as [Hr He]. rewrite <- Hr.
    destruct (rest x1) eqn:E; [| exact I]. apply Hc. split; congruence.
Qed.

Lemma similar_none i r1 r2 x1 x2 :
  similar r1 r2 -> samePlace x1 x2 ->
  (matcher i r1 x1 Some = None <-> matcher i r2 x2 Some = None).
Proof.
  intros Hs Hx.
  assert (H : agree (matcher i r1 x1 Some) (matcher i r2 x2 Some)).
  { apply matcher_agree; auto. intros y1 y2 Hy. exact Hy. }
  destruct (matcher i r1 x1 Some), (matcher i r2 x2 Some); simpl in H;
    try contradiction; split; intros; congruence.
Qed.

(** *** An optional or starred greedy part can be skipped *)

Lemma skip_optional i mx r x c :
  c x <> None -> matcher i (Rep 0 mx true r) x c <> None.
Proof.
  intros Hc. simpl. destruct (isZero mx); [exact Hc |].
  destruct (matcher i r (clear (groups r) x) _); [discriminate | exact Hc].
Qed.

(** *** The scan over the start indices *)

Lemma scan_none re s : forall i,
  scan re i s = None <->
  forall k, k <= String.length s ->
    matcher (ignoreCase re) (source re) (start (i + k) (Str.drop k s)) Some = None.
Proof.
  induction s as [|h s IH]; intros i; simpl.
  - split.
    + intros H k Hk. assert (k = 0) by lia. subst k. rewrite Nat.add_0_r. simpl.
      unfold start. destruct (matcher _ _ _ _); [discriminate | reflexivity].
    + intros H. specialize (H 0 (Nat.le_refl _)). rewrite Nat.add_0_r in H.
      simpl in H. unfold start in H. now rewrite H.
  - split.
    + intros H k Hk.
      destruct (matcher _ _ (mkState i (String h s) []) _) eqn:E; [discriminate |].
      destruct k as [|k].
      * rewrite Nat.add_0_r. exact E.
      * simpl. rewrite <- Nat.add_succ_comm. apply (proj1 (IH (S i)) H). lia.
    + intros H.
      pose proof (H 0 (Nat.le_0_l _)) as H0. rewrite Nat.add_0_r in H0.
      simpl in H0. unfold start in H0. rewrite H0.
      apply IH. intros k Hk. specialize (H (S k)). simpl in H.
      rewrite <- Nat.add_succ_comm in H. apply H. lia.
Qed.

Lemma scan_some re s : forall i mr,
  scan re i s = Some mr ->
  exists k e,
    k <= String.length s
    /\ index mr = i + k
    /\ matcher (ignoreCase re) (source re) (start (i + k) (Str.drop k s)) Some = Some e
    /\ whole mr = Str.take (endIndex e - (i + k)) (Str.drop k s)
    /\ caps mr = captures e
    /\ forall j, j < k ->
         matcher (ignoreCase re) (source re) (start (i + j) (Str.drop j s)) Some = None.
Proof.
  induction s as [|h s IH]; intros i mr H; simpl in H.
  - destruct (matcher _ _ (mkState i "" []) _) as [e|] eqn:E; [| discriminate].
    injection H as <-. exists 0, e. rewrite Nat.add_0_r. simpl.
    repeat split; auto; intros j Hj; lia.
  - destruct (matcher _ _ (mkState i (String h s) []) _) as [e|] eqn:E.
    + injection H as <-. exists 0, e. rewrite Nat.add_0_r. simpl.
      repeat split; auto; try lia; intros j Hj; lia.
    + apply IH in H as (k & e & Hk & Hi & Hm & Hw & Hc & Hn).
      exists (S k), e. rewrite <- Nat.add_succ_comm. simpl.
      repeat split; auto; try lia; [].
      intros [|j] Hj.
      * rewrite Nat.add_0_r. exact E.
      * simpl. rewrite <- Nat.add_succ_comm. apply Hn. lia.
Qed.

Lemma drop_length_le k (s : string) : String.length (Str.drop k s) <= String.length s.
Proof.
  revert s. induction k as [|k IH]; intros [|h s]; simpl; auto.
Qed.

Lemma drop_split (s w t : string) k :
  Str.drop k s = (w ++ t)%string ->
  k <= String.length s ->
  Str.drop (k + String.length w) s = t /\ k + String.length w <= String.length s.
Proof.
  revert s. induction k as [|k IH]; intros s H Hk; simpl in *.
  - assert (s = (w ++ t)%string) by (destruct s; exact H). subst s.
    rewrite StrFacts.drop_app, StrFacts.length_app. split; [reflexivity | lia].
  - destruct s as [|h s]; simpl in *; [lia |].
    destruct (IH s H) as [H1 H2]; [lia |]. split; [exact H1 | lia].
Qed.

(** A pattern that matches at some place ahead of a scan start index is
    found by the scan. *)
Lemma scan_finds re s k :
  k <= String.length s ->
  matcher (ignoreCase re) (source re) (start k (Str.drop k s)) Some <> None ->
  exec re s <> None.
Proof.
  intros Hk Hm Hn. unfold exec in Hn.
  apply (proj1 (scan_none re s 0)) with (k := k) in Hn; [| exact Hk].
  simpl in Hn. contradiction.
Qed.

End ScanFacts.

(** ** The fuel of a quantifier is enough *)

Module FuelFacts.

Import Pattern Props MatcherFacts.

Lemma first_eq {A} (a1 a2 b1 b2 : option A) :
  a1 = a2 -> b1 = b2 ->
  match a1 with Some z => Some z | None => b1 end
  = match a2 with Some z => Some z | None => b2 end.
Proof. now intros -> ->. Qed.

Lemma span_after_clear p ns x y w l :
  span p ns w l (clear ns x) y ->
  span p ns w (l ++ map (fun n => (n, None)) ns) x y.
Proof.
  intros S. pose proof (span_trans _ _ _ _ _ _ _ _ _ (span_clear p ns x) S) as T.
  exact T.
Qed.

Lemma repeat_local p ns m :
  local p ns m ->
  forall greedy fuel mn mx x c1 c2,
    (forall y w l, span p ns w l x y -> c1 y = c2 y) ->
    repeatMatcher m ns greedy c1 fuel mn mx x
    = repeatMatcher m ns greedy c2 fuel mn mx x.
Proof.
  intros Hm greedy fuel.
  induction fuel as [|fuel IH]; intros mn mx x c1 c2 Hc; simpl; [reflexivity |].
  assert (Hx : c1 x = c2 x) by (apply (Hc x "" []), span_refl).
  assert (Hd : m (clear ns x) (fun y => if (mn =? 0) && (endIndex y =? endIndex x) then None
                 else repeatMatcher m ns greedy c1 fuel (pred mn) (option_map pred mx) y)
             = m (clear ns x) (fun y => if (mn =? 0) && (endIndex y =? endIndex x) then None
                 else repeatMatcher m ns greedy c2 fuel (pred mn) (option_map pred mx) y)).
  { apply Hm. intros y w l Sy.
    destruct ((mn =? 0) && (endIndex y =? endIndex x)); [reflexivity |].
    apply IH. intros y' w' l' Sy'.
    eapply Hc. eapply span_trans; [apply span_after_clear, Sy | exact Sy']. }
  destruct (isZero mx); [exact Hx |].
  destruct (negb (mn =? 0)); [exact Hd |].
  destruct greedy; now apply first_eq.
Qed.

Lemma matcher_local i r : local (allowed i r) (groups r) (matcher i r).
Proof.
  induction r as [| a | cs | r1 IH1 r2 IH2 | r1 IH1 r2 IH2
                  | mn mx g r1 IH1 | n r1 IH1 | r1 IH1 |];
    intros x c1 c2 Hc.
  - simpl. apply (Hc x "" []), span_refl.
  - simpl. destruct (rest x) as [|ch s'] eqn:Ex; [reflexivity |].
    destruct (charMatch i a ch) eqn:Ec; [| reflexivity].
    apply (Hc _ (String ch "") []). unfold span; simpl. rewrite Ec.
    repeat split; auto. lia.
  - simpl. destruct (rest x) as [|ch s'] eqn:Ex; [reflexivity |].
    destruct (classMatch i cs ch) eqn:Ec; [| reflexivity].
    apply (Hc _ (String ch "") []). unfold span; simpl. rewrite Ec.
    repeat split; auto. lia.
  - simpl. apply IH1. intros y w l Sy. apply IH2. intros y' w' l' Sy'.
    eapply Hc. eapply span_trans.
    + eapply span_weaken; [| | exact Sy]; simpl.
      * intros ch ->. reflexivity.
      * apply incl_appl, incl_refl.
    + eapply span_weaken; [| | exact Sy']; simpl.
      * intros ch ->. apply orb_true_r.
      * apply incl_appr, incl_refl.
  - simpl. apply first_eq.
    + apply IH1. intros y w l Sy. eapply Hc.
      eapply span_weaken; [| | exact Sy]; simpl.
      * intros ch ->. reflexivity.
      * apply incl_appl, incl_refl.
    + apply IH2. intros y w l Sy. eapply Hc.
      eapply span_weaken; [| | exact Sy]; simpl.
      * intros ch ->. apply orb_true_r.
      * apply incl_appr, incl_refl.
  - change (repeatMatcher (matcher i r1) (groups r1) g c1
              (S (mn + String.length (rest x))) mn mx x
            = repeatMatcher (matcher i r1) (groups r1) g c2
              (S (mn + String.length (rest x))) mn mx x).
    apply (repeat_local _ _ _ IH1). exact Hc.
  - simpl. apply IH1. intros y w l (R & E & A & C & F).
    eapply (Hc _ w (_ :: l)). unfold span; simpl. repeat split; auto.
    + now rewrite C.
    + constructor; [now left |].
      eapply Forall_impl; [| exact F]. intros e He. now right.
  - simpl. destruct (matcher i r1 x Some) as [y|] eqn:E1; [| reflexivity].
    apply matcher_sound in E1 as (y' & w & l & Hy & (R & E & A & C & F)).
    injection Hy as ->.
    apply (Hc _ "" l). unfold span; simpl. repeat split; auto.
  - simpl. destruct (rest x) eqn:Ex; [| reflexivity].
    apply (Hc x "" []), span_refl.
Qed.

(** More fuel than [min + length (rest x)] does not change what a
    quantifier matches: the bound is never used up. *)
Lemma repeat_fuel i r greedy c : forall fuel1 fuel2 mn mx x,
  mn + String.length (rest x) < fuel1 ->
  mn + String.length (rest x) < fuel2 ->
  repeatMatcher (matcher i r) (groups r) greedy c fuel1 mn mx x
  = repeatMatcher (matcher i r) (groups r) greedy c fuel2 mn mx x.
Proof.
  induction fuel1 as [|fuel1 IH]; intros [|fuel2] mn mx x H1 H2; try lia.
  simpl.
  assert (Hd : matcher i r (clear (groups r) x)
                 (fun y => if (mn =? 0) && (endIndex y =? endIndex x) then None
                  else repeatMatcher (matcher i r) (groups r) greedy c fuel1
                         (pred mn) (option_map pred mx) y)
             = matcher i r (clear (groups r) x)
                 (fun y => if (mn =? 0) && (endIndex y =? endIndex x) then None
                  else repeatMatcher (matcher i r) (groups r) greedy c fuel2
                         (pred mn) (option_map pred mx) y)).
  { apply matcher_local. intros y w l (R & E & _). simpl in R, E.
    destruct ((mn =? 0) && (endIndex y =? endIndex x)) eqn:Ec; [reflexivity |].
    assert (L : String.length (rest x) = String.length w + String.length (rest y)).
    { now rewrite R, StrFacts.length_app. }
    assert (pred mn + String.length (rest y) < mn + String.length (rest x)).
    { destruct mn as [|mn]; simpl in *; [| lia].
      apply Nat.eqb_neq in Ec. lia. }
    apply IH; lia. }
  destruct (isZero mx); [reflexivity |].
  destruct (negb (mn =? 0)); [exact Hd |].
  destruct greedy; now apply first_eq.
Qed.

Lemma quantifier_fuel i mn mx greedy r x c fuel :
  mn + String.length (rest x) < fuel ->
  matcher i (Rep mn mx greedy r) x c
  = repeatMatcher (matcher i r) (groups r) greedy c fuel mn mx x.
Proof.
  intros H.
  change (matcher i (Rep mn mx greedy r) x c)
    with (repeatMatcher (matcher i r) (groups r) greedy c
            (S (mn + String.length (rest x))) mn mx x).
  apply repeat_fuel; lia.
Qed.

End FuelFacts.

(** ** A match does not depend on the index it starts at *)

Module ShiftFacts.

Import Pattern Props MatcherFacts ScanFacts FuelFacts.

Lemma local_ext p ns m x c1 c2 :
  local p ns m -> (forall y, c1 y = c2 y) -> m x c1 = m x c2.
Proof. intros Hm H. apply Hm. intros y _ _ _. apply H. Qed.

Lemma matcher_ext i r x c1 c2 :
  (forall y, c1 y = c2 y) -> matcher i r x c1 = matcher i r x c2.
Proof. apply (local_ext _ _ _ _ _ _ (matcher_local i r)). Qed.

Lemma map_first {A B} (f : A -> B) (a b : option A) :
  option_map f (match a with Some z => Some z | None => b end)
  = match option_map f a with Some z => Some z | None => option_map f b end.
Proof. now destruct a. Qed.

Lemma repeat_map (f : state -> state) m ns :
  (forall x c, m x (fun y => option_map f (c y)) = option_map f (m x c)) ->
  (forall x c1 c2, (forall y, c1 y = c2 y) -> m x c1 = m x c2) ->
  forall greedy c fuel mn mx x,
    repeatMatcher m ns greedy (fun y => option_map f (c y)) fuel mn mx x
    = option_map f (repeatMatcher m ns greedy c fuel mn mx x).
Proof.
  intros Hm Hext greedy c fuel.
  induction fuel as [|fuel IH]; intros mn mx x; simpl; [reflexivity |].
  assert (Hd : m (clear ns x) (fun y => if (mn =? 0) && (endIndex y =? endIndex x) then None
                 else repeatMatcher m ns greedy (fun y0 => option_map f (c y0)) fuel
                        (pred mn) (option_map pred mx) y)
             = option_map f (m (clear ns x) (fun y =>
                 if (mn =? 0) && (endIndex y =? endIndex x) then None
                 else repeatMatcher m ns greedy c fuel (pred mn) (option_map pred mx) y))).
  { rewrite <- Hm. apply Hext. intros y.
    destruct ((mn =? 0) && (endIndex y =? endIndex x)); [reflexivity | apply IH]. }
  destruct (isZero mx); [reflexivity |].
  destruct (negb (mn =? 0)); [exact Hd |].
  destruct greedy; rewrite map_first; now rewrite Hd.
Qed.

(** A matcher only asks its continuation for success or failure: what the
    continuation returns can be changed afterwards. *)
Lemma matcher_map (f : state -> state) i r : forall x c,
  matcher i r x (fun y => option_map f (c y)) = option_map f (matcher i r x c).
Proof.
  induction r as [| a | cs | r1 IH1 r2 IH2 | r1 IH1 r2 IH2
                  | mn mx g r1 IH1 | n r1 IH1 | r1 IH1 |]; intros x c.
  - reflexivity.
  - simpl. destruct (rest x) as [|ch s']; [reflexivity |].
    now destruct (charMatch i a ch).
  - simpl. destruct (rest x) as [|ch s']; [reflexivity |].
    now destruct (classMatch i cs ch).
  - simpl. rewrite <- IH1. apply matcher_ext. intros y. apply IH2.
  - simpl. now rewrite map_first, IH1, IH2.
  - change (repeatMatcher (matcher i r1) (groups r1) g (fun y => option_map f (c y))
              (S (mn + String.length (rest x))) mn mx x
            = option_map f (repeatMatcher (matcher i r1) (groups r1) g c
                              (S (mn + String.length (rest x))) mn mx x)).
    apply repeat_map; [exact IH1 |]. intros x0 c1 c2. apply matcher_ext.
  - simpl. now rewrite <- IH1.
  - simpl. now destruct (matcher i r1 x Some).
  - simpl. now destruct (rest x).
Qed.

Lemma shift_clear k ns x : clear ns (shift k x) = shift k (clear ns x).
Proof. reflexivity. Qed.

Lemma repeat_shift k m ns :
  (forall x c, m (shift k x) c = m x (fun y => c (shift k y))) ->
  (forall x c1 c2, (forall y, c1 y = c2 y) -> m x c1 = m x c2) ->
  forall greedy c fuel mn mx x,
    repeatMatcher m ns greedy c fuel mn mx (shift k x)
    = repeatMatcher m ns greedy (fun y => c (shift k y)) fuel mn mx x.
Proof.
  intros Hm Hext greedy c fuel.
  induction fuel as [|fuel IH]; intros mn mx x; simpl; [reflexivity |].
  assert (Hd : m (clear ns (shift k x))
                 (fun y => if (mn =? 0) && (endIndex y =? k + endIndex x) then None
                  else repeatMatcher m ns greedy c fuel (pred mn) (option_map pred mx) y)
             = m (clear ns x)
                 (fun y => if (mn =? 0) && (endIndex y =? endIndex x) then None
                  else repeatMatcher m ns greedy (fun y0 => c (shift k y0)) fuel
                         (pred mn) (option_map pred mx) y)).
  { rewrite shift_clear, Hm. apply Hext. intros y. simpl.
    replace (k + endIndex y =? k + endIndex x) with (endIndex y =? endIndex x).
    - destruct ((mn =? 0) && (endIndex y =? endIndex x)); [reflexivity | apply IH].
    - destruct (endIndex y =? endIndex x) eqn:E; symmetry.
      + apply Nat.eqb_eq in E. apply Nat.eqb_eq. lia.
      + apply Nat.eqb_neq in E. apply Nat.eqb_neq. lia. }
  destruct (isZero mx); [reflexivity |].
  destruct (negb (mn =? 0)); [exact Hd |].
  destruct greedy; now rewrite Hd.
Qed.

(** Matching [k] indices further on gives the same match, [k] indices
    further on. *)
Lemma matcher_shift k i r : forall x c,
  matcher i r (shift k x) c = matcher i r x (fun y => c (shift k y)).
Proof.
  induction r as [| a | cs | r1 IH1 r2 IH2 | r1 IH1 r2 IH2
                  | mn mx g r1 IH1 | n r1 IH1 | r1 IH1 |]; intros x c.
  - reflexivity.
  - simpl. destruct (rest x) as [|ch s']; [reflexivity |].
    destruct (charMatch i a ch); [| reflexivity].
    unfold advance, shift. simpl. now rewrite Nat.add_succ_r.
  - simpl. destruct (rest x) as [|ch s']; [reflexivity |].
    destruct (classMatch i cs ch); [| reflexivity].
    unfold advance, shift. simpl. now rewrite Nat.add_succ_r.
  - simpl. rewrite IH1. apply matcher_ext. intros y. apply IH2.
  - simpl. now rewrite IH1, IH2.
  - change (repeatMatcher (matcher i r1) (groups r1) g c
              (S (mn + String.length (rest x))) mn mx (shift k x)
            = repeatMatcher (matcher i r1) (groups r1) g (fun y => c (shift k y))
              (S (mn + String.length (rest x))) mn mx x).
    apply repeat_shift; [exact IH1 |]. intros x0 c1 c2. apply matcher_ext.
  - simpl. rewrite IH1. apply matcher_ext. intros y. simpl.
    replace (k + endIndex y - (k + endIndex x)) with (endIndex y - endIndex x) by lia.
    reflexivity.
  - simpl. rewrite IH1.
    change (fun y => Some (shift k y)) with (fun y => option_map (shift k) (Some y)).
    rewrite matcher_map. now destruct (matcher i r1 x Some).
  - simpl. now destruct (rest x).
Qed.

(** A match from index [k] on is the match from index 0, moved. *)
Lemma matcher_at k i r s cs :
  matcher i r (mkState k s cs) Some
  = option_map (shift k) (matcher i r (mkState 0 s cs) Some).
Proof.
  rewrite <- (matcher_map (shift k) i r (mkState 0 s cs) Some).
  change (fun y => option_map (shift k) (Some y)) with (fun y => Some (shift k y)).
  rewrite <- matcher_shift. unfold shift. simpl. now rewrite Nat.add_0_r.
Qed.

Lemma scan_shift re k s : forall i,
  scan re (k + i) s = option_map (shiftMatch k) (scan re i s).
Proof.
  induction s as [|h s IH]; intros i; simpl.
  - rewrite (matcher_at (k + i)), (matcher_at i).
    destruct (matcher _ _ (mkState 0 "" []) Some) as [e|]; [| reflexivity].
    simpl. unfold shiftMatch. simpl.
    now replace (k + i + endIndex e - (k + i)) with (i + endIndex e - i) by lia.
  - rewrite (matcher_at (k + i)), (matcher_at i).
    destruct (matcher _ _ (mkState 0 (String h s) []) Some) as [e|].
    + simpl. unfold shiftMatch. simpl.
      now replace (k + i + endIndex e - (k + i)) with (i + endIndex e - i) by lia.
    + simpl. rewrite <- IH. now rewrite Nat.add_succ_r.
Qed.

(** A prefix in which no match starts is passed over. *)
Lemma scan_skip re s : forall pre i,
  (forall p q, pre = (q ++ p)%string -> p <> "" ->
     matcher (ignoreCase re) (source re)
       (mkState (i + String.length q) (p ++ s) []) Some = None) ->
  scan re i (pre ++ s) = scan re (i + String.length pre) s.
Proof.
  induction pre as [|h pre IH]; intros i H; simpl.
  - now rewrite Nat.add_0_r.
  - pose proof (H (String h pre) "" eq_refl) as H0. simpl in H0.
    rewrite Nat.add_0_r in H0. rewrite H0 by discriminate.
    rewrite IH; [now rewrite Nat.add_succ_r |].
    intros p q -> Hp. specialize (H p (String h q) eq_refl Hp).
    simpl in H. now rewrite Nat.add_succ_r in H.
Qed.

End ShiftFacts.

Module CaptureFacts.

Import Pattern Patterns Js Server Props MatcherFacts ScanFacts.

Lemma lookup_skip n l l' :
  Forall (fun e : nat * option string => fst e <> n) l ->
  lookup n (l ++ l') = lookup n l'.
Proof.
  induction 1 as [|[k v] l Hk _ IH]; simpl; [reflexivity |].
  simpl in Hk. destruct (k =? n) eqn:E; [| exact IH].
  apply Nat.eqb_eq in E. contradiction.
Qed.

Lemma not_in_groups n ns :
  existsb (Nat.eqb n) ns = false -> forall k, In k ns -> k <> n.
Proof.
  intros H k Hk ->.
  assert (existsb (Nat.eqb n) ns = true); [| congruence].
  apply existsb_exists. exists n. split; [exact Hk | apply Nat.eqb_refl].
Qed.

(** Where [sets n r] holds, the continuation is only called with group [n]
    defined. *)
Lemma sets_sound i n r :
  sets n r = true ->
  forall x c z, matcher i r x c = Some z ->
    exists y s, c y = Some z /\ lookup n (captures y) = Some s.
Proof.
  induction r as [| a | cs | r1 IH1 r2 IH2 | r1 IH1 r2 IH2
                  | mn mx g r1 IH1 | k r1 IH1 | r1 IH1 |];
    intros Hs; try discriminate; intros x c z H.
  - simpl in Hs. simpl in H. apply orb_true_iff in Hs as [Hs | Hs].
    + apply matcher_sound in H as (y1 & _ & _ & Hy1 & _).
      now apply (IH2 Hs) in Hy1.
    + apply andb_true_iff in Hs as [Hs1 Hs2]. apply negb_true_iff in Hs2.
      apply (IH1 Hs1) in H as (y1 & s & Hy1 & L1).
      apply matcher_sound in Hy1 as (y & w & l & Hy & (_ & _ & _ & C & F)).
      exists y, s. split; [exact Hy |].
      rewrite C, lookup_skip; [exact L1 |].
      eapply Forall_impl; [| exact F]. intros e He.
      now apply (not_in_groups _ _ Hs2).
  - simpl in Hs. apply andb_true_iff in Hs as [Hs1 Hs2]. simpl in H.
    destruct (matcher i r1 x c) eqn:E.
    + injection H as ->. now apply (IH1 Hs1) in E.
    + now apply (IH2 Hs2) in H.
  - simpl in Hs. simpl in H. destruct (k =? n) eqn:E.
    + apply Nat.eqb_eq in E. subst k.
      apply matcher_sound in H as (y & _ & _ & Hy & _).
      eexists _, _. split; [exact Hy |]. simpl. now rewrite Nat.eqb_refl.
    + simpl in Hs. apply (IH1 Hs) in H as (y & s & Hy & L).
      eexists _, s. split; [exact Hy |]. simpl. now rewrite E.
Qed.

Lemma exec_sets re n text mr :
  sets n (source re) = true -> exec re text = Some mr ->
  exists s, group n mr = Some s.
Proof.
  intros Hs H. apply scan_some in H as (k & e & _ & _ & Hm & _ & Hc & _).
  apply (sets_sound _ _ _ Hs) in Hm as (y & s & Hy & L).
  injection Hy as ->. exists s. unfold group. now rewrite Hc.
Qed.

Lemma element_capture re n text mr :
  sets n (source re) = true -> exec re text = Some mr ->
  element n mr = Ok (capture n mr).
Proof.
  intros Hs H. destruct (exec_sets _ _ _ _ Hs H) as [s E].
  unfold element, capture. now rewrite E.
Qed.

(** On a string [extractPersonalInfo] returns, with the three fields of
    [nameOf], [emailOf] and [phoneOf]. *)
Lemma extractPersonalInfo_string nlp text :
  extractPersonalInfo nlp (VString text)
  = Ok (mkInfo (nameOf nlp text) (emailOf text) (phoneOf text)).
Proof.
  unfold extractPersonalInfo, nameOf, emailOf, phoneOf. simpl ensureString.
  cbv beta iota delta [receiver bind].
  destruct (exec nameRegex text) as [nm|] eqn:En.
  - rewrite (element_capture nameRegex 2 text nm eq_refl En).
    destruct (exec emailRegex text) as [em|] eqn:Ee.
    + rewrite (element_capture emailRegex 2 text em eq_refl Ee).
      destruct (exec phoneRegex text); [reflexivity |].
      destruct (exec phoneFallbackRegex text); reflexivity.
    + destruct (exec emailFallbackRegex text);
        (destruct (exec phoneRegex text); [reflexivity |]);
        destruct (exec phoneFallbackRegex text); reflexivity.
  - assert (Hn : exists v, (if truthy (outText nlp "#Person" text)
                then Ok (Str.trim (outText nlp "#Person" text))
                else match filter (fun line => 0 <? String.length line)
                             (map Str.trim (Str.split Char.LF text)) with
                     | line :: _ => Ok line
                     | [] => Ok ""
                     end) = Ok v /\
              v = (if truthy (outText nlp "#Person" text)
                   then Str.trim (outText nlp "#Person" text)
                   else match filter (fun line => 0 <? String.length line)
                             (map Str.trim (Str.split Char.LF text)) with
                        | line :: _ => line
                        | [] => ""
                        end)).
    { destruct (truthy _); [eauto |].
      destruct (filter _ _); eauto. }
    destruct Hn as (v & -> & ->).
    destruct (exec emailRegex text) as [em|] eqn:Ee.
    + rewrite (element_capture emailRegex 2 text em eq_refl Ee).
      destruct (exec phoneRegex text); [reflexivity |].
      destruct (exec phoneFallbackRegex text); reflexivity.
    + destruct (exec emailFallbackRegex text);
        (destruct (exec phoneRegex text); [reflexivity |]);
        destruct (exec phoneFallbackRegex text); reflexivity.
Qed.

End CaptureFacts.

Module LabelFacts.

Import Pattern Patterns Js Server Props MatcherFacts ScanFacts CaptureFacts.

Lemma labelled_lead i label core x c :
  matcher i (labelled label core) x c
  = matcher i (lead label) x (fun y => matcher i core y c).
Proof. reflexivity. Qed.

(** Where the value matches, the labelled pattern matches too: each part
    before the value may match nothing. *)
Lemma labelled_skip i label core x c :
  matcher i core x c <> None -> matcher i (labelled label core) x c <> None.
Proof.
  intros H.
  change (matcher i (Opt (Grp 1 label)) x (fun y1 =>
          matcher i (Star ws) y1 (fun y2 =>
          matcher i (Opt sep) y2 (fun y3 =>
          matcher i (Star ws) y3 (fun y4 => matcher i core y4 c)))) <> None).
  apply skip_optional, skip_optional, skip_optional, skip_optional, H.
Qed.

(** Where the labelled pattern matches, the value matches at a place
    ahead. *)
Lemma labelled_sound i label core x c z :
  matcher i (labelled label core) x c = Some z ->
  exists y w l,
    matcher i core y c = Some z
    /\ span (allowed i (lead label)) (groups (lead label)) w l x y.
Proof.
  intros H. rewrite labelled_lead in H.
  now apply matcher_sound in H.
Qed.

(** The labelled pattern occurs in a text exactly when the bare value
    pattern does. *)
Lemma labelled_occurs label core core' text :
  similar core core' ->
  (occurs (mkRegExp (labelled label core) true) text
   <-> occurs (mkRegExp core' true) text).
Proof.
  intros Hs. unfold occurs, exec. split; intros H Hn; apply H; clear H.
  - apply scan_none. intros k Hk.
    destruct (matcher _ _ _ _) as [z|] eqn:E; [| reflexivity]. exfalso.
    simpl ignoreCase in E. simpl source in E.
    apply labelled_sound in E as (y & w & l & Hy & (R & Ei & _)).
    simpl in R, Ei.
    destruct (drop_split _ _ _ _ R Hk) as [D Hle].
    pose proof (proj1 (scan_none _ _ 0) Hn _ Hle) as N.
    simpl in N.
    apply (similar_none true core core' y) in N.
    + congruence.
    + exact Hs.
    + split; simpl; congruence.
  - apply scan_none. intros k Hk.
    destruct (matcher _ _ _ _) as [z|] eqn:E; [| reflexivity]. exfalso.
    simpl ignoreCase in E. simpl source in E.
    pose proof (proj1 (scan_none _ _ 0) Hn _ Hk) as N.
    simpl ignoreCase in N. simpl source in N.
    revert N. apply labelled_skip.
    intros N. apply (similar_none true core core' _ (start (0 + k) (Str.drop k text))) in N.
    + congruence.
    + exact Hs.
    + apply samePlace_refl.
Qed.

Lemma phone_occurs text :
  occurs phoneRegex text <-> occurs phoneFallbackRegex text.
Proof.
  apply (labelled_occurs phoneLabel (phoneNumber 2) (phoneNumber 1)).
  simpl. tauto.
Qed.

Lemma email_occurs text :
  occurs emailRegex text <-> occurs emailFallbackRegex text.
Proof.
  apply (labelled_occurs (alts (Lit "Email") [Lit "EMAIL"]) (address 2) (address 1)).
  simpl. tauto.
Qed.

Lemma not_occurs re text : ~ occurs re text <-> exec re text = None.
Proof.
  unfold occurs. destruct (exec re text); split; intros H; try congruence.
  exfalso. apply H. discriminate.
Qed.

End LabelFacts.

Module LiteralFacts.

Import Pattern Patterns Js Server Props MatcherFacts ScanFacts CaptureFacts LabelFacts.

Lemma state_eta x : mkState (endIndex x) (rest x) (captures x) = x.
Proof. now destruct x. Qed.

(** A literal is matched by stripping it from the input. *)
Lemma matcher_lit i a : forall x c,
  matcher i (Lit a) x c
  = match stripPrefix i a (rest x) with
    | Some s' => c (mkState (endIndex x + String.length a) s' (captures x))
    | None => None
    end.
Proof.
  induction a as [|ca a IH]; intros x c; simpl.
  - now rewrite Nat.add_0_r, state_eta.
  - destruct (rest x) as [|ch s']; [reflexivity |].
    destruct (charMatch i ca ch); [| reflexivity].
    rewrite IH. simpl. now rewrite Nat.add_succ_r.
Qed.

Lemma stripPrefix_split i a : forall s s',
  stripPrefix i a s = Some s' ->
  exists w, s = (w ++ s')%string /\ String.length w = String.length a.
Proof.
  induction a as [|ca a IH]; intros s s' H; simpl in H.
  - injection H as ->. now exists "".
  - destruct s as [|ch s]; [discriminate |].
    destruct (charMatch i ca ch); [| discriminate].
    apply IH in H as (w & -> & Hw). exists (String ch w). simpl. now rewrite Hw.
Qed.

Lemma stripPrefix_app i a : forall s s' t,
  stripPrefix i a s = Some s' -> stripPrefix i a (s ++ t) = Some (s' ++ t)%string.
Proof.
  induction a as [|ca a IH]; intros s s' t H; simpl in *.
  - now injection H as ->.
  - destruct s as [|ch s]; [discriminate |]. simpl.
    destruct (charMatch i ca ch); [| discriminate]. now apply IH.
Qed.

Lemma stripPrefix_cut i a : forall w s',
  stripPrefix i a (w ++ s') = Some s' -> String.length w = String.length a ->
  stripPrefix i a w = Some "".
Proof.
  induction a as [|ca a IH]; intros w s' H Hw; simpl in *.
  - destruct w; [reflexivity | discriminate].
  - destruct w as [|ch w]; [discriminate |]. simpl in *.
    destruct (charMatch i ca ch); [| discriminate].
    apply (IH w s'); [exact H | lia].
Qed.

Lemma charMatch_join i a b ch :
  charMatch i a ch = true -> charMatch i b ch = true -> charMatch i a b = true.
Proof.
  unfold charMatch. intros Ha Hb.
  apply Ascii.eqb_eq in Ha, Hb. apply Ascii.eqb_eq. congruence.
Qed.

(** Two literals that start the same input: the shorter starts the longer
    and leaves more of the input. *)
Lemma stripPrefix_two i a : forall b s sa sb,
  stripPrefix i a s = Some sa -> stripPrefix i b s = Some sb ->
  String.length a <= String.length b ->
  isPrefix i a b = true /\ exists v, sa = (v ++ sb)%string.
Proof.
  unfold isPrefix.
  induction a as [|ca a IH]; intros b s sa sb Ha Hb Hl; simpl in *.
  - injection Ha as ->. split; [reflexivity |].
    apply stripPrefix_split in Hb as (w & -> & _). now exists w.
  - destruct b as [|cb b]; simpl in *; [lia |].
    destruct s as [|ch s]; [discriminate |].
    destruct (charMatch i ca ch) eqn:Ea; [| discriminate].
    destruct (charMatch i cb ch) eqn:Eb; [| discriminate].
    rewrite (charMatch_join _ _ _ _ Ea Eb).
    apply (IH b s sa sb); auto. lia.
Qed.

Lemma firstLabel_longest i As : forall s A t B sB,
  ordered i As = true -> In A As -> stripPrefix i A s = Some t ->
  firstLabel i As s = Some (B, sB) -> exists v, t = (v ++ sB)%string.
Proof.
  induction As as [|C Cs IH]; intros s A t B sB Ho Hin Ht Hf; [contradiction |].
  simpl in Ho. apply andb_true_iff in Ho as [Hc Ho].
  simpl in Hf. destruct (stripPrefix i C s) as [sC|] eqn:EC.
  - injection Hf as <- <-. destruct Hin as [<- | Hin].
    + exists "". simpl. congruence.
    + rewrite forallb_forall in Hc. specialize (Hc A Hin).
      destruct (String.length A <=? String.length C) eqn:El.
      * apply Nat.leb_le in El.
        now destruct (stripPrefix_two _ _ _ _ _ _ Ht EC El) as [_ Hv].
      * apply Nat.leb_gt in El. rewrite orb_false_r in Hc.
        destruct (stripPrefix_two i C A s sC t EC Ht) as [Hp _]; [lia |].
        rewrite Hp in Hc. discriminate.
  - destruct Hin as [<- | Hin]; [congruence |].
    now apply (IH s A t B sB).
Qed.

Lemma firstLabel_some i As : forall s A t,
  In A As -> stripPrefix i A s = Some t -> firstLabel i As s <> None.
Proof.
  induction As as [|C Cs IH]; intros s A t Hin Ht; [contradiction |].
  simpl. destruct (stripPrefix i C s) eqn:EC; [discriminate |].
  destruct Hin as [<- | Hin]; [congruence |]. now apply (IH s A t).
Qed.

(** An alternation of literals under a continuation that always accepts
    takes the first literal that starts the input. *)
Lemma matcher_alts_total i As : forall A x c,
  (forall y, c y <> None) ->
  matcher i (altsLit A As) x c
  = match firstLabel i (A :: As) (rest x) with
    | Some (B, s') => c (mkState (endIndex x + String.length B) s' (captures x))
    | None => None
    end.
Proof.
  unfold altsLit.
  induction As as [|A' As IH]; intros A x c Hc.
  - simpl alts. rewrite matcher_lit. simpl.
    destruct (stripPrefix i A (rest x)); reflexivity.
  - change (matcher i (alts (Lit A) (map Lit (A' :: As))) x c)
      with (match matcher i (Lit A) x c with
            | Some z => Some z
            | None => matcher i (alts (Lit A') (map Lit As)) x c
            end).
    rewrite matcher_lit, IH by exact Hc.
    change (firstLabel i (A :: A' :: As) (rest x))
      with (match stripPrefix i A (rest x) with
            | Some s' => Some (A, s')
            | None => firstLabel i (A' :: As) (rest x)
            end).
    destruct (stripPrefix i A (rest x)) as [s'|]; [| reflexivity].
    destruct (c _) eqn:E; [reflexivity |]. now apply Hc in E.
Qed.

(** A match of an alternation of literals stripped one of them. *)
Lemma matcher_alts_sound i As : forall A x c z,
  matcher i (altsLit A As) x c = Some z ->
  exists B s', In B (A :: As) /\ stripPrefix i B (rest x) = Some s'
    /\ c (mkState (endIndex x + String.length B) s' (captures x)) = Some z.
Proof.
  unfold altsLit.
  induction As as [|A' As IH]; intros A x c z H.
  - simpl alts in H. rewrite matcher_lit in H.
    destruct (stripPrefix i A (rest x)) as [s'|] eqn:E; [| discriminate].
    exists A, s'. repeat split; auto. now left.
  - change (matcher i (alts (Lit A) (map Lit (A' :: As))) x c)
      with (match matcher i (Lit A) x c with
            | Some z => Some z
            | None => matcher i (alts (Lit A') (map Lit As)) x c
            end) in H.
    destruct (matcher i (Lit A) x c) eqn:E.
    + injection H as ->. rewrite matcher_lit in E.
      destruct (stripPrefix i A (rest x)) as [s'|] eqn:E'; [| discriminate].
      exists A, s'. repeat split; auto. now left.
    + apply IH in H as (B & s' & Hin & Hs & Hc).
      exists B, s'. repeat split; auto. now right.
Qed.

(** A match of an optional part passed it by or went through it once. *)
Lemma matcher_opt i r x c z :
  matcher i (Opt r) x c = Some z ->
  c x = Some z
  \/ exists d, (forall y z', d y = Some z' -> c y = Some z')
               /\ matcher i r (clear (groups r) x) d = Some z.
Proof.
  unfold Opt. simpl. intros H.
  destruct (matcher i r (clear (groups r) x) _) eqn:E.
  - injection H as ->. right. eexists. split; [| exact E].
    intros y z' Hd. simpl in Hd.
    destruct (endIndex y =? endIndex x); [discriminate |].
    destruct (String.length (rest x)); simpl in Hd; [discriminate | exact Hd].
  - now left.
Qed.

End LiteralFacts.

Module PhoneFacts.

Import Pattern Patterns Js Server Props CharFacts MatcherFacts ScanFacts CaptureFacts
  LabelFacts LiteralFacts.

Lemma all_take p n (s : string) : Str.all p s = true -> Str.all p (Str.take n s) = true.
Proof.
  unfold Str.take. revert s. induction n as [|n IH]; intros [|h s]; simpl; auto.
  intros H. apply andb_true_iff in H as [Hh Hs]. now rewrite Hh, IH.
Qed.

Lemma all_remove p re (s : string) :
  Str.all p s = true -> Str.all p (remove re s) = true.
Proof.
  intros H. unfold remove. destruct (exec re s); [| exact H].
  rewrite StrFacts.all_app, all_take, StrFacts.all_drop; auto.
Qed.

(** The match array of a pattern: element 0 is the input the matcher went
    over. *)
Lemma exec_whole re text mr :
  exec re text = Some mr ->
  exists k e w l,
    k <= String.length text /\ index mr = k /\ whole mr = w /\ caps mr = captures e
    /\ matcher (ignoreCase re) (source re) (start k (Str.drop k text)) Some = Some e
    /\ span (allowed (ignoreCase re) (source re)) (groups (source re)) w l
            (start k (Str.drop k text)) e.
Proof.
  intros H. apply scan_some in H as (k & e & Hk & Hi & Hm & Hw & Hc & _).
  simpl in Hi, Hm, Hw.
  pose proof (matcher_sound _ _ _ _ _ Hm) as (y & w & l & Hy & Sy).
  injection Hy as ->. exists k, e, w, l.
  split; [exact Hk |]. split; [exact Hi |]. split; [| split; [exact Hc | split; [exact Hm | exact Sy]]].
  destruct Sy as (R & E & _). simpl in R, E.
  rewrite Hw, R, E. replace (k + String.length w - k) with (String.length w) by lia.
  apply StrFacts.take_app.
Qed.

Lemma exec_here re s e :
  matcher (ignoreCase re) (source re) (start 0 s) Some = Some e ->
  exec re s = Some (mkMatch 0 (Str.take (endIndex e - 0) s) (captures e)).
Proof.
  intros H. unfold exec, start in *. destruct s; simpl; now rewrite H.
Qed.

Lemma remove_here re s e w :
  matcher (ignoreCase re) (source re) (start 0 s) Some = Some e ->
  s = (w ++ rest e)%string -> endIndex e = String.length w ->
  remove re s = rest e.
Proof.
  intros H Hs He. unfold remove. rewrite (exec_here _ _ _ H). simpl.
  rewrite StrFacts.take_0, He, Nat.sub_0_r. simpl.
  rewrite Hs at 1 2. now rewrite StrFacts.take_app, StrFacts.drop_app.
Qed.

Lemma phone_tail_chars c :
  allowed true (cat [Star ws; Opt sep; Star ws; phoneNumber 2]) c = true ->
  phoneChar c = true.
Proof.
  assert (H : forall c, implb (allowed true (cat [Star ws; Opt sep; Star ws; phoneNumber 2]) c)
                          (phoneChar c) = true).
  { apply ascii_forall. vm_compute. reflexivity. }
  intros Hc. specialize (H c). rewrite Hc in H. exact H.
Qed.

Lemma all_app_r p (a b : string) : Str.all p (a ++ b) = true -> Str.all p b = true.
Proof. rewrite StrFacts.all_app. intros H. now apply andb_true_iff in H. Qed.

(** The label cut out of a labelled phone match: what is left lies inside
    the part after the label. *)
Lemma remove_label w1 w2 B :
  In B phoneLabels -> stripPrefix true B (w1 ++ w2) = Some w2 ->
  exists v, w2 = (v ++ remove phoneLabelRegex (w1 ++ w2))%string.
Proof.
  intros Hin Hs.
  set (m0 := (w1 ++ w2)%string) in *.
  set (after := fun y : state => matcher true (cat [Opt sep; Star ws]) y Some).
  assert (Ht : forall y, after y <> None).
  { intros y. unfold after.
    change (matcher true (Opt sep) y (fun y1 => matcher true (Star ws) y1 Some) <> None).
    apply skip_optional, skip_optional. discriminate. }
  assert (Hm : matcher true (source phoneLabelRegex) (start 0 m0) Some
               = match firstLabel true phoneLabels m0 with
                 | Some (B', s') =>
                     after (mkState (0 + String.length B') s'
                              ((1, Some (Str.take (0 + String.length B' - 0) m0)) :: []))
                 | None => None
                 end).
  { change (matcher true (source phoneLabelRegex) (start 0 m0) Some)
      with (matcher true (altsLit "Phone Number" (tl phoneLabels)) (start 0 m0)
              (fun y => after (mkState (endIndex y) (rest y)
                 ((1, Some (Str.take (endIndex y - 0) m0)) :: captures y)))).
    rewrite matcher_alts_total; [reflexivity |].
    intros y. apply Ht. }
  destruct (firstLabel true phoneLabels m0) as [[B' s']|] eqn:Ef.
  2:{ exfalso. now apply (firstLabel_some true phoneLabels m0 B w2 Hin Hs). }
  destruct (firstLabel_longest true phoneLabels m0 B w2 B' s' eq_refl Hin Hs Ef) as [v Hv].
  destruct (after _) as [e|] eqn:Ea in Hm; [| now apply Ht in Ea].
  pose proof (matcher_sound _ _ _ _ _ Ea) as (y & w & l & Hy & (R & E & _)).
  injection Hy as ->. simpl in R, E.
  assert (Hb : exists wB, m0 = (wB ++ s')%string /\ String.length wB = String.length B').
  { clear - Ef. revert Ef. generalize phoneLabels.
    induction l as [|C Cs IH]; simpl; [discriminate |].
    destruct (stripPrefix true C m0) eqn:EC.
    - intros H. injection H as <- <-. now apply stripPrefix_split in EC.
    - exact IH. }
  destruct Hb as (wB & HwB & Hl).
  rewrite (remove_here phoneLabelRegex m0 e (wB ++ w) Hm).
  - exists (v ++ w)%string. now rewrite Hv, R, StrFacts.app_assoc.
  - now rewrite HwB, R, StrFacts.app_assoc.
  - rewrite E, StrFacts.length_app. lia.
Qed.

Lemma lookup_outside n ns l l' :
  Forall (fun e : nat * option string => In (fst e) ns) l ->
  existsb (Nat.eqb n) ns = false ->
  lookup n (l ++ l') = lookup n l'.
Proof.
  intros F H. apply lookup_skip.
  eapply Forall_impl; [| exact F]. intros e He.
  now apply (not_in_groups _ _ H).
Qed.

(** The shape of a match of the phone pattern: a label, found in group 1,
    or nothing, and then characters of a phone number only. *)
Lemma phone_match_shape text pm :
  exec phoneRegex text = Some pm ->
  exists w1 w2,
    whole pm = (w1 ++ w2)%string
    /\ Str.all phoneChar w2 = true
    /\ ((w1 = "" /\ group 1 pm = None)
        \/ (group 1 pm = Some w1
            /\ exists B, In B phoneLabels /\ stripPrefix true B (w1 ++ w2) = Some w2)).
Proof.
  intros E.
  apply exec_whole in E as (k & e & w & l & Hk & _ & Hw & Hcaps & Hm & Sw).
  unfold group. rewrite Hw, Hcaps. clear Hw Hcaps pm.
  destruct Sw as (Rw & Ew & _). simpl in Rw, Ew.
  set (x := start k (Str.drop k text)) in *.
  set (tail := cat [Star ws; Opt sep; Star ws; phoneNumber 2]).
  change (matcher true (Opt (Grp 1 phoneLabel)) x
            (fun y => matcher true tail y Some) = Some e) in Hm.
  apply matcher_opt in Hm as [Hm | (d & Hd & Hm)].
  - apply matcher_sound in Hm as (y & w2 & l2 & Hy & (R2 & E2 & A2 & C2 & F2)).
    injection Hy as ->. unfold x in R2, E2, C2. simpl in R2, E2, C2.
    assert (w = w2).
    { rewrite <- (StrFacts.take_app w (rest e)), <- (StrFacts.take_app w2 (rest e)).
      rewrite <- Rw, <- R2.
      replace (String.length w) with (String.length w2) by lia. reflexivity. }
    subst w2. exists "", w. split; [reflexivity |]. split.
    + eapply StrFacts.all_mono; [| exact A2]. apply phone_tail_chars.
    + left. split; [reflexivity |].
      rewrite C2. now rewrite (lookup_outside 1 _ _ _ F2 eq_refl).
  - change (matcher true (altsLit "Phone Number" (tl phoneLabels))
              (clear (groups (Grp 1 phoneLabel)) x)
              (fun y => d (mkState (endIndex y) (rest y)
                 ((1, Some (Str.take (endIndex y - endIndex (clear (groups (Grp 1 phoneLabel)) x))
                              (rest (clear (groups (Grp 1 phoneLabel)) x)))) :: captures y)))
            = Some e) in Hm.
    apply matcher_alts_sound in Hm as (B & s' & Hin & Hs & Hc).
    apply Hd in Hc.
    apply matcher_sound in Hc as (y & w2 & l2 & Hy & (R2 & E2 & A2 & C2 & F2)).
    injection Hy as ->. unfold x in R2, E2, C2, Hs. simpl in R2, E2, C2, Hs.
    destruct (stripPrefix_split _ _ _ _ Hs) as (w1 & H1 & L1).
    assert (w = (w1 ++ w2)%string).
    { rewrite <- (StrFacts.take_app w (rest e)),
              <- (StrFacts.take_app (w1 ++ w2) (rest e)).
      rewrite <- Rw, StrFacts.app_assoc, <- R2, <- H1.
      replace (String.length w) with (String.length (w1 ++ w2)); [reflexivity |].
      rewrite StrFacts.length_app. lia. }
    subst w. exists w1, w2. split; [reflexivity |]. split.
    + eapply StrFacts.all_mono; [| exact A2]. apply phone_tail_chars.
    + right. split.
      * rewrite C2, (lookup_outside 1 _ _ _ F2 eq_refl). simpl.
        replace (k + String.length B - k) with (String.length w1) by lia.
        now rewrite H1, StrFacts.take_app.
      * exists B. split; [exact Hin |].
        rewrite H1, R2 in Hs.
        pose proof (stripPrefix_cut true B w1 _ Hs L1) as Hcut.
        apply (stripPrefix_app _ _ _ _ w2) in Hcut. exact Hcut.
Qed.

(** Every character of the phone field is a digit, white space or one of
    [+ - . ( ) :]. *)
Lemma phoneOf_chars text : Str.all phoneChar (phoneOf text) = true.
Proof.
  unfold phoneOf. destruct (exec phoneRegex text) as [pm|] eqn:E.
  - apply StrFacts.all_trim.
    apply phone_match_shape in E as (w1 & w2 & -> & A2 & [[-> _] | (_ & B & Hin & Hs)]).
    + now apply all_remove.
    + destruct (remove_label w1 w2 B Hin Hs) as [v Hv].
      rewrite Hv in A2. now apply all_app_r in A2.
  - destruct (exec phoneFallbackRegex text) eqn:F; [| reflexivity].
    exfalso. apply not_occurs in E. apply E, phone_occurs.
    unfold occurs. congruence.
Qed.

(** Where a label was matched, the phone field is what is left of the
    match behind the label, trimmed. *)
Lemma phoneOf_behind_label text pm L :
  exec phoneRegex text = Some pm -> group 1 pm = Some L ->
  exists v, whole pm = (L ++ v ++ remove phoneLabelRegex (whole pm))%string
            /\ phoneOf text = Str.trim (remove phoneLabelRegex (whole pm)).
Proof.
  intros E G. unfold phoneOf. rewrite E.
  apply phone_match_shape in E as (w1 & w2 & Hw & A2 & [[-> G'] | (G' & B & Hin & Hs)]).
  - congruence.
  - assert (w1 = L) by congruence. subst w1.
    destruct (remove_label L w2 B Hin Hs) as [v Hv].
    exists v. split; [| reflexivity]. rewrite Hw. now rewrite <- Hv.
Qed.

End PhoneFacts.

(** ** Matches behind a prefix of the text *)

Module PrefixFacts.

Import Pattern Patterns Js Server Props CharFacts MatcherFacts ScanFacts FuelFacts
  ShiftFacts CaptureFacts LabelFacts LiteralFacts PhoneFacts.

Lemma ascii_impl (p q : ascii -> bool) :
  forallb (fun c => implb (p c) (q c)) allAscii = true ->
  forall c, p c = true -> q c = true.
Proof.
  intros H c Hp. pose proof (ascii_forall _ H c) as E. simpl in E.
  now rewrite Hp in E.
Qed.

(** *** Strings cut at the first character of a kind *)

Lemma app_align (P : ascii -> bool) : forall p w c s d t,
  Str.all (fun a => negb (P a)) p = true ->
  Str.all (fun a => negb (P a)) w = true ->
  P c = true -> P d = true ->
  (p ++ String c s = w ++ String d t)%string ->
  p = w /\ String c s = String d t.
Proof.
  induction p as [|a p IH]; intros [|b w] c s d t Hp Hw Hc Hd E; simpl in *.
  - split; [reflexivity | exact E].
  - injection E as -> _. apply andb_true_iff in Hw as [Hb _].
    rewrite Hc in Hb. discriminate.
  - injection E as -> _. apply andb_true_iff in Hp as [Ha _].
    rewrite Hd in Ha. discriminate.
  - injection E as -> E.
    apply andb_true_iff in Hp as [_ Hp]. apply andb_true_iff in Hw as [_ Hw].
    destruct (IH w c s d t Hp Hw Hc Hd E) as [-> E']. split; [reflexivity | exact E'].
Qed.

Lemma app_inv_head (p s t : string) : (p ++ s = p ++ t)%string -> s = t.
Proof. induction p as [|a p IH]; simpl; intros E; [exact E | injection E; auto]. Qed.

Lemma endsOutside_tail P c s : endsOutside P (String c s) = true -> endsOutside P s = true.
Proof. destruct s; [reflexivity | intros H; exact H]. Qed.

Lemma endsOutside_drop P k : forall s,
  endsOutside P s = true -> endsOutside P (Str.drop k s) = true.
Proof.
  induction k as [|k IH]; intros [|c s] H; simpl; auto.
  apply IH. now apply (endsOutside_tail P c).
Qed.

Lemma all_not_outside P s :
  s <> "" -> Str.all P s = true -> endsOutside P s = false.
Proof.
  induction s as [|c s IH]; intros Hs H; [contradiction |].
  simpl in H. apply andb_true_iff in H as [Hc H].
  destruct s as [|d s]; simpl; [now rewrite Hc |].
  apply IH; [discriminate | exact H].
Qed.

(** A string ahead of the fixed text [J]: the part in [L] and then the part
    in [P] meet where [J] starts, when [p] does not end in [P] and [J]
    does not start in [L]. *)
Lemma app_meet (L P : ascii -> bool) j J : forall p w wl,
  (w ++ wl = p ++ String j J)%string ->
  Str.all L w = true -> Str.all P wl = true ->
  endsOutside P p = true -> L j = false ->
  w = p /\ wl = String j J.
Proof.
  induction p as [|a p IH]; intros w wl E Hw Hwl Hp Hj.
  - destruct w as [|b w]; simpl in E, Hw; [split; [reflexivity | exact E] |].
    injection E as -> _. apply andb_true_iff in Hw as [Hb _]. congruence.
  - destruct w as [|b w]; simpl in E, Hw.
    + exfalso. subst wl.
      assert (A : Str.all P (String a p) = true).
      { change (Str.all P (String a p ++ String j J)%string = true) in Hwl.
        rewrite StrFacts.all_app in Hwl. now apply andb_true_iff in Hwl. }
      rewrite (all_not_outside P (String a p)) in Hp; [discriminate | discriminate | exact A].
    + injection E as -> E. apply andb_true_iff in Hw as [_ Hw].
      destruct (IH w wl E Hw Hwl (endsOutside_tail _ _ _ Hp) Hj) as [-> ->].
      split; reflexivity.
Qed.

Lemma drop_app_le k : forall (p s : string),
  k <= String.length p -> Str.drop k (p ++ s) = (Str.drop k p ++ s)%string.
Proof.
  induction k as [|k IH]; intros [|a p] s H; simpl in *; try reflexivity; try lia.
  apply IH. lia.
Qed.

Lemma drop_cut k : forall (p : string),
  k <= String.length p ->
  exists q, p = (q ++ Str.drop k p)%string /\ String.length q = k.
Proof.
  induction k as [|k IH]; intros p H.
  - exists "". split; [now destruct p | reflexivity].
  - destruct p as [|a p]; simpl in *; [lia |].
    destruct (IH p) as (q & Hq & Hl); [lia |].
    exists (String a q). simpl. split; [now rewrite <- Hq | now rewrite Hl].
Qed.

(** *** Parts of a match *)

Lemma seq_sound i r1 r2 x c z :
  matcher i (Seq r1 r2) x c = Some z ->
  exists y w l, span (allowed i r1) (groups r1) w l x y /\ matcher i r2 y c = Some z.
Proof.
  simpl. intros H. apply matcher_sound in H as (y & w & l & Hy & Sy).
  now exists y, w, l.
Qed.

Lemma chr_sound i a x c z :
  matcher i (Chr a) x c = Some z ->
  exists ch s', rest x = String ch s' /\ charMatch i a ch = true.
Proof.
  simpl. intros H. destruct (rest x) as [|ch s']; [discriminate |].
  destruct (charMatch i a ch) eqn:E; [| discriminate]. now exists ch, s'.
Qed.

Lemma cls_sound i cs x c z :
  matcher i (Cls cs) x c = Some z ->
  exists ch s', rest x = String ch s' /\ classMatch i cs ch = true.
Proof.
  simpl. intros H. destruct (rest x) as [|ch s']; [discriminate |].
  destruct (classMatch i cs ch) eqn:E; [| discriminate]. now exists ch, s'.
Qed.

(** A scan that finds a match at index [k] found none before and finds it
    at or before any index where the pattern matches. *)
Lemma scan_before re text mr j :
  exec re text = Some mr -> j <= String.length text ->
  matcher (ignoreCase re) (source re) (start j (Str.drop j text)) Some <> None ->
  index mr <= j.
Proof.
  intros H Hj Hm. apply scan_some in H as (k & e & _ & Hi & _ & _ & _ & Hn).
  simpl in Hi. rewrite Hi. destruct (Nat.le_gt_cases k j) as [Hle | Hgt]; [exact Hle |].
  exfalso. apply Hm. apply (Hn j Hgt).
Qed.

(** *** The name behind a prefix without letters *)

Lemma name_words_fail n cs tail :
  matcher true (nameWords 2) (mkState n (nameLine ++ tail) cs) Some = None.
Proof. rewrite matcher_at. vm_compute. reflexivity. Qed.

Lemma exec_name_labelled tail :
  endsName tail = true ->
  exec nameRegex (nameLine ++ tail)
  = Some (mkMatch 0 nameLine [(2, Some "Jane Doe"); (1, Some "Name"); (1, None)]).
Proof.
  intros H.
  destruct tail as [|c [|d t]].
  - vm_compute. reflexivity.
  - each_char c; vm_compute in H; try discriminate; vm_compute; reflexivity.
  - unfold endsName in H.
    destruct (Char.isLetter c) eqn:Lc; [discriminate |].
    destruct (Char.isWhiteSpace c) eqn:Wc.
    + apply andb_true_iff in H as [Ld Wd].
      each_char c; vm_compute in Wc; try discriminate;
        each_char d; vm_compute in Ld; vm_compute in Wd; try discriminate;
        vm_compute; reflexivity.
    + each_char c; vm_compute in Lc; vm_compute in Wc; try discriminate;
        vm_compute; reflexivity.
Qed.

(** No match of the name pattern starts in a stretch without letters in
    front of the labelled line. *)
Lemma name_no_early_match p tail i :
  p <> "" -> Str.all (fun a => negb (Char.isLetter a)) p = true ->
  matcher true (source nameRegex) (mkState i (p ++ nameLine ++ tail) []) Some = None.
Proof.
  intros Hp Hl.
  destruct (matcher _ _ _ _) as [e|] eqn:E; [exfalso | reflexivity].
  set (x := mkState i (p ++ nameLine ++ tail)%string []) in *.
  change (matcher true (Opt (Grp 1 (altsLit "Name" ["NAME"]))) x
            (fun y => matcher true (cat [Star ws; Opt sep; Star ws]) y
                        (fun y' => matcher true (nameWords 2) y' Some)) = Some e) in E.
  apply matcher_opt in E as [E | (d & Hd & E)].
  - apply matcher_sound in E as (y & w & l & Hy & (R & _ & A & _)).
    unfold x in R. simpl in R.
    pose proof Hy as Hy'.
    change (matcher true (Cls [CRange "A" "Z"]) y
              (fun y1 => matcher true (cat [Plus lower; Plus (cat [Plus ws; upper; Plus lower])])
                           y1 (fun y2 => Some (mkState (endIndex y2) (rest y2)
                                 ((2, Some (Str.take (endIndex y2 - endIndex y) (rest y)))
                                    :: captures y2)))) = Some e) in Hy'.
    apply cls_sound in Hy' as (ch & s' & Ey & Hc).
    rewrite Ey in R.
    assert (Hch : Char.isLetter ch = true).
    { revert Hc. apply (ascii_impl (classMatch true [CRange "A" "Z"]) Char.isLetter).
      vm_compute. reflexivity. }
    assert (Aw : Str.all (fun a => negb (Char.isLetter a)) w = true).
    { eapply StrFacts.all_mono; [| exact A].
      apply (ascii_impl (allowed true (cat [Star ws; Opt sep; Star ws]))
               (fun a => negb (Char.isLetter a))).
      vm_compute. reflexivity. }
    destruct (app_align Char.isLetter p w "N" ("ame: Jane Doe" ++ tail)%string ch s'
                Hl Aw eq_refl Hch R) as [_ Es].
    destruct y as [n r cs]. simpl in Ey. subst r.
    rewrite <- Es in Hy.
    change (String "N" ("ame: Jane Doe" ++ tail))%string with (nameLine ++ tail)%string in Hy.
    rewrite name_words_fail in Hy. discriminate.
  - change (matcher true (altsLit "Name" ["NAME"])
              (clear (groups (Grp 1 (altsLit "Name" ["NAME"]))) x)
              (fun y => d (mkState (endIndex y) (rest y)
                 ((1, Some (Str.take
                     (endIndex y - endIndex (clear (groups (Grp 1 (altsLit "Name" ["NAME"]))) x))
                     (rest (clear (groups (Grp 1 (altsLit "Name" ["NAME"]))) x))))
                    :: captures y))) = Some e) in E.
    apply matcher_alts_sound in E as (B & s' & Hin & Hs & _).
    unfold x in Hs. simpl in Hs.
    destruct p as [|a p]; [contradiction |].
    simpl in Hl. apply andb_true_iff in Hl as [Ha _].
    assert (Hn : charMatch true "N" a = true).
    { destruct Hin as [<- | [<- | []]]; simpl in Hs;
        destruct (charMatch true "N" a); congruence. }
    assert (Char.isLetter a = true).
    { revert Hn. apply (ascii_impl (charMatch true "N") Char.isLetter).
      vm_compute. reflexivity. }
    rewrite H in Ha. discriminate.
Qed.

(** Behind a prefix in which no match starts, the first match is the one
    of the rest of the text. *)
Lemma exec_behind re pre s :
  (forall p q, pre = (q ++ p)%string -> p <> "" ->
     matcher (ignoreCase re) (source re)
       (mkState (String.length q) (p ++ s) []) Some = None) ->
  exec re (pre ++ s) = option_map (shiftMatch (String.length pre)) (exec re s).
Proof.
  intros H. unfold exec.
  rewrite <- scan_shift, Nat.add_0_r.
  apply (scan_skip re s pre 0). exact H.
Qed.

Lemma exec_name_behind pre tail :
  Str.all (fun a => negb (Char.isLetter a)) pre = true ->
  endsName tail = true ->
  exec nameRegex (pre ++ nameLine ++ tail)
  = Some (shiftMatch (String.length pre)
            (mkMatch 0 nameLine [(2, Some "Jane Doe"); (1, Some "Name"); (1, None)])).
Proof.
  intros Hl Ht. rewrite exec_behind.
  - now rewrite (exec_name_labelled tail Ht).
  - intros p q -> Hp. apply name_no_early_match; [exact Hp |].
    rewrite StrFacts.all_app in Hl. now apply andb_true_iff in Hl.
Qed.

(** The name of a text whose labelled line has no letter in front. *)
Lemma nameOf_behind nlp pre tail :
  Str.all (fun a => negb (Char.isLetter a)) pre = true ->
  endsName tail = true ->
  nameOf nlp (pre ++ nameLine ++ tail) = "Jane Doe".
Proof.
  intros Hl Ht. unfold nameOf.
  now rewrite (exec_name_behind pre tail Hl Ht).
Qed.

End PrefixFacts.

(** ** The address behind a prefix of the text *)

Module AddressFacts.

Import Pattern Patterns Js Server Props CharFacts MatcherFacts ScanFacts FuelFacts
  ShiftFacts CaptureFacts LabelFacts LiteralFacts PhoneFacts PrefixFacts.

Lemma address_at n cs tail :
  endsAddress tail = true ->
  matcher true (address 2) (mkState n (janeDoe ++ tail) cs) Some
  = Some (mkState (n + 20) tail ((2, Some janeDoe) :: cs)).
Proof.
  intros H. rewrite matcher_at.
  destruct tail as [|c t].
  - vm_compute. reflexivity.
  - each_char c; vm_compute in H; try discriminate; vm_compute; reflexivity.
Qed.

Lemma exec_email_alone tail :
  endsAddress tail = true ->
  exec emailRegex (janeDoe ++ tail) = Some (mkMatch 0 janeDoe [(2, Some janeDoe)]).
Proof.
  intros H.
  destruct tail as [|c t].
  - vm_compute. reflexivity.
  - each_char c; vm_compute in H; try discriminate; vm_compute; reflexivity.
Qed.

(** A match of the email pattern that starts in front of the address, with
    no [@] and no character of a local part right before it, captures the
    address. *)
Lemma email_match_behind p tail i e :
  Str.all (fun a => negb (isAt a)) p = true ->
  endsOutside localChar p = true ->
  endsAddress tail = true ->
  matcher true (source emailRegex) (mkState i (p ++ janeDoe ++ tail) []) Some = Some e ->
  lookup 2 (captures e) = Some janeDoe.
Proof.
  intros Hat Hout Ht E.
  change (matcher true (labelled emailLabel (address 2))
            (mkState i (p ++ janeDoe ++ tail) []) Some = Some e) in E.
  apply labelled_sound in E as (y & w & l & Hy & (R & _ & A & _)).
  simpl in R.
  pose proof Hy as Hy'.
  change (matcher true (Seq (Plus (Cls localPart))
            (cat [Chr "@";
                  Plus (Cls [CRange "a" "z"; CRange "A" "Z"; CRange "0" "9";
                             CChar "."; CChar "-"]);
                  Chr ".";
                  AtLeast 2 (Cls [CRange "a" "z"; CRange "A" "Z"])]))
            y
            (fun y2 => Some (mkState (endIndex y2) (rest y2)
               ((2, Some (Str.take (endIndex y2 - endIndex y) (rest y))) :: captures y2)))
          = Some e) in Hy'.
  apply seq_sound in Hy' as (y2 & wl & l2 & (R2 & _ & A2 & _) & Hy2).
  change (matcher true (Chr "@") y2
            (fun y3 => matcher true
               (cat [Plus (Cls [CRange "a" "z"; CRange "A" "Z"; CRange "0" "9";
                                CChar "."; CChar "-"]);
                     Chr ".";
                     AtLeast 2 (Cls [CRange "a" "z"; CRange "A" "Z"])]) y3
               (fun y4 => Some (mkState (endIndex y4) (rest y4)
                  ((2, Some (Str.take (endIndex y4 - endIndex y) (rest y))) :: captures y4))))
          = Some e) in Hy2.
  apply chr_sound in Hy2 as (ch & s' & E2 & Hc).
  assert (Hch : isAt ch = true).
  { revert Hc. apply (ascii_impl (charMatch true "@") isAt). vm_compute. reflexivity. }
  assert (Aw : Str.all (fun a => negb (isAt a)) w = true).
  { eapply StrFacts.all_mono; [| exact A].
    apply (ascii_impl (allowed true (lead emailLabel)) (fun a => negb (isAt a))).
    vm_compute. reflexivity. }
  assert (Awl : Str.all (fun a => negb (isAt a)) wl = true).
  { eapply StrFacts.all_mono; [| exact A2].
    apply (ascii_impl (allowed true (Plus (Cls localPart))) (fun a => negb (isAt a))).
    vm_compute. reflexivity. }
  assert (Al : Str.all localChar wl = true).
  { eapply StrFacts.all_mono; [| exact A2]. intros c Hc'. exact Hc'. }
  rewrite R2, E2 in R.
  assert (R' : ((p ++ "jane.doe") ++ String "@" ("example.com" ++ tail)
                = (w ++ wl) ++ String ch s')%string).
  { rewrite !StrFacts.app_assoc. exact R. }
  apply (app_align isAt) in R' as [Epw _]; auto.
  2:{ now rewrite StrFacts.all_app, Hat. }
  2:{ now rewrite StrFacts.all_app, Aw, Awl. }
  symmetry in Epw.
  apply (app_meet (allowed true (lead emailLabel)) localChar "j" "ane.doe") in Epw
    as [-> ->]; auto.
  assert (Hr : rest y = (janeDoe ++ tail)%string).
  { apply app_inv_head in R. rewrite R2, E2. symmetry. exact R. }
  clear R2 R. destruct y as [n r cs].
  change (r = (janeDoe ++ tail)%string) in Hr. subst r.
  rewrite (address_at n cs tail Ht) in Hy. injection Hy as <-.
  reflexivity.
Qed.

Lemma all_suffix P (q p : string) : Str.all P (q ++ p) = true -> Str.all P p = true.
Proof. rewrite StrFacts.all_app. intros H. now apply andb_true_iff in H. Qed.

Lemma endsOutside_suffix P : forall (q p : string),
  endsOutside P (q ++ p) = true -> endsOutside P p = true.
Proof.
  induction q as [|a q IH]; intros p H; [exact H |].
  apply IH. now apply (endsOutside_tail P a).
Qed.

(** The email of a text that has the address behind a stretch with no [@]
    that does not end with a character of a local part. *)
Lemma emailOf_behind pre tail :
  Str.all (fun a => negb (isAt a)) pre = true ->
  endsOutside localChar pre = true ->
  endsAddress tail = true ->
  emailOf (pre ++ janeDoe ++ tail) = janeDoe.
Proof.
  intros Hat Hout Ht. unfold emailOf.
  set (text := (pre ++ janeDoe ++ tail)%string).
  assert (Hhere : matcher true (source emailRegex)
                    (start (String.length pre) (Str.drop (String.length pre) text)) Some
                  <> None).
  { unfold text. rewrite StrFacts.drop_app. unfold start.
    change (matcher true (labelled emailLabel (address 2))
              (mkState (String.length pre) (janeDoe ++ tail) []) Some <> None).
    apply labelled_skip. now rewrite (address_at _ _ _ Ht). }
  assert (Hlen : String.length pre <= String.length text).
  { unfold text. rewrite StrFacts.length_app. lia. }
  destruct (exec emailRegex text) as [mr|] eqn:E.
  - pose proof (scan_before _ _ _ _ E Hlen Hhere) as Hk.
    apply scan_some in E as (k & e & _ & Hi & Hm & _ & Hc & _).
    simpl in Hi, Hm. rewrite Hi in Hk.
    destruct (drop_cut k pre Hk) as (q & Hq & _).
    unfold text in Hm. rewrite drop_app_le in Hm by exact Hk.
    rewrite Hq in Hat, Hout.
    apply email_match_behind in Hm; auto.
    + unfold capture, group. rewrite Hc, Hm. reflexivity.
    + now apply all_suffix in Hat.
    + now apply endsOutside_suffix in Hout.
  - exfalso. apply Hhere.
    apply (proj1 (scan_none emailRegex text 0) E (String.length pre) Hlen).
Qed.

End AddressFacts.

(** ** Facts about [Set] *)

Module SetFacts.

Import Js Props.

Lemma mem_In x (s : list string) : existsb (String.eqb x) s = true <-> In x s.
Proof.
  rewrite existsb_exists. split.
  - intros (y & Hy & E). apply String.eqb_eq in E. now subst.
  - intros H. exists x. split; [exact H | apply String.eqb_refl].
Qed.

Lemma newSet_snoc xs x : newSet (xs ++ [x]) = SetAdd (newSet xs) x.
Proof. unfold newSet. now rewrite fold_left_app. Qed.

Lemma SetAdd_In s x y : In y (SetAdd s x) <-> In y s \/ y = x.
Proof.
  unfold SetAdd. destruct (existsb (String.eqb x) s) eqn:E.
  - apply mem_In in E. split; [now left | intros [H | ->]; assumption].
  - rewrite in_app_iff. simpl. intuition.
Qed.

Lemma SetAdd_NoDup s x : NoDup s -> NoDup (SetAdd s x).
Proof.
  intros H. unfold SetAdd. destruct (existsb (String.eqb x) s) eqn:E; [exact H |].
  assert (Hx : ~ In x s).
  { intros Hin. apply mem_In in Hin. congruence. }
  clear E. induction H as [|y s Hy Hs IH]; simpl.
  - constructor; [intros [] | constructor].
  - constructor.
    + rewrite in_app_iff. simpl. intros [H | [H | []]]; [contradiction |].
      apply Hx. now left.
    + apply IH. intros H. apply Hx. now right.
Qed.

Lemma newSet_In xs : forall x, In x (newSet xs) <-> In x xs.
Proof.
  induction xs as [|a xs IH] using rev_ind; intros x; [reflexivity |].
  rewrite newSet_snoc, SetAdd_In, in_app_iff, IH. simpl. intuition.
Qed.

Lemma newSet_NoDup xs : NoDup (newSet xs).
Proof.
  induction xs as [|a xs IH] using rev_ind; [constructor |].
  rewrite newSet_snoc. now apply SetAdd_NoDup.
Qed.

Lemma indexOf_In x l : In x l <-> indexOf x l < List.length l.
Proof.
  induction l as [|y l IH]; simpl; [split; [intros [] | lia] |].
  destruct (String.eqb x y) eqn:E.
  - apply String.eqb_eq in E. subst. split; [lia | now left].
  - apply String.eqb_neq in E. rewrite <- Nat.succ_lt_mono, <- IH.
    split; [intros [H | H]; [congruence | exact H] | now right].
Qed.

Lemma indexOf_app x l l' :
  indexOf x (l ++ l')
  = if existsb (String.eqb x) l then indexOf x l else List.length l + indexOf x l'.
Proof.
  induction l as [|y l IH]; simpl; [reflexivity |].
  destruct (String.eqb x y); simpl; [reflexivity |].
  rewrite IH. now destruct (existsb (String.eqb x) l).
Qed.

Lemma indexOf_last x l : ~ In x l -> indexOf x (l ++ [x]) = List.length l.
Proof.
  intros H. rewrite indexOf_app.
  destruct (existsb (String.eqb x) l) eqn:E; [now apply mem_In in E |].
  simpl. rewrite String.eqb_refl. lia.
Qed.

Lemma indexOf_front x l l' : In x l -> indexOf x (l ++ l') = indexOf x l.
Proof.
  intros H. rewrite indexOf_app. apply mem_In in H. now rewrite H.
Qed.

(** The order of a [Set] is the order of the first occurrences. *)
Lemma newSet_order xs : forall x y,
  In x xs -> In y xs ->
  (indexOf x (newSet xs) < indexOf y (newSet xs) <-> indexOf x xs < indexOf y xs).
Proof.
  induction xs as [|a xs IH] using rev_ind; intros x y Hx Hy; [destruct Hx |].
  rewrite newSet_snoc. unfold SetAdd.
  destruct (existsb (String.eqb a) (newSet xs)) eqn:E.
  - apply mem_In in E. apply (proj1 (newSet_In _ _)) in E.
    assert (Hx' : In x xs).
    { apply in_app_iff in Hx as [H | [<- | []]]; assumption. }
    assert (Hy' : In y xs).
    { apply in_app_iff in Hy as [H | [<- | []]]; assumption. }
    rewrite !indexOf_front by assumption. now apply IH.
  - assert (Ha : ~ In a xs).
    { intros H. apply (proj2 (newSet_In _ _)) in H. apply mem_In in H. congruence. }
    assert (Ha' : ~ In a (newSet xs)).
    { intros H. apply Ha. now apply (proj1 (newSet_In _ _)). }
    assert (Hcase : forall z, In z (xs ++ [a]) -> (In z xs /\ z <> a) \/ z = a).
    { intros z Hz. apply in_app_iff in Hz as [H | [<- | []]]; [| now right].
      left. split; [exact H | intros ->; contradiction]. }
    destruct (Hcase x Hx) as [[Hx' Nx] | ->], (Hcase y Hy) as [[Hy' Ny] | ->].
    + rewrite !indexOf_front; try assumption; try now apply (proj2 (newSet_In _ _)).
      now apply IH.
    + rewrite (indexOf_front x), (indexOf_front x xs), !indexOf_last;
        try assumption; try now apply (proj2 (newSet_In _ _)).
      pose proof (proj2 (newSet_In _ _) Hx') as Hx''.
      apply indexOf_In in Hx', Hx''. tauto.
    + rewrite (indexOf_front y), (indexOf_front y xs), !indexOf_last;
        try assumption; try now apply (proj2 (newSet_In _ _)).
      pose proof (proj2 (newSet_In _ _) Hy') as Hy''.
      apply indexOf_In in Hy', Hy''. lia.
    + lia.
Qed.

Lemma newSet_nonempty xs : xs <> [] -> (List.length (newSet xs) =? 0) = false.
Proof.
  intros H. destruct xs as [|a xs]; [contradiction |].
  assert (Ha : In a (newSet (a :: xs))) by (apply (proj2 (newSet_In _ _)); now left).
  destruct (newSet (a :: xs)); [destruct Ha | reflexivity].
Qed.

End SetFacts.

(** ** Facts about the section functions *)

Module SectionFacts.

Import Pattern Patterns Js Server Props CaptureFacts SetFacts.

Lemma extractEducation_string nlp text :
  extractEducation nlp (VString text)
  = Ok (if List.length (newSet (educationMatches nlp text)) =? 0
        then match exec educationRegex text with
             | Some m => entries (capture 2 m)
             | None => newSet (educationMatches nlp text)
             end
        else newSet (educationMatches nlp text)).
Proof.
  unfold extractEducation. simpl ensureString. cbv beta iota delta [receiver bind].
  destruct (_ =? 0); [| reflexivity].
  destruct (exec educationRegex text) as [m|] eqn:E; [| reflexivity].
  now rewrite (element_capture educationRegex 2 text m eq_refl E).
Qed.

Lemma extractSkills_string nlp text :
  extractSkills nlp (VString text)
  = Ok (if List.length (newSet (skillsMatches nlp text)) =? 0
        then match exec skillsRegex text with
             | Some m => entries (capture 2 m)
             | None => newSet (skillsMatches nlp text)
             end
        else newSet (skillsMatches nlp text)).
Proof.
  unfold extractSkills. simpl ensureString. cbv beta iota delta [receiver bind].
  destruct (_ =? 0); [| reflexivity].
  destruct (exec skillsRegex text) as [m|] eqn:E; [| reflexivity].
  now rewrite (element_capture skillsRegex 2 text m eq_refl E).
Qed.

Lemma extractProjects_string nlp text :
  extractProjects nlp (VString text)
  = Ok (if List.length (newSet (projectMatches nlp text)) =? 0
        then match exec projectsRegex text with
             | Some m => entries (capture 2 m)
             | None => newSet (projectMatches nlp text)
             end
        else newSet (projectMatches nlp text)).
Proof.
  unfold extractProjects. simpl ensureString. cbv beta iota delta [receiver bind].
  destruct (_ =? 0); [| reflexivity].
  destruct (exec projectsRegex text) as [m|] eqn:E; [| reflexivity].
  now rewrite (element_capture projectsRegex 2 text m eq_refl E).
Qed.

(** The guard replaces an argument that is not a string by its JSON
    text. *)
Lemma ensureString_other v :
  (forall t, v <> VString t) -> ensureString v = stringify v.
Proof.
  intros Hv. destruct v; try reflexivity. exfalso. now apply (Hv s).
Qed.

Lemma ensureString_stringify v s :
  (forall t, v <> VString t) -> stringify v = Ok (Some s) ->
  ensureString v = ensureString (VString s).
Proof.
  intros Hv Hs. now rewrite (ensureString_other v Hv), Hs.
Qed.

End SectionFacts.

(** ** Facts about the handler *)

Module HandlerFacts.

Import Js Server Handler Props.

Lemma split_nonempty sep s : Str.split sep s <> [].
Proof.
  destruct s as [|c s]; simpl; [discriminate |].
  destruct (Ascii.eqb c sep); [discriminate |].
  destruct (Str.split sep s); discriminate.
Qed.

Lemma split_plain sep s :
  Str.all (fun c => negb (Ascii.eqb c sep)) s = true -> Str.split sep s = [s].
Proof.
  induction s as [|c s IH]; simpl; [reflexivity |].
  intros H. apply andb_true_iff in H as [Hc Hs].
  apply negb_true_iff in Hc. rewrite Hc, (IH Hs). reflexivity.
Qed.

Lemma last_cons {A} (x : A) l d : l <> [] -> last (x :: l) d = last l d.
Proof. destruct l; [contradiction | reflexivity]. Qed.

Lemma split_last sep suf d : forall pre,
  exists h t, Str.split sep (pre ++ String sep suf) = h :: t /\ t <> []
              /\ last t d = last (Str.split sep suf) d.
Proof.
  induction pre as [|c pre (h & t & E & Ht & L)]; simpl.
  - rewrite Ascii.eqb_refl. exists "", (Str.split sep suf).
    repeat split. apply split_nonempty.
  - destruct (Ascii.eqb c sep).
    + exists "", (Str.split sep (pre ++ String sep suf)).
      repeat split; [apply split_nonempty |].
      rewrite E, last_cons by exact Ht. exact L.
    + rewrite E. exists (String c h), t. repeat split; assumption.
Qed.

(** The extension is what follows the last dot of the file name. *)
Lemma extension_suffix pre suf :
  Str.all (fun c => negb (Ascii.eqb c ".")) suf = true ->
  extension (pre ++ String "." suf) = suf.
Proof.
  intros H. unfold extension.
  destruct (split_last "." suf "" pre) as (h & t & E & Ht & L).
  rewrite E, last_cons by exact Ht. rewrite L, split_plain by exact H. reflexivity.
Qed.

(** The helper of server.js turns a parse failure into the empty text. *)
Lemma extractTextFromPDF_degrades w path data e t :
  readFile w path = Ok data -> pdf w data = Throw e ->
  extractTextFromPDF w path t
  = (Ok "", t ++ [ReadFile path; ParsePdf data; ConsoleError e]).
Proof.
  intros Hr Hp. unfold extractTextFromPDF, tryCatch, bindM, emit, lift, ret.
  rewrite Hr, Hp. now rewrite <- !List.app_assoc.
Qed.

Lemma extractTextFromDOCX_degrades w path data e t :
  readFile w path = Ok data -> extractRawText w data = Throw e ->
  extractTextFromDOCX w path t
  = (Ok "", t ++ [ReadFile path; ParseDocx data; ConsoleError e]).
Proof.
  intros Hr Hp. unfold extractTextFromDOCX, tryCatch, bindM, emit, lift, ret.
  rewrite Hr, Hp. now rewrite <- !List.app_assoc.
Qed.

End HandlerFacts.

(** ** The statements of the specification *)

Module Claims.

Import Pattern Patterns Js Server Handler Props.
Import CharFacts MatcherFacts ScanFacts CaptureFacts LabelFacts LiteralFacts
  PhoneFacts PrefixFacts AddressFacts SetFacts SectionFacts HandlerFacts.

(** C1, as the code has it: in [submit] a parser that throws on the
    uploaded PDF or DOCX ends the request.  The handler logs the error and
    answers 500; there is no empty text, no inference, no upload, no
    sheet row, no mail and no webhook call. *)
Theorem parse_failure_ends_submission (w : World) (req : Request) (f : File)
    (e : exn) (t : list effect) :
  file req = Some f ->
  (extension (originalname f) = "pdf" -> pdf w (buffer f) = Throw e ->
   submit w req t
   = (Ok (mkResponse 500 "Error processing application."),
      t ++ [ParsePdf (buffer f); ConsoleError e]))
  /\ (extension (originalname f) = "docx" -> extractRawText w (buffer f) = Throw e ->
      submit w req t
      = (Ok (mkResponse 500 "Error processing application."),
         t ++ [ParseDocx (buffer f); ConsoleError e])).
Proof.
  intros Hf. destruct req as [name email phone file|]; [| discriminate Hf].
  cbn [Handler.file] in Hf. subst file. split; intros Hx Hp;
    unfold submit, tryCatch, bindM, emit, lift, ret, receiver_file;
    cbn [body destructure Handler.file]; rewrite Hx; simpl; rewrite Hp;
    now rewrite <- List.app_assoc.
Qed.

Lemma parse_failure_ends_submission_witness :
  file (mkRequest "Jane" "jane@example.com" "" (Some (mkFile "cv.pdf" [x00]))) 
  = Some (mkFile "cv.pdf" [x00])
  /\ extension "cv.pdf" = "pdf"
  /\ pdf demo [x00] = Throw (Error "Invalid PDF structure")
  /\ submit demo (mkRequest "Jane" "jane@example.com" "" (Some (mkFile "cv.pdf" [x00]))) []
     = (Ok (mkResponse 500 "Error processing application."),
        [ParsePdf [x00]; ConsoleError (Error "Invalid PDF structure")]).
Proof.
  split; [reflexivity |]. split; [reflexivity |]. split; [reflexivity |].
  apply (proj1 (parse_failure_ends_submission demo
                  (mkRequest "Jane" "jane@example.com" "" (Some (mkFile "cv.pdf" [x00])))
                  (mkFile "cv.pdf" [x00]) (Error "Invalid PDF structure") [] eq_refl));
    reflexivity.
Defined.

(** C2, as the code has it: on a text that starts with the lines
    [Skills], [Python], [Go], [Education], whatever follows, and with
    nothing found by tagging, [extractSkills] returns [s], [Python], [Go].
    The alternative [Skill] of the header pattern comes before [Skills], so
    the final letter of the header is left in the section text. *)
Theorem skills_header_leaves_s (nlp : Tagger) (tail : string) :
  skillsMatches nlp (Str.lines ["Skills"; "Python"; "Go"; "Education"; ""] ++ tail) = [] ->
  extractSkills nlp (VString (Str.lines ["Skills"; "Python"; "Go"; "Education"; ""] ++ tail))
  = Ok ["s"; "Python"; "Go"].
Proof.
  intros H. cbv beta iota delta [extractSkills ensureString receiver bind].
  rewrite H. vm_compute. reflexivity.
Qed.

Lemma skills_header_leaves_s_witness :
  skillsMatches silent (Str.lines ["Skills"; "Python"; "Go"; "Education"; ""] ++ "MIT") = []
  /\ extractSkills silent
       (VString (Str.lines ["Skills"; "Python"; "Go"; "Education"; ""] ++ "MIT"))
     = Ok ["s"; "Python"; "Go"].
Proof.
  split; [reflexivity | apply (skills_header_leaves_s silent "MIT"); reflexivity].
Defined.

(** With the header [Skill] the lines of the section come out as the
    claim C2 has them. *)
Lemma skill_header_lines (nlp : Tagger) (tail : string) :
  skillsMatches nlp (Str.lines ["Skill"; "Python"; "Go"; "Education"; ""] ++ tail) = [] ->
  extractSkills nlp (VString (Str.lines ["Skill"; "Python"; "Go"; "Education"; ""] ++ tail))
  = Ok ["Python"; "Go"].
Proof.
  intros H. cbv beta iota delta [extractSkills ensureString receiver bind].
  rewrite H. vm_compute. reflexivity.
Qed.

(** C3: a file whose extension, the part of its name after the last dot, is
    neither [pdf] nor [docx] is rejected.  [submit] throws the unsupported
    format error, logs it and answers with the error status; the trace
    holds no parser call, no inference and no call of a collaborator. *)
Theorem unsupported_extension_rejected (w : World) (req : Request) (f : File)
    (t : list effect) :
  file req = Some f ->
  extension (originalname f) <> "pdf" ->
  extension (originalname f) <> "docx" ->
  submit w req t
  = (Ok (mkResponse 500 "Error processing application."),
     t ++ [ConsoleError (Error "Unsupported file format. Only PDF and DOCX are allowed.")]).
Proof.
  intros Hf Hp Hd. destruct req as [name email phone file|]; [| discriminate Hf].
  cbn [Handler.file] in Hf. subst file.
  unfold submit, tryCatch, bindM, emit, lift, ret, throw, receiver_file.
  cbn [body destructure Handler.file].
  apply String.eqb_neq in Hp, Hd. now rewrite Hp, Hd.
Qed.

Lemma unsupported_extension_rejected_witness :
  file (mkRequest "Jane" "jane@example.com" "" (Some (mkFile "cv.final.txt" [x25; x50; x44; x46])))
  = Some (mkFile "cv.final.txt" [x25; x50; x44; x46])
  /\ extension "cv.final.txt" <> "pdf"
  /\ extension "cv.final.txt" <> "docx"
  /\ submit demo (mkRequest "Jane" "jane@example.com" ""
                    (Some (mkFile "cv.final.txt" [x25; x50; x44; x46]))) []
     = (Ok (mkResponse 500 "Error processing application."),
        [ConsoleError (Error "Unsupported file format. Only PDF and DOCX are allowed.")]).
Proof.
  split; [reflexivity |].
  split; [vm_compute; discriminate |].
  split; [vm_compute; discriminate |].
  apply (unsupported_extension_rejected demo
           (mkRequest "Jane" "jane@example.com" ""
              (Some (mkFile "cv.final.txt" [x25; x50; x44; x46])))
           (mkFile "cv.final.txt" [x25; x50; x44; x46]) [] eq_refl);
    vm_compute; discriminate.
Defined.

(** C4 refuted: an address on the first line wins over the labelled
    address on the second line. *)
Lemma labelled_email_not_preferred :
  exists info,
    extractPersonalInfo silent
      (VString (Str.lines ["bob@x.org"; "Email: jane.doe@example.com"])) = Ok info
    /\ email info = "bob@x.org"
    /\ email info <> "jane.doe@example.com".
Proof.
  eexists. split; [vm_compute; reflexivity |]. split; [reflexivity | discriminate].
Qed.

(** C4 amended: the email is the address captured by the leftmost match of
    the one pattern, in which label and separator are optional; it is
    empty when no part of the text has the shape of an address; a text
    that has [jane.doe@example.com] with no [@] before it, not right after
    a character of a local part and not right before a letter, digit, dot
    or hyphen gives that address. *)
Theorem email_resolution (nlp : Tagger) (text : string) :
  exists info,
    extractPersonalInfo nlp (VString text) = Ok info
    /\ email info = match exec emailRegex text with
                    | Some m => Str.trim (capture 2 m)
                    | None => ""
                    end
    /\ (exec emailFallbackRegex text = None -> email info = "")
    /\ (forall pre tail,
          Str.all (fun c => negb (isAt c)) pre = true ->
          endsOutside localChar pre = true ->
          endsAddress tail = true ->
          text = (pre ++ janeDoe ++ tail)%string ->
          email info = janeDoe).
Proof.
  exists (mkInfo (nameOf nlp text) (emailOf text) (phoneOf text)).
  split; [apply extractPersonalInfo_string |]. simpl.
  assert (Hf : exec emailRegex text = None -> exec emailFallbackRegex text = None).
  { intros E. apply not_occurs. intros O. apply email_occurs in O.
    now apply not_occurs in E. }
  repeat split.
  - unfold emailOf. destruct (exec emailRegex text) eqn:E; [reflexivity |].
    now rewrite (Hf eq_refl).
  - intros F. unfold emailOf. destruct (exec emailRegex text) eqn:E.
    + exfalso. apply not_occurs in F. apply F, email_occurs. unfold occurs. congruence.
    + now rewrite F.
  - intros pre tail Hat Hout Ht ->. now apply emailOf_behind.
Qed.

Lemma email_resolution_witness :
  exec emailFallbackRegex "call 555 123 4567" = None
  /\ Str.all (fun c => negb (isAt c)) "Reach me: <" = true
  /\ endsOutside localChar "Reach me: <" = true
  /\ endsAddress ">, or call" = true
  /\ (exists info,
        extractPersonalInfo silent (VString "call 555 123 4567") = Ok info
        /\ email info = "")
  /\ (exists info,
        extractPersonalInfo silent (VString "Reach me: <jane.doe@example.com>, or call")
        = Ok info
        /\ email info = "jane.doe@example.com").
Proof.
  split; [reflexivity |]. split; [reflexivity |]. split; [reflexivity |].
  split; [reflexivity |]. split.
  - destruct (email_resolution silent "call 555 123 4567") as (info & H1 & _ & H3 & _).
    exists info. split; [exact H1 | apply H3; reflexivity].
  - destruct (email_resolution silent "Reach me: <jane.doe@example.com>, or call")
      as (info & H1 & _ & _ & H4).
    exists info. split; [exact H1 |].
    apply (H4 "Reach me: <" ">, or call"); reflexivity.
Defined.

(** C5: every character of the phone field is a digit, white space or one
    of [+ - . ( ) :], so no label text is part of it; where a label was
    matched (group 1 of the match), the field is what is left of the match
    behind the label, trimmed; and where the phone pattern matches nowhere
    the field is empty. *)
Theorem phone_label_stripped (nlp : Tagger) (text : string) :
  exists info,
    extractPersonalInfo nlp (VString text) = Ok info
    /\ Str.all phoneChar (phone info) = true
    /\ (forall pm L,
          exec phoneRegex text = Some pm -> group 1 pm = Some L ->
          exists v,
            whole pm = (L ++ v ++ remove phoneLabelRegex (whole pm))%string
            /\ phone info = Str.trim (remove phoneLabelRegex (whole pm)))
    /\ (exec phoneFallbackRegex text = None -> phone info = "").
Proof.
  exists (mkInfo (nameOf nlp text) (emailOf text) (phoneOf text)).
  split; [apply extractPersonalInfo_string |]. simpl. split; [| split].
  - apply phoneOf_chars.
  - intros pm L E G. now apply phoneOf_behind_label.
  - intros F. unfold phoneOf. destruct (exec phoneRegex text) eqn:E.
    + exfalso. apply not_occurs in F. apply F, phone_occurs. unfold occurs. congruence.
    + now rewrite F.
Qed.

Lemma phone_label_stripped_witness :
  exec phoneFallbackRegex "Phone: none" = None
  /\ exec phoneRegex "Contact Number: (555) 123-4567"
     = Some (mkMatch 0 "Contact Number: (555) 123-4567"
               [(1, Some "Contact Number"); (1, None)])
  /\ (exists info,
        extractPersonalInfo silent (VString "Phone: none") = Ok info
        /\ phone info = "")
  /\ (exists info,
        extractPersonalInfo silent (VString "Contact Number: (555) 123-4567") = Ok info
        /\ phone info = "(555) 123-4567").
Proof.
  split; [reflexivity |]. split; [reflexivity |]. split.
  - destruct (phone_label_stripped silent "Phone: none") as (info & H1 & _ & _ & H4).
    exists info. split; [exact H1 | apply H4; reflexivity].
  - destruct (phone_label_stripped silent "Contact Number: (555) 123-4567")
      as (info & H1 & _ & H3 & _).
    exists info. split; [exact H1 |].
    destruct (H3 (mkMatch 0 "Contact Number: (555) 123-4567"
                    [(1, Some "Contact Number"); (1, None)])
                 "Contact Number" eq_refl eq_refl) as (v & _ & Hp).
    rewrite Hp. reflexivity.
Defined.

(** The label variants on examples. *)
Lemma phone_examples :
  map phoneOf ["Phone: 555-123-4567"; "phone number - (555) 123 4567";
               "CONTACT +1 555.123.4567"; "Contact Number:5551234567";
               "Call 555-123-4567 now"]
  = ["555-123-4567"; "- (555) 123 4567"; "+1 555.123.4567"; "5551234567"; "555-123-4567"].
Proof. vm_compute. reflexivity. Qed.

(** C6 refuted: two words before the labelled line are taken as the
    name. *)
Lemma labelled_name_not_first :
  extractPersonalInfo silent (VString (Str.lines ["Curriculum Vitae."; "Name: Jane Doe"]))
  = Ok (mkInfo "Curriculum Vitae" "" "").
Proof. vm_compute. reflexivity. Qed.

(** C6 amended: a text in which no letter stands before [Name: Jane Doe]
    and which then ends, or goes on, possibly after one white space
    character, with a character that is neither a letter nor white space,
    has the name [Jane Doe]. *)
Theorem labelled_name_first_words (nlp : Tagger) (pre tail : string) :
  Str.all (fun c => negb (Char.isLetter c)) pre = true ->
  endsName tail = true ->
  exists info,
    extractPersonalInfo nlp (VString (pre ++ nameLine ++ tail)) = Ok info
    /\ name info = "Jane Doe".
Proof.
  intros Hl Ht. eexists. split; [apply extractPersonalInfo_string |].
  simpl. now apply nameOf_behind.
Qed.

Lemma labelled_name_first_words_witness :
  Str.all (fun c => negb (Char.isLetter c)) (Str.lines ["2024-05-01"; "---"; ""]) = true
  /\ endsName (Str.lines [""; "+1 555 123 4567"]) = true
  /\ exists info,
       extractPersonalInfo silent
         (VString (Str.lines ["2024-05-01"; "---"; ""] ++ nameLine
                   ++ Str.lines [""; "+1 555 123 4567"])) = Ok info
       /\ name info = "Jane Doe".
Proof.
  split; [reflexivity |]. split; [reflexivity |].
  apply (labelled_name_first_words silent (Str.lines ["2024-05-01"; "---"; ""])
           (Str.lines [""; "+1 555 123 4567"])); reflexivity.
Defined.

(** C7, as the code has it: the text [cv 2024] / [hello world] has no
    upper-case letter, so no label and no capitalised words, and the tagger
    finds no person; its first non-empty line is [cv 2024], yet the name is
    [hello world].  The pattern carries the [i] flag, under which [[A-Z]]
    accepts lower-case letters. *)
Theorem lower_case_words_taken_as_name :
  extractPersonalInfo silent (VString (Str.lines ["cv 2024"; "hello world"]))
  = Ok (mkInfo "hello world" "" "")
  /\ Str.all (fun c => negb (Char.isUpper c)) (Str.lines ["cv 2024"; "hello world"]) = true
  /\ outText silent "#Person" (Str.lines ["cv 2024"; "hello world"]) = ""
  /\ hd "" (filter (fun line => 0 <? String.length line)
              (map Str.trim (Str.split Char.LF (Str.lines ["cv 2024"; "hello world"]))))
     = "cv 2024".
Proof. repeat split; vm_compute; reflexivity. Qed.

(** Where the name pattern matches nowhere and no person is tagged, the
    name is the first non-empty trimmed line. *)
Lemma name_first_line (nlp : Tagger) (text : string) :
  exec nameRegex text = None -> outText nlp "#Person" text = "" ->
  exists info,
    extractPersonalInfo nlp (VString text) = Ok info
    /\ name info = hd "" (filter (fun line => 0 <? String.length line)
                            (map Str.trim (Str.split Char.LF text))).
Proof.
  intros E P. eexists. split; [apply extractPersonalInfo_string |].
  simpl. unfold nameOf. rewrite E, P. simpl.
  now destruct (filter _ _).
Qed.

(** C8 refuted: [null] comes back with the name [null], a number of ten
    digits as name and phone, and [undefined] throws. *)
Lemma coerced_argument_not_empty :
  extractPersonalInfo silent VNull = Ok (mkInfo "null" "" "")
  /\ extractPersonalInfo silent (VNumber (mkSafeInteger 5551234567 eq_refl))
     = Ok (mkInfo "5551234567" "" "5551234567")
  /\ extractPersonalInfo silent VUndefined
     = Throw (TypeError "Cannot read properties of undefined").
Proof. repeat split; vm_compute; reflexivity. Qed.

(** C8 amended: an argument that is not a string and for which
    [JSON.stringify] returns a string is replaced by that string; each of
    the four functions then returns, without throwing, what it returns for
    the string.  The argument is any value: [VOther] stands for the kinds
    that are not spelled out. *)
Theorem non_string_argument_coerced (nlp : Tagger) (v : value) (s : string) :
  (forall t, v <> VString t) ->
  stringify v = Ok (Some s) ->
  (extractPersonalInfo nlp v = extractPersonalInfo nlp (VString s)
   /\ exists info, extractPersonalInfo nlp v = Ok info)
  /\ (extractEducation nlp v = extractEducation nlp (VString s)
      /\ exists l, extractEducation nlp v = Ok l)
  /\ (extractSkills nlp v = extractSkills nlp (VString s)
      /\ exists l, extractSkills nlp v = Ok l)
  /\ (extractProjects nlp v = extractProjects nlp (VString s)
      /\ exists l, extractProjects nlp v = Ok l).
Proof.
  intros Hv Hs.
  pose proof (ensureString_stringify v s Hv Hs) as E.
  assert (E1 : extractPersonalInfo nlp v = extractPersonalInfo nlp (VString s)).
  { unfold extractPersonalInfo. now rewrite E. }
  assert (E2 : extractEducation nlp v = extractEducation nlp (VString s)).
  { unfold extractEducation. now rewrite E. }
  assert (E3 : extractSkills nlp v = extractSkills nlp (VString s)).
  { unfold extractSkills. now rewrite E. }
  assert (E4 : extractProjects nlp v = extractProjects nlp (VString s)).
  { unfold extractProjects. now rewrite E. }
  repeat split; try assumption.
  - rewrite E1, extractPersonalInfo_string. eauto.
  - rewrite E2, extractEducation_string. eauto.
  - rewrite E3, extractSkills_string. eauto.
  - rewrite E4, extractProjects_string. eauto.
Qed.

Lemma non_string_argument_coerced_witness :
  (forall t, VArray [VNumber (mkSafeInteger 42 eq_refl); VOther (Ok (Some "1e+21"));
                     VUndefined; VBool true] <> VString t)
  /\ stringify (VArray [VNumber (mkSafeInteger 42 eq_refl); VOther (Ok (Some "1e+21"));
                        VUndefined; VBool true])
     = Ok (Some "[42,1e+21,null,true]")
  /\ extractPersonalInfo silent
       (VArray [VNumber (mkSafeInteger 42 eq_refl); VOther (Ok (Some "1e+21"));
                VUndefined; VBool true])
     = extractPersonalInfo silent (VString "[42,1e+21,null,true]")
  /\ exists l,
       extractSkills silent
         (VArray [VNumber (mkSafeInteger 42 eq_refl); VOther (Ok (Some "1e+21"));
                  VUndefined; VBool true]) = Ok l.
Proof.
  split; [discriminate |]. split; [reflexivity |].
  destruct (non_string_argument_coerced silent
              (VArray [VNumber (mkSafeInteger 42 eq_refl); VOther (Ok (Some "1e+21"));
                       VUndefined; VBool true]) "[42,1e+21,null,true]")
    as ((H1 & _) & _ & (_ & H3) & _); [discriminate | reflexivity |].
  split; [exact H1 | exact H3].
Defined.

Lemma newSet_firstOccurrences matches : firstOccurrences matches (newSet matches).
Proof.
  split; [apply newSet_NoDup |]. split; [apply newSet_In | apply newSet_order].
Qed.

(** C9: where tagging and the header vocabulary give matches, each of the
    three section functions returns them without duplicates and in the
    order of their first occurrences in the list of matches. *)
Theorem tier_one_deduplicates (nlp : Tagger) (text : string) :
  (educationMatches nlp text <> [] ->
   exists r, extractEducation nlp (VString text) = Ok r
             /\ firstOccurrences (educationMatches nlp text) r)
  /\ (skillsMatches nlp text <> [] ->
      exists r, extractSkills nlp (VString text) = Ok r
                /\ firstOccurrences (skillsMatches nlp text) r)
  /\ (projectMatches nlp text <> [] ->
      exists r, extractProjects nlp (VString text) = Ok r
                /\ firstOccurrences (projectMatches nlp text) r).
Proof.
  repeat split; intros H; eexists.
  - split; [| apply newSet_firstOccurrences].
    now rewrite extractEducation_string, (newSet_nonempty _ H).
  - split; [| apply newSet_firstOccurrences].
    now rewrite extractSkills_string, (newSet_nonempty _ H).
  - split; [| apply newSet_firstOccurrences].
    now rewrite extractProjects_string, (newSet_nonempty _ H).
Qed.

Lemma tier_one_deduplicates_witness :
  educationMatches echo "MIT" <> []
  /\ educationMatches echo "MIT"
     = ["Education"; "MIT"; "Education"; "Education"; "MIT"; "Education"]
  /\ exists r, extractEducation echo (VString "MIT") = Ok r
               /\ firstOccurrences (educationMatches echo "MIT") r.
Proof.
  split; [discriminate |]. split; [reflexivity |].
  apply (proj1 (tier_one_deduplicates echo "MIT")). discriminate.
Defined.

Lemma tier_one_example : extractEducation echo (VString "MIT") = Ok ["Education"; "MIT"].
Proof. reflexivity. Qed.

(** C10: wherever the bare phone pattern of the fallback matches, the
    labelled pattern, whose label and separator are optional, matches too;
    so the phone field always comes from the first branch: it is computed
    from the match of the labelled pattern, or is empty when there is
    none. *)
Theorem phone_fallback_unreachable (nlp : Tagger) (text : string) :
  (occurs phoneFallbackRegex text -> occurs phoneRegex text)
  /\ (exec phoneRegex text = None -> exec phoneFallbackRegex text = None)
  /\ exists info,
       extractPersonalInfo nlp (VString text) = Ok info
       /\ phone info = match exec phoneRegex text with
                       | Some phoneMatch =>
                           Str.trim (remove phoneLabelRegex (whole phoneMatch))
                       | None => ""
                       end.
Proof.
  assert (Hf : exec phoneRegex text = None -> exec phoneFallbackRegex text = None).
  { intros E. apply not_occurs. intros O. apply phone_occurs in O.
    now apply not_occurs in E. }
  split; [apply phone_occurs |]. split; [exact Hf |].
  eexists. split; [apply extractPersonalInfo_string |].
  simpl. unfold phoneOf. destruct (exec phoneRegex text); [reflexivity |].
  now rewrite (Hf eq_refl).
Qed.

Lemma phone_fallback_unreachable_witness :
  occurs phoneFallbackRegex "reach me: 555 123 4567"
  /\ occurs phoneRegex "reach me: 555 123 4567"
  /\ exec phoneRegex "no number" = None
  /\ exec phoneFallbackRegex "no number" = None.
Proof.
  split; [vm_compute; discriminate |].
  split.
  - apply (proj1 (phone_fallback_unreachable silent "reach me: 555 123 4567")).
    vm_compute. discriminate.
  - split; [reflexivity |].
    apply (proj1 (proj2 (phone_fallback_unreachable silent "no number"))). reflexivity.
Defined.

End Claims.

(** ** The handler and its collaborators *)

Module OutcomeFacts.

Import Pattern Patterns Js Server Handler Props Outcome.
Import CaptureFacts SectionFacts HandlerFacts.

Lemma extractEducation_of nlp text :
  extractEducation nlp (VString text) = Ok (educationOf nlp text).
Proof. apply extractEducation_string. Qed.

Lemma extractSkills_of nlp text :
  extractSkills nlp (VString text) = Ok (skillsOf nlp text).
Proof. apply extractSkills_string. Qed.

Lemma extractProjects_of nlp text :
  extractProjects nlp (VString text) = Ok (projectsOf nlp text).
Proof. apply extractProjects_string. Qed.

(** A request with a file is a multipart request. *)
Lemma file_multipart (req : Request) (f : File) :
  file req = Some f ->
  exists name email phone, req = mkRequest name email phone (Some f).
Proof.
  destruct req as [name email phone upload|]; [| discriminate].
  cbn [file]. intros ->. now exists name, email, phone.
Qed.

(** [submit] for a multipart request: the destructuring returns, and the
    [try] block starts. *)
Ltac enter_try :=
  unfold submit; unfold bindM at 1; unfold lift at 1;
  cbn [body destructure file formName formEmail formPhone bodyName bodyEmail bodyPhone].

(** The parse step of [submit] for a supported extension. *)
Lemma parse_step (w : World) (ext : string) (data : list byte) (t : list effect)
    (k : string -> M Response) :
  supported ext = true ->
  bindM (if String.eqb ext "pdf" then
           bindM (emit (ParsePdf data)) (fun _ => lift (pdf w data))
         else if String.eqb ext "docx" then
           bindM (emit (ParseDocx data)) (fun _ => lift (extractRawText w data))
         else
           throw (Error "Unsupported file format. Only PDF and DOCX are allowed."))
        k t
  = match parser w ext data with
    | Ok text => k text (t ++ [parseEffect ext data])
    | Throw e => (Throw e, t ++ [parseEffect ext data])
    end.
Proof.
  unfold supported, parser, parseEffect, bindM, emit, lift. intros H.
  destruct (String.eqb ext "pdf"); [reflexivity |].
  simpl in H. rewrite H. reflexivity.
Qed.

(** [submit] from the point where the text of the file is there. *)
Lemma submit_parsed (w : World) (req : Request) (f : File) (text : string)
    (t : list effect) :
  file req = Some f ->
  supported (extension (originalname f)) = true ->
  parser w (extension (originalname f)) (buffer f) = Ok text ->
  submit w req t
  = let t1 := t ++ [parseEffect (extension (originalname f)) (buffer f); Infer text;
                    PutObject (originalname f) (buffer f)] in
    let failed e t' := (Ok (mkResponse 500 "Error processing application."),
                        t' ++ [ConsoleError e]) in
    match send w (originalname f) (buffer f) with
    | Throw e => failed e t1
    | Ok _ =>
        match append w (rowOf w req f text) with
        | Throw e => failed e (t1 ++ [AppendRow (rowOf w req f text)])
        | Ok _ =>
            let t2 := t1 ++ [AppendRow (rowOf w req f text); SendMail (formEmail req);
                             mailLog w (formEmail req); Post (payloadOf w req f text)] in
            match fetch w (payloadOf w req f text) with
            | Throw e => failed e t2
            | Ok _ => (Ok (mkResponse 200 "Application submitted successfully!"), t2)
            end
        end
    end.
Proof.
  intros Hf Hs Hp. destruct (file_multipart req f Hf) as (n & em & ph & ->).
  clear Hf. enter_try. unfold tryCatch.
  unfold bindM at 1. unfold lift at 1. cbn [receiver_file].
  rewrite (parse_step w _ _ _ _ Hs), Hp.
  unfold uploadToS3, storeInGoogleSheets, sendEmail, sendWebhook, tryCatch.
  unfold bindM, emit, lift, ret.
  rewrite extractPersonalInfo_string, extractEducation_of, extractSkills_of,
    extractProjects_of.
  cbn [name email phone].
  cbv zeta. unfold mailLog, payloadOf, rowOf, cvDataOf, publicUrlOf. cbn [cvName cvEmail].
  cbn [body formName formEmail formPhone bodyName bodyEmail bodyPhone].
  destruct (send w (originalname f) (buffer f)) as [[]|e];
    [| rewrite <- !List.app_assoc; reflexivity].
  destruct (append w _) as [[]|e];
    [| rewrite <- !List.app_assoc; reflexivity].
  destruct (sendMail w em) as [[]|e];
    (destruct (fetch w _) as [b|e'];
     rewrite <- !List.app_assoc; reflexivity).
Qed.

(** [split] and [join] with the same separator are inverse to each other
    on the side of the text. *)
Lemma concat_split sep s : String.concat (String sep "") (Str.split sep s) = s.
Proof.
  induction s as [|c s IH]; [reflexivity |]. cbn [Str.split].
  destruct (Str.split sep s) as [|h l] eqn:E; [now destruct (split_nonempty sep s) |].
  destruct (Ascii.eqb_spec c sep) as [->|Hc].
  - change (String.concat (String sep "") ("" :: h :: l))
      with ("" ++ String sep "" ++ String.concat (String sep "") (h :: l))%string.
    rewrite IH. reflexivity.
  - destruct l as [|h' l].
    + cbn [String.concat] in *. now rewrite IH.
    + change (String.concat (String sep "") (String c h :: h' :: l))
        with (String c (h ++ String sep "" ++ String.concat (String sep "") (h' :: l)))%string.
      change (String.concat (String sep "") (h :: h' :: l))
        with (h ++ String sep "" ++ String.concat (String sep "") (h' :: l))%string in IH.
      now rewrite IH.
Qed.

Lemma split_pieces sep s :
  Forall (fun p => Str.all (fun c => negb (Ascii.eqb c sep)) p = true) (Str.split sep s).
Proof.
  induction s as [|c s IH]; [repeat constructor |]. cbn [Str.split].
  destruct (Ascii.eqb c sep) eqn:Hc; [constructor; [reflexivity | exact IH] |].
  destruct (Str.split sep s) as [|h l]; [repeat constructor; cbn; now rewrite Hc |].
  inversion IH as [|? ? Hh Hl]; subst. constructor; [| exact Hl].
  cbn. now rewrite Hc, Hh.
Qed.

Lemma concat_snoc sep init l :
  String.concat sep (init ++ [l])
  = match init with
    | [] => l
    | _ => (String.concat sep init ++ sep ++ l)%string
    end.
Proof.
  induction init as [|x init IH]; [reflexivity |].
  destruct init as [|y init]; [reflexivity |].
  change (String.concat sep ((x :: y :: init) ++ [l]))
    with (x ++ sep ++ String.concat sep ((y :: init) ++ [l]))%string.
  rewrite IH. cbn [String.concat].
  now rewrite !StrFacts.app_assoc.
Qed.

(** Without a file the [try] block ends at its first statement. *)
Lemma submit_no_file (w : World) (name email phone : string) (t : list effect) :
  submit w (mkRequest name email phone None) t
  = (Ok (mkResponse 500 "Error processing application."),
     t ++ [ConsoleError (TypeError "Cannot read properties of undefined")]).
Proof. reflexivity. Qed.

(** Without a body the handler ends before the [try] block. *)
Lemma submit_no_body (w : World) (t : list effect) :
  submit w notMultipart t
  = (Throw (TypeError "Cannot destructure property 'name' of 'req.body' as it is undefined."),
     t).
Proof. reflexivity. Qed.

(** A file with another extension ends the [try] block before any call. *)
Lemma submit_unsupported (w : World) (req : Request) (f : File) (t : list effect) :
  file req = Some f ->
  supported (extension (originalname f)) = false ->
  submit w req t
  = (Ok (mkResponse 500 "Error processing application."),
     t ++ [ConsoleError (Error "Unsupported file format. Only PDF and DOCX are allowed.")]).
Proof.
  intros Hf Hs. destruct (file_multipart req f Hf) as (n & em & ph & ->). clear Hf.
  unfold supported in Hs. apply orb_false_iff in Hs as [Hp Hd].
  enter_try. unfold tryCatch, bindM, lift, emit, ret, throw.
  cbn [receiver_file]. now rewrite Hp, Hd.
Qed.

(** A parser that throws ends the [try] block after its call. *)
Lemma submit_unparsed (w : World) (req : Request) (f : File) (e : exn)
    (t : list effect) :
  file req = Some f ->
  supported (extension (originalname f)) = true ->
  parser w (extension (originalname f)) (buffer f) = Throw e ->
  submit w req t
  = (Ok (mkResponse 500 "Error processing application."),
     t ++ [parseEffect (extension (originalname f)) (buffer f); ConsoleError e]).
Proof.
  intros Hf Hs Hp. destruct (file_multipart req f Hf) as (n & em & ph & ->). clear Hf.
  enter_try. unfold tryCatch. unfold bindM at 1. unfold lift at 1.
  cbn [receiver_file]. rewrite (parse_step w _ _ _ _ Hs), Hp.
  unfold bindM, emit, ret. now rewrite <- List.app_assoc.
Qed.

End OutcomeFacts.

(** ** Properties of the handler *)

Module HandlerProps.

Import Pattern Patterns Js Server Handler Props Outcome.
Import CaptureFacts SectionFacts HandlerFacts OutcomeFacts.

(** X1: a submission whose file is parsed and whose upload, sheet row and
    webhook call return is answered with 200.  The effects are, in this
    order: the parser call, the inference, one object put under the
    original file name, one row, one mail to the address of the form and
    one webhook call.  Neither a failing [sendMail] nor the [ok] flag of the
    webhook response changes the answer. *)
Theorem submission_completes (w : World) (req : Request) (f : File) (text : string)
    (ok : bool) (t : list effect) :
  file req = Some f ->
  supported (extension (originalname f)) = true ->
  parser w (extension (originalname f)) (buffer f) = Ok text ->
  send w (originalname f) (buffer f) = Ok tt ->
  append w (rowOf w req f text) = Ok tt ->
  fetch w (payloadOf w req f text) = Ok ok ->
  submit w req t
  = (Ok (mkResponse 200 "Application submitted successfully!"),
     t ++ [parseEffect (extension (originalname f)) (buffer f);
           Infer text;
           PutObject (originalname f) (buffer f);
           AppendRow (rowOf w req f text);
           SendMail (formEmail req);
           mailLog w (formEmail req);
           Post (payloadOf w req f text)]).
Proof.
  intros Hf Hs Hp Hu Ha Hw.
  rewrite (submit_parsed w req f text t Hf Hs Hp). cbv zeta.
  rewrite Hu, Ha, Hw, <- List.app_assoc. reflexivity.
Qed.

Lemma submission_completes_witness :
  file (janeForm (Some (mkFile "cv.docx" zipBytes))) = Some (mkFile "cv.docx" zipBytes)
  /\ supported (extension "cv.docx") = true
  /\ parser (down Mail) (extension "cv.docx") zipBytes = Ok "Jane Doe"
  /\ sendMail (down Mail) "jane@example.com" = Throw (Error "SMTP is down")
  /\ fetch (down Mail)
       (payloadOf (down Mail) (janeForm (Some (mkFile "cv.docx" zipBytes)))
          (mkFile "cv.docx" zipBytes) "Jane Doe") = Ok false
  /\ submit (down Mail) (janeForm (Some (mkFile "cv.docx" zipBytes))) []
     = (Ok (mkResponse 200 "Application submitted successfully!"),
        [ParseDocx zipBytes;
         Infer "Jane Doe";
         PutObject "cv.docx" zipBytes;
         AppendRow ["Jane Doe"; "jane@example.com"; "555";
                    "https://bucket.s3.amazonaws.com/cv.docx"; ""; ""; ""];
         SendMail "jane@example.com";
         ConsoleError (Error "SMTP is down");
         Post (mkWebhook "jane@example.com" (mkCvData "Jane Doe" "jane@example.com" "555")
                 [] [] [] "https://bucket.s3.amazonaws.com/cv.docx"
                 "Jane Doe" "jane@example.com" "2025-01-01T00:00:00.000Z")]).
Proof.
  split; [reflexivity |]. split; [reflexivity |]. split; [reflexivity |].
  split; [reflexivity |]. split; [reflexivity |].
  exact (submission_completes (down Mail) (janeForm (Some (mkFile "cv.docx" zipBytes)))
           (mkFile "cv.docx" zipBytes) "Jane Doe" false []
           eq_refl eq_refl eq_refl eq_refl eq_refl eq_refl).
Defined.

(** X2: when the upload to S3 throws, the handler answers 500 with
    nothing stored: after the parser call and the inference the only
    effect is the attempted upload, and no row, mail or webhook call
    follows. *)
Theorem upload_failure_stores_nothing (w : World) (req : Request) (f : File)
    (text : string) (e : exn) (t : list effect) :
  file req = Some f ->
  supported (extension (originalname f)) = true ->
  parser w (extension (originalname f)) (buffer f) = Ok text ->
  send w (originalname f) (buffer f) = Throw e ->
  submit w req t
  = (Ok (mkResponse 500 "Error processing application."),
     t ++ [parseEffect (extension (originalname f)) (buffer f);
           Infer text;
           PutObject (originalname f) (buffer f);
           ConsoleError e]).
Proof.
  intros Hf Hs Hp Hu.
  rewrite (submit_parsed w req f text t Hf Hs Hp). cbv zeta.
  rewrite Hu, <- List.app_assoc. reflexivity.
Qed.

Lemma upload_failure_stores_nothing_witness :
  parser (down S3) (extension "cv.pdf") pdfBytes = Ok "Jane Doe"
  /\ send (down S3) "cv.pdf" pdfBytes = Throw (Error "S3 is down")
  /\ submit (down S3) (janeForm (Some (mkFile "cv.pdf" pdfBytes))) []
     = (Ok (mkResponse 500 "Error processing application."),
        [ParsePdf pdfBytes; Infer "Jane Doe"; PutObject "cv.pdf" pdfBytes;
         ConsoleError (Error "S3 is down")]).
Proof.
  split; [reflexivity |]. split; [reflexivity |].
  exact (upload_failure_stores_nothing (down S3) (janeForm (Some (mkFile "cv.pdf" pdfBytes)))
           (mkFile "cv.pdf" pdfBytes) "Jane Doe" (Error "S3 is down") []
           eq_refl eq_refl eq_refl eq_refl).
Defined.

(** X3: when appending the row throws, the handler answers 500 after the
    file has been put into the bucket: the upload is not undone, and no
    mail or webhook call follows. *)
Theorem sheet_failure_keeps_upload (w : World) (req : Request) (f : File)
    (text : string) (e : exn) (t : list effect) :
  file req = Some f ->
  supported (extension (originalname f)) = true ->
  parser w (extension (originalname f)) (buffer f) = Ok text ->
  send w (originalname f) (buffer f) = Ok tt ->
  append w (rowOf w req f text) = Throw e ->
  submit w req t
  = (Ok (mkResponse 500 "Error processing application."),
     t ++ [parseEffect (extension (originalname f)) (buffer f);
           Infer text;
           PutObject (originalname f) (buffer f);
           AppendRow (rowOf w req f text);
           ConsoleError e]).
Proof.
  intros Hf Hs Hp Hu Ha.
  rewrite (submit_parsed w req f text t Hf Hs Hp). cbv zeta.
  rewrite Hu, Ha, <- !List.app_assoc. reflexivity.
Qed.

Lemma sheet_failure_keeps_upload_witness :
  parser (down Sheets) (extension "cv.pdf") pdfBytes = Ok "Jane Doe"
  /\ send (down Sheets) "cv.pdf" pdfBytes = Ok tt
  /\ submit (down Sheets) (janeForm (Some (mkFile "cv.pdf" pdfBytes))) []
     = (Ok (mkResponse 500 "Error processing application."),
        [ParsePdf pdfBytes; Infer "Jane Doe"; PutObject "cv.pdf" pdfBytes;
         AppendRow ["Jane Doe"; "jane@example.com"; "555";
                    "https://bucket.s3.amazonaws.com/cv.pdf"; ""; ""; ""];
         ConsoleError (Error "Sheets is down")]).
Proof.
  split; [reflexivity |]. split; [reflexivity |].
  exact (sheet_failure_keeps_upload (down Sheets) (janeForm (Some (mkFile "cv.pdf" pdfBytes)))
           (mkFile "cv.pdf" pdfBytes) "Jane Doe" (Error "Sheets is down") []
           eq_refl eq_refl eq_refl eq_refl eq_refl).
Defined.

(** X4: when the webhook call throws, the handler answers 500 although the
    file has been uploaded, the row appended and the confirmation mail
    attempted. *)
Theorem webhook_failure_after_effects (w : World) (req : Request) (f : File)
    (text : string) (e : exn) (t : list effect) :
  file req = Some f ->
  supported (extension (originalname f)) = true ->
  parser w (extension (originalname f)) (buffer f) = Ok text ->
  send w (originalname f) (buffer f) = Ok tt ->
  append w (rowOf w req f text) = Ok tt ->
  fetch w (payloadOf w req f text) = Throw e ->
  submit w req t
  = (Ok (mkResponse 500 "Error processing application."),
     t ++ [parseEffect (extension (originalname f)) (buffer f);
           Infer text;
           PutObject (originalname f) (buffer f);
           AppendRow (rowOf w req f text);
           SendMail (formEmail req);
           mailLog w (formEmail req);
           Post (payloadOf w req f text);
           ConsoleError e]).
Proof.
  intros Hf Hs Hp Hu Ha Hw.
  rewrite (submit_parsed w req f text t Hf Hs Hp). cbv zeta.
  rewrite Hu, Ha, Hw, <- !List.app_assoc. reflexivity.
Qed.

Lemma webhook_failure_after_effects_witness :
  parser (down Hook) (extension "cv.pdf") pdfBytes = Ok "Jane Doe"
  /\ submit (down Hook) (janeForm (Some (mkFile "cv.pdf" pdfBytes))) []
     = (Ok (mkResponse 500 "Error processing application."),
        [ParsePdf pdfBytes; Infer "Jane Doe"; PutObject "cv.pdf" pdfBytes;
         AppendRow ["Jane Doe"; "jane@example.com"; "555";
                    "https://bucket.s3.amazonaws.com/cv.pdf"; ""; ""; ""];
         SendMail "jane@example.com";
         ConsoleLog "Email sent successfully to:";
         Post (mkWebhook "jane@example.com" (mkCvData "Jane Doe" "jane@example.com" "555")
                 [] [] [] "https://bucket.s3.amazonaws.com/cv.pdf"
                 "Jane Doe" "jane@example.com" "2025-01-01T00:00:00.000Z");
         ConsoleError (Error "webhook is down")]).
Proof.
  split; [reflexivity |].
  exact (webhook_failure_after_effects (down Hook)
           (janeForm (Some (mkFile "cv.pdf" pdfBytes)))
           (mkFile "cv.pdf" pdfBytes) "Jane Doe" (Error "webhook is down") []
           eq_refl eq_refl eq_refl eq_refl eq_refl eq_refl).
Defined.

(** X5: a multipart request without an uploaded file is answered with
    500: multer has set [req.body] and left [req.file] undefined, reading
    [file.buffer] throws inside the [try] block, the error is logged and
    nothing else happens. *)
Theorem submit_without_file (w : World) (req : Request) (form : Body)
    (t : list effect) :
  body req = Some form ->
  file req = None ->
  submit w req t
  = (Ok (mkResponse 500 "Error processing application."),
     t ++ [ConsoleError (TypeError "Cannot read properties of undefined")]).
Proof.
  destruct req as [name email phone upload|]; [| discriminate].
  cbn [file]. intros _ ->. apply submit_no_file.
Qed.

Lemma submit_without_file_witness :
  body (janeForm None) = Some (mkBody "Jane" "jane@example.com" "555")
  /\ file (janeForm None) = None
  /\ submit demo (janeForm None) [Infer "earlier request"]
     = (Ok (mkResponse 500 "Error processing application."),
        [Infer "earlier request";
         ConsoleError (TypeError "Cannot read properties of undefined")]).
Proof.
  split; [reflexivity |]. split; [reflexivity |].
  exact (submit_without_file demo (janeForm None) (mkBody "Jane" "jane@example.com" "555")
           [Infer "earlier request"] eq_refl eq_refl).
Defined.

(** X6: the handler answers the multipart requests and no others.  For a
    request with a body, whatever the parsers and the services do,
    [submit] returns a response and only adds to the trace: the success
    message with status 200, or the error message with status 500 after
    the error was written to the console last.  For a request without a
    body the destructuring before the [try] block throws: the TypeError
    leaves the handler, which has logged nothing, called nothing and sent
    no response. *)
Theorem submit_answers_multipart_only (w : World) (req : Request) (t : list effect) :
  match body req with
  | Some _ =>
      exists r t',
        submit w req t = (Ok r, t ++ t')
        /\ (r = mkResponse 200 "Application submitted successfully!"
            \/ (r = mkResponse 500 "Error processing application."
                /\ exists e t'', t' = t'' ++ [ConsoleError e]))
  | None =>
      exists e, submit w req t = (Throw (TypeError e), t)
  end.
Proof.
  destruct req as [name email phone upload|]; cbn [body];
    [| eexists; apply submit_no_body].
  set (req := mkRequest name email phone upload).
  destruct upload as [f|].
  2:{ eexists _, _. subst req. rewrite submit_no_file. split; [reflexivity |].
      right. split; [reflexivity |].
      now exists (TypeError "Cannot read properties of undefined"), []. }
  assert (Hf : file req = Some f) by reflexivity.
  destruct (supported (extension (originalname f))) eqn:Hs.
  2:{ eexists _, _. rewrite (submit_unsupported w req f t Hf Hs). split; [reflexivity |].
      right. split; [reflexivity |]. now eexists _, []. }
  destruct (parser w (extension (originalname f)) (buffer f)) as [text|e] eqn:Hp.
  - rewrite (submit_parsed w req f text t Hf Hs Hp). cbv zeta.
    destruct (send w (originalname f) (buffer f)) as [[]|e].
    2:{ eexists _, _. rewrite <- List.app_assoc. split; [reflexivity |].
        right. split; [reflexivity |]. now eexists _, _. }
    destruct (append w (rowOf w req f text)) as [[]|e].
    2:{ eexists _, _. rewrite <- !List.app_assoc. split; [reflexivity |].
        right. split; [reflexivity |]. eexists _, _. rewrite List.app_assoc. reflexivity. }
    destruct (fetch w (payloadOf w req f text)) as [b|e].
    + eexists _, _. rewrite <- !List.app_assoc. split; [reflexivity |]. now left.
    + eexists _, _. rewrite <- !List.app_assoc. split; [reflexivity |].
      right. split; [reflexivity |]. eexists _, _. rewrite List.app_assoc. reflexivity.
  - eexists _, _. rewrite (submit_unparsed w req f e t Hf Hs Hp). split; [reflexivity |].
    right. split; [reflexivity |]. now eexists _, [_].
Qed.

(** X7: the extension of a file name is its part behind the last dot, and
    the whole name when it has no dot.  So the extension never holds a dot,
    a file named just [pdf] counts as a PDF, and the comparison with [pdf]
    and [docx] is by exact characters. *)
Theorem extension_spec (originalname ext : string) :
  extension originalname = ext
  <-> Str.all (fun c => negb (Ascii.eqb c ".")) ext = true
      /\ (originalname = ext \/ exists stem, originalname = (stem ++ String "." ext)%string).
Proof.
  split.
  - intros <-. unfold extension.
    pose proof (split_pieces "." originalname) as Hp.
    pose proof (concat_split "." originalname) as Hc.
    destruct (exists_last (split_nonempty "." originalname)) as (init & l & E).
    rewrite E in Hp, Hc |- *. rewrite last_last.
    apply Forall_app in Hp as [_ Hl]. inversion Hl as [|? ? Hd _]. split; [exact Hd |].
    rewrite concat_snoc in Hc. destruct init as [|p0 init]; [now left |].
    right. exists (String.concat "." (p0 :: init)). now rewrite <- Hc.
  - intros [Hd [->|[stem ->]]].
    + unfold extension. now rewrite split_plain.
    + now apply extension_suffix.
Qed.

(** X8: [extractTextFromPDF] never throws.  It reads the file and hands
    the bytes to the parser; when reading or parsing throws, the error is
    logged and the result is the empty text, and after a failed read the
    parser is not called. *)
Theorem extractTextFromPDF_never_throws (w : World) (filePath : string)
    (t : list effect) :
  exists text t',
    extractTextFromPDF w filePath t = (Ok text, t ++ ReadFile filePath :: t')
    /\ match readFile w filePath with
       | Throw error => text = "" /\ t' = [ConsoleError error]
       | Ok dataBuffer =>
           match pdf w dataBuffer with
           | Ok s => text = s /\ t' = [ParsePdf dataBuffer]
           | Throw error => text = "" /\ t' = [ParsePdf dataBuffer; ConsoleError error]
           end
       end.
Proof.
  unfold extractTextFromPDF, tryCatch, bindM, emit, lift, ret.
  destruct (readFile w filePath) as [data|e].
  - destruct (pdf w data) as [s|e]; eexists _, _; rewrite <- !List.app_assoc;
      (split; [reflexivity | split; reflexivity]).
  - eexists _, _. rewrite <- !List.app_assoc. split; [reflexivity | split; reflexivity].
Qed.

(** X9: [extractTextFromDOCX] never throws: it returns the text that the
    converter gives for the file at the path, and when the file cannot be
    read or converted, the error is logged last and the result is the
    empty text. *)
Theorem extractTextFromDOCX_never_throws (w : World) (filePath : string)
    (t : list effect) :
  exists text t',
    extractTextFromDOCX w filePath t = (Ok text, t ++ t')
    /\ ((exists data, readFile w filePath = Ok data /\ extractRawText w data = Ok text)
        \/ (text = "" /\ exists error t'', t' = t'' ++ [ConsoleError error])).
Proof.
  unfold extractTextFromDOCX, tryCatch, bindM, emit, lift, ret.
  destruct (readFile w filePath) as [data|e] eqn:Er.
  - destruct (extractRawText w data) as [s|e] eqn:Ex; eexists _, _;
      rewrite <- !List.app_assoc; (split; [reflexivity |]).
    + left. now exists data.
    + right. split; [reflexivity |]. now eexists _, [_; _].
  - eexists _, _. rewrite <- !List.app_assoc. split; [reflexivity |].
    right. split; [reflexivity |]. now eexists _, [_].
Qed.

(** X10: [sendEmail] never throws: it calls [sendMail] once, for the
    address it was given, and logs either the success or the error of the
    call. *)
Theorem sendEmail_never_throws (w : World) (email : string) (t : list effect) :
  sendEmail w email t = (Ok tt, t ++ [SendMail email; mailLog w email]).
Proof.
  unfold sendEmail, mailLog, tryCatch, bindM, emit, lift.
  destruct (sendMail w email) as [[]|e]; rewrite <- !List.app_assoc; reflexivity.
Qed.

(** X20: a success answer is given only after the work is done: whenever
    [submit] answers 200, the file was there and was parsed, the upload,
    the row and the webhook call have returned, and the trace holds the
    seven effects of a complete submission, in their order. *)
Theorem success_only_after_effects (w : World) (req : Request) (t t' : list effect)
    (r : Response) :
  submit w req t = (Ok r, t') ->
  status r = 200 ->
  exists f text,
    file req = Some f
    /\ supported (extension (originalname f)) = true
    /\ parser w (extension (originalname f)) (buffer f) = Ok text
    /\ send w (originalname f) (buffer f) = Ok tt
    /\ append w (rowOf w req f text) = Ok tt
    /\ (exists ok, fetch w (payloadOf w req f text) = Ok ok)
    /\ t' = t ++ [parseEffect (extension (originalname f)) (buffer f);
                  Infer text;
                  PutObject (originalname f) (buffer f);
                  AppendRow (rowOf w req f text);
                  SendMail (formEmail req);
                  mailLog w (formEmail req);
                  Post (payloadOf w req f text)].
Proof.
  intros H Hr.
  destruct (file req) as [f|] eqn:Hf.
  2:{ destruct req as [name email phone upload|].
      - cbn [file] in Hf. subst upload. rewrite submit_no_file in H.
        injection H as <- _. discriminate.
      - rewrite submit_no_body in H. discriminate. }
  destruct (supported (extension (originalname f))) eqn:Hs.
  2:{ rewrite (submit_unsupported w req f t Hf Hs) in H.
      injection H as <- _. discriminate. }
  destruct (parser w (extension (originalname f)) (buffer f)) as [text|e] eqn:Hp.
  - rewrite (submit_parsed w req f text t Hf Hs Hp) in H. cbv zeta in H.
    destruct (send w (originalname f) (buffer f)) as [[]|e] eqn:Hu;
      [| injection H as <- _; discriminate].
    destruct (append w (rowOf w req f text)) as [[]|e] eqn:Ha;
      [| injection H as <- _; discriminate].
    destruct (fetch w (payloadOf w req f text)) as [ok|e] eqn:Hw;
      [| injection H as <- _; discriminate].
    injection H as _ <-. exists f, text.
    repeat (split; [reflexivity || assumption || eauto |]).
    now rewrite <- List.app_assoc.
  - rewrite (submit_unparsed w req f e t Hf Hs Hp) in H.
    injection H as <- _. discriminate.
Qed.

Lemma success_only_after_effects_witness :
  exists f text,
    file (janeForm (Some (mkFile "cv.pdf" pdfBytes))) = Some f
    /\ parser demo (extension (originalname f)) (buffer f) = Ok text
    /\ fst (submit demo (janeForm (Some (mkFile "cv.pdf" pdfBytes))) [])
       = Ok (mkResponse 200 "Application submitted successfully!").
Proof.
  destruct (success_only_after_effects demo (janeForm (Some (mkFile "cv.pdf" pdfBytes))) []
              (snd (submit demo (janeForm (Some (mkFile "cv.pdf" pdfBytes))) []))
              (mkResponse 200 "Application submitted successfully!")
              eq_refl eq_refl)
    as (f & text & Hf & _ & Hp & _).
  exists f, text. split; [exact Hf |]. split; [exact Hp |]. reflexivity.
Defined.

End HandlerProps.

(** ** The matcher stays inside the language of the pattern *)

Module LanguageFacts.

Import Pattern Patterns Props Language.
Import CharFacts StrFacts MatcherFacts ScanFacts PrefixFacts.

Lemma within_pred n mx :
  isZero mx = false -> within n (option_map pred mx) -> within (S n) mx.
Proof. destruct mx as [[|k]|]; simpl; try discriminate; intros; lia. Qed.

Lemma repeat_lang (L : string -> Prop)
    (m : state -> (state -> option state) -> option state) (ns : list nat) :
  (forall x c z, m x c = Some z -> behind L c x z) ->
  forall greedy c fuel mn mx x z,
    within mn mx ->
    repeatMatcher m ns greedy c fuel mn mx x = Some z ->
    behind (fun w => exists n, mn <= n /\ within n mx /\ iter L n w) c x z.
Proof.
  intros Hm greedy c fuel.
  induction fuel as [|fuel IH]; intros mn mx x z Hw H; simpl in H; [discriminate |].
  assert (Hc : mn = 0 -> c x = Some z ->
               behind (fun w => exists n, mn <= n /\ within n mx /\ iter L n w) c x z).
  { intros -> E. exists x, "". split; [exact E |]. split; [reflexivity |].
    split; [simpl; lia |]. exists 0. split; [lia |]. split; [| reflexivity].
    destruct mx; simpl; [lia | exact I]. }
  assert (Hd : isZero mx = false ->
               m (clear ns x)
                 (fun y => if (mn =? 0) && (endIndex y =? endIndex x) then None
                           else repeatMatcher m ns greedy c fuel (pred mn)
                                  (option_map pred mx) y) = Some z ->
               behind (fun w => exists n, mn <= n /\ within n mx /\ iter L n w) c x z).
  { intros Hz E. apply Hm in E as (y & w & Ey & Ry & Iy & Lw).
    destruct ((mn =? 0) && (endIndex y =? endIndex x)); [discriminate |].
    apply IH in Ey as (y' & w' & Ey' & Ry' & Iy' & n & Hn & Hx & Hi).
    - exists y', (w ++ w')%string. split; [exact Ey' |]. simpl in Ry, Iy.
      split; [now rewrite Ry, Ry', StrFacts.app_assoc |].
      split; [rewrite StrFacts.length_app; lia |].
      exists (S n). split; [lia |]. split; [now apply within_pred |].
      now exists w, w'.
    - destruct mx as [[|k]|]; simpl in *; try discriminate; auto; lia. }
  destruct (isZero mx) eqn:Hz.
  { destruct mx as [[|k]|]; try discriminate. simpl in Hw.
    apply Hc; [lia | exact H]. }
  destruct (mn =? 0) eqn:H0; simpl in H; [| now apply Hd].
  apply Nat.eqb_eq in H0.
  destruct greedy.
  - destruct (m (clear ns x) _) eqn:E; [| now apply Hc].
    injection H as ->. now apply Hd.
  - destruct (c x) eqn:E; [injection H as ->; now apply Hc | now apply Hd].
Qed.

(** Soundness with respect to the language: a result comes from the
    continuation, called behind a word of the pattern. *)
Lemma lang_sound i r :
  wellFormed r = true ->
  forall x c z, matcher i r x c = Some z -> behind (lang i r) c x z.
Proof.
  induction r as [| a | cs | r1 IH1 r2 IH2 | r1 IH1 r2 IH2
                  | mn mx g r1 IH1 | n r1 IH1 | r1 IH1 |];
    intros Hwf x c z H; [simpl in H .. | | simpl in H | simpl in H | simpl in H].
  - exists x, "". split; [exact H |]. split; [reflexivity |]. split; [simpl; lia |].
    reflexivity.
  - destruct (rest x) as [|ch s'] eqn:Ex; [discriminate |].
    destruct (charMatch i a ch) eqn:Ec; [| discriminate].
    exists (advance x s'), (String ch ""). split; [exact H |]. split; [exact Ex |].
    split; [simpl; lia |]. now exists ch.
  - destruct (rest x) as [|ch s'] eqn:Ex; [discriminate |].
    destruct (classMatch i cs ch) eqn:Ec; [| discriminate].
    exists (advance x s'), (String ch ""). split; [exact H |]. split; [exact Ex |].
    split; [simpl; lia |]. now exists ch.
  - simpl in Hwf. apply andb_true_iff in Hwf as [W1 W2].
    apply (IH1 W1) in H as (y & w & Hy & Ry & Iy & Lw).
    apply (IH2 W2) in Hy as (y' & w' & Hy' & Ry' & Iy' & Lw').
    exists y', (w ++ w')%string. split; [exact Hy' |].
    split; [now rewrite Ry, Ry', StrFacts.app_assoc |].
    split; [rewrite StrFacts.length_app; lia |].
    now exists w, w'.
  - simpl in Hwf. apply andb_true_iff in Hwf as [W1 W2].
    destruct (matcher i r1 x c) eqn:E1.
    + injection H as ->. apply (IH1 W1) in E1 as (y & w & Hy & Ry & Iy & Lw).
      exists y, w. split; [exact Hy |]. split; [exact Ry |]. split; [exact Iy |]. now left.
    + apply (IH2 W2) in H as (y & w & Hy & Ry & Iy & Lw).
      exists y, w. split; [exact Hy |]. split; [exact Ry |]. split; [exact Iy |]. now right.
  - simpl in Hwf. apply andb_true_iff in Hwf as [W0 W1].
    apply (repeat_lang _ _ _ (IH1 W1)) in H; [exact H |].
    destruct mx; simpl; [now apply Nat.leb_le | exact I].
  - apply (IH1 Hwf) in H as (y & w & Hy & Ry & Iy & Lw).
    eexists _, w. split; [exact Hy |]. split; [exact Ry |]. split; [exact Iy |]. exact Lw.
  - destruct (matcher i r1 x Some) as [y|] eqn:E1; [| discriminate].
    eexists _, "". split; [exact H |]. split; [reflexivity |]. split; [simpl; lia |].
    reflexivity.
  - destruct (rest x) eqn:Ex; [| discriminate].
    exists x, "". split; [exact H |]. split; [reflexivity |]. split; [simpl; lia |].
    reflexivity.
Qed.

(** *** Counting characters in the words of a pattern *)

Lemma count_app p (a b : string) : count p (a ++ b) = count p a + count p b.
Proof. induction a as [|c a IH]; simpl; [reflexivity | rewrite IH; lia]. Qed.

Lemma count_length (s : string) : count (fun _ => true) s = String.length s.
Proof. induction s as [|c s IH]; simpl; [reflexivity | now rewrite IH]. Qed.

Lemma count_none p (s : string) :
  Str.all (fun c => negb (p c)) s = true -> count p s = 0.
Proof.
  induction s as [|c s IH]; simpl; [reflexivity |].
  intros H. apply andb_true_iff in H as [Hc Hs]. apply negb_true_iff in Hc.
  now rewrite Hc, IH.
Qed.

Lemma count_le p (s : string) : count p s <= String.length s.
Proof. induction s as [|c s IH]; simpl; [lia | destruct (p c); lia]. Qed.

Lemma ascii_none (f : ascii -> bool) :
  existsb f allAscii = false -> forall c, f c = false.
Proof.
  intros H c.
  assert (E : forallb (fun a => negb (f a)) allAscii = true).
  { revert H. generalize allAscii. induction l as [|a l IH]; simpl; [reflexivity |].
    intros H. apply orb_false_iff in H as [Ha Hl]. now rewrite Ha, IH. }
  pose proof (ascii_forall _ E c) as Hc. now apply negb_true_iff in Hc.
Qed.

Lemma iter_count p (L : string -> Prop) lo hi :
  (forall w, L w -> lo <= count p w /\ within (count p w) hi) ->
  forall n w, iter L n w ->
    n * lo <= count p w
    /\ match hi with Some h => count p w <= n * h | None => True end.
Proof.
  intros HL. induction n as [|n IH]; intros w H; simpl in H.
  - subst w. simpl. destruct hi; auto.
  - destruct H as (w1 & w2 & -> & H1 & H2).
    apply HL in H1 as [A1 B1]. apply IH in H2 as [A2 B2].
    rewrite count_app. split; [simpl; lia |].
    destruct hi; [simpl in *; lia | exact I].
Qed.

Lemma lang_count p i r : forall w,
  lang i r w -> atLeast p i r <= count p w /\ within (count p w) (atMost p i r).
Proof.
  induction r as [| a | cs | r1 IH1 r2 IH2 | r1 IH1 r2 IH2
                  | mn mx g r1 IH1 | n r1 IH1 | r1 IH1 |]; intros w H; simpl in H.
  - subst w. simpl. lia.
  - destruct H as (ch & -> & Hc). cbn [atLeast atMost within count].
    split.
    + destruct (forallb _ allAscii) eqn:E; [| lia].
      now rewrite (ascii_impl _ _ E ch Hc).
    + destruct (existsb _ allAscii) eqn:E; [destruct (p ch); simpl; lia |].
      pose proof (ascii_none _ E ch) as F. cbn [accepts] in F.
      rewrite Hc in F. simpl in F. rewrite F. simpl. lia.
  - destruct H as (ch & -> & Hc). cbn [atLeast atMost within count].
    split.
    + destruct (forallb _ allAscii) eqn:E; [| lia].
      now rewrite (ascii_impl _ _ E ch Hc).
    + destruct (existsb _ allAscii) eqn:E; [destruct (p ch); simpl; lia |].
      pose proof (ascii_none _ E ch) as F. cbn [accepts] in F.
      rewrite Hc in F. simpl in F. rewrite F. simpl. lia.
  - destruct H as (w1 & w2 & -> & H1 & H2).
    apply IH1 in H1 as [A1 B1]. apply IH2 in H2 as [A2 B2].
    rewrite count_app. cbn [atLeast atMost]. split; [lia |].
    destruct (atMost p i r1), (atMost p i r2); simpl in *; auto; lia.
  - cbn [atLeast atMost].
    destruct H as [H|H]; [apply IH1 in H as [A B] | apply IH2 in H as [A B]];
      (split; [lia |]);
      destruct (atMost p i r1), (atMost p i r2); simpl in *; auto; lia.
  - destruct H as (n & Hn & Hx & Hi).
    apply (iter_count p _ _ _ IH1) in Hi as [A B]. cbn [atLeast atMost].
    split; [nia |].
    destruct (atMost p i r1) as [[|h]|]; simpl; [lia | | exact I].
    destruct mx as [k|]; simpl in *; [nia | exact I].
  - cbn [atLeast atMost]. now apply IH1.
  - subst w. simpl. lia.
  - subst w. simpl. lia.
Qed.

Lemma lang_length i r w :
  lang i r w -> atLeast (fun _ => true) i r <= String.length w.
Proof. intros H. rewrite <- count_length. now apply lang_count. Qed.

(** *** The ends of the words of a pattern *)

Lemma first_app (a b : string) :
  first (a ++ b) = match first a with Some c => Some c | None => first b end.
Proof. destruct a; reflexivity. Qed.

Lemma final_app (a b : string) :
  final (a ++ b) = match final b with Some d => Some d | None => final a end.
Proof.
  induction a as [|c a IH]; simpl; [now destruct (final b) |].
  rewrite IH. destruct (final b); [reflexivity |]. now destruct (final a).
Qed.

Lemma first_none (s : string) : first s = None -> s = "".
Proof. destruct s; [reflexivity | discriminate]. Qed.

Lemma final_none (s : string) : final s = None -> s = "".
Proof. destruct s as [|c s]; [reflexivity |]. simpl. destruct (final s); discriminate. Qed.

Lemma lang_begins q i r : forall w c,
  begins q i r = true -> lang i r w -> first w = Some c -> q c = true.
Proof.
  induction r as [| a | cs | r1 IH1 r2 IH2 | r1 IH1 r2 IH2
                  | mn mx g r1 IH1 | n r1 IH1 | r1 IH1 |];
    intros w c B H F; simpl in H, B.
  - subst w. discriminate.
  - destruct H as (ch & -> & Hc). injection F as <-.
    exact (ascii_impl _ _ B ch Hc).
  - destruct H as (ch & -> & Hc). injection F as <-.
    exact (ascii_impl _ _ B ch Hc).
  - destruct H as (w1 & w2 & -> & H1 & H2). rewrite first_app in F.
    apply andb_true_iff in B as [B1 B2].
    destruct (first w1) as [d|] eqn:E1.
    + injection F as <-. exact (IH1 _ _ B1 H1 E1).
    + apply first_none in E1. subst w1.
      apply lang_length in H1. simpl in H1.
      apply orb_true_iff in B2 as [B2|B2]; [apply Nat.ltb_lt in B2; lia |].
      exact (IH2 _ _ B2 H2 F).
  - apply andb_true_iff in B as [B1 B2].
    destruct H as [H|H]; [exact (IH1 _ _ B1 H F) | exact (IH2 _ _ B2 H F)].
  - destruct H as (n & _ & _ & Hi). revert w Hi F.
    induction n as [|n IHn]; intros w Hi F; simpl in Hi; [subst w; discriminate |].
    destruct Hi as (w1 & w2 & -> & H1 & H2). rewrite first_app in F.
    destruct (first w1) as [d|] eqn:E1.
    + injection F as <-. exact (IH1 _ _ B H1 E1).
    + exact (IHn _ H2 F).
  - exact (IH1 _ _ B H F).
  - subst w. discriminate.
  - subst w. discriminate.
Qed.

Lemma lang_ends q i r : forall w c,
  ends q i r = true -> lang i r w -> final w = Some c -> q c = true.
Proof.
  induction r as [| a | cs | r1 IH1 r2 IH2 | r1 IH1 r2 IH2
                  | mn mx g r1 IH1 | n r1 IH1 | r1 IH1 |];
    intros w c B H F; simpl in H, B.
  - subst w. discriminate.
  - destruct H as (ch & -> & Hc). injection F as <-.
    exact (ascii_impl _ _ B ch Hc).
  - destruct H as (ch & -> & Hc). injection F as <-.
    exact (ascii_impl _ _ B ch Hc).
  - destruct H as (w1 & w2 & -> & H1 & H2). rewrite final_app in F.
    apply andb_true_iff in B as [B2 B1].
    destruct (final w2) as [d|] eqn:E2.
    + injection F as <-. exact (IH2 _ _ B2 H2 E2).
    + apply final_none in E2. subst w2.
      apply lang_length in H2. simpl in H2.
      apply orb_true_iff in B1 as [B1|B1]; [apply Nat.ltb_lt in B1; lia |].
      exact (IH1 _ _ B1 H1 F).
  - apply andb_true_iff in B as [B1 B2].
    destruct H as [H|H]; [exact (IH1 _ _ B1 H F) | exact (IH2 _ _ B2 H F)].
  - destruct H as (n & _ & _ & Hi). revert w Hi F.
    induction n as [|n IHn]; intros w Hi F; simpl in Hi; [subst w; discriminate |].
    destruct Hi as (w1 & w2 & -> & H1 & H2). rewrite final_app in F.
    destruct (final w2) as [d|] eqn:E2.
    + injection F as <-. exact (IHn _ H2 E2).
    + exact (IH1 _ _ B H1 F).
  - exact (IH1 _ _ B H F).
  - subst w. discriminate.
  - subst w. discriminate.
Qed.

Lemma lang_allowed i r : forall w, lang i r w -> Str.all (allowed i r) w = true.
Proof.
  induction r as [| a | cs | r1 IH1 r2 IH2 | r1 IH1 r2 IH2
                  | mn mx g r1 IH1 | n r1 IH1 | r1 IH1 |]; intros w H; simpl in H.
  - now subst w.
  - destruct H as (ch & -> & Hc). simpl. now rewrite Hc.
  - destruct H as (ch & -> & Hc). simpl. now rewrite Hc.
  - destruct H as (w1 & w2 & -> & H1 & H2). rewrite StrFacts.all_app.
    apply andb_true_iff. split.
    + eapply StrFacts.all_mono; [| exact (IH1 _ H1)]. simpl. now intros ch ->.
    + eapply StrFacts.all_mono; [| exact (IH2 _ H2)]. simpl. intros ch ->.
      apply orb_true_r.
  - destruct H as [H|H].
    + eapply StrFacts.all_mono; [| exact (IH1 _ H)]. simpl. now intros ch ->.
    + eapply StrFacts.all_mono; [| exact (IH2 _ H)]. simpl. intros ch ->.
      apply orb_true_r.
  - destruct H as (n & _ & _ & Hi). revert w Hi.
    induction n as [|n IHn]; intros w Hi; simpl in Hi; [now subst w |].
    destruct Hi as (w1 & w2 & -> & H1 & H2). rewrite StrFacts.all_app.
    apply andb_true_iff. split; [exact (IH1 _ H1) | exact (IHn _ H2)].
  - exact (IH1 _ H).
  - now subst w.
  - now subst w.
Qed.

(** *** Matches and captures *)

(** A match is a part of the text and a word of the pattern. *)
Lemma exec_lang re text mr :
  wellFormed (source re) = true -> exec re text = Some mr ->
  lang (ignoreCase re) (source re) (whole mr)
  /\ exists pre post, text = (pre ++ whole mr ++ post)%string
                      /\ String.length pre = index mr.
Proof.
  intros Hwf H. apply scan_some in H as (k & e & Hk & Hi & He & Hw & _ & _).
  apply (lang_sound _ _ Hwf) in He as (y & w & Hy & Ry & Iy & Lw).
  injection Hy as ->. unfold start in Ry, Iy. simpl in Ry, Iy, Hw.
  assert (E : whole mr = w).
  { rewrite Hw, Ry. replace (endIndex e - k) with (String.length w) by lia.
    apply StrFacts.take_app. }
  rewrite E. split; [exact Lw |].
  destruct (drop_cut k text Hk) as (q & Hq & Lq).
  exists q, (rest e). split; [| lia]. now rewrite <- Ry.
Qed.

(** What a group that ends the pattern has captured is the word of the
    group. *)
Lemma group_lang i n r x z :
  wellFormed r = true ->
  matcher i (Grp n r) x Some = Some z ->
  exists w, lang i r w /\ lookup n (captures z) = Some w
            /\ rest x = (w ++ rest z)%string.
Proof.
  intros Hwf H. simpl in H.
  apply (lang_sound _ _ Hwf) in H as (y & w & Hy & Ry & Iy & Lw).
  injection Hy as <-. exists w. split; [exact Lw |]. simpl.
  rewrite Nat.eqb_refl. split; [| exact Ry].
  rewrite Ry. replace (endIndex y - endIndex x) with (String.length w) by lia.
  now rewrite StrFacts.take_app.
Qed.

(** In a match of a labelled pattern whose value is one group, the group
    holds a word of the value pattern, and the match ends with it. *)
Lemma labelled_group label n r text m :
  wellFormed r = true ->
  exec (mkRegExp (labelled label (Grp n r)) true) text = Some m ->
  exists w, lang true r w /\ group n m = Some w.
Proof.
  intros Hwf H. apply scan_some in H as (k & e & _ & _ & He & _ & Hc & _).
  cbn [source ignoreCase] in He.
  apply LabelFacts.labelled_sound in He as (y & w0 & l & Hy & _).
  apply (group_lang _ _ _ _ _ Hwf) in Hy as (w & Lw & Hl & _).
  exists w. split; [exact Lw |]. unfold group. now rewrite Hc.
Qed.

(** *** Texts that [trim] leaves alone *)

Lemma trimEnd_fixed (s : string) c :
  final s = Some c -> Char.isWhiteSpace c = false -> Str.trimEnd s = s.
Proof.
  induction s as [|a s IH]; [discriminate |]. intros F Hc. cbn [final] in F.
  cbn [Str.trimEnd]. destruct (final s) as [d|] eqn:E.
  - rewrite (IH F Hc). destruct s; [discriminate | reflexivity].
  - apply final_none in E. subst s. injection F as ->. simpl. now rewrite Hc.
Qed.

Lemma trim_fixed (s : string) a b :
  first s = Some a -> Char.isWhiteSpace a = false ->
  final s = Some b -> Char.isWhiteSpace b = false ->
  Str.trim s = s.
Proof.
  intros Fa Ha Fb Hb. unfold Str.trim.
  destruct s as [|c s]; [discriminate |]. injection Fa as ->.
  cbn [Str.trimStart]. rewrite Ha. exact (trimEnd_fixed _ _ Fb Hb).
Qed.

Lemma count_trimStart p (s : string) :
  (forall c, Char.isWhiteSpace c = true -> p c = false) ->
  count p (Str.trimStart s) = count p s.
Proof.
  intros Hp. induction s as [|c s IH]; [reflexivity |]. cbn [Str.trimStart].
  destruct (Char.isWhiteSpace c) eqn:E; [| reflexivity].
  simpl. now rewrite (Hp c E), IH.
Qed.

Lemma count_trimEnd p (s : string) :
  (forall c, Char.isWhiteSpace c = true -> p c = false) ->
  count p (Str.trimEnd s) = count p s.
Proof.
  intros Hp. induction s as [|c s IH]; [reflexivity |]. cbn [Str.trimEnd].
  destruct (Str.trimEnd s) as [|d t] eqn:E.
  - simpl in IH. destruct (Char.isWhiteSpace c) eqn:Ec.
    + simpl. rewrite (Hp c Ec), <- IH. reflexivity.
    + simpl. now rewrite <- IH.
  - simpl in *. now rewrite IH.
Qed.

Lemma count_trim p (s : string) :
  (forall c, Char.isWhiteSpace c = true -> p c = false) ->
  count p (Str.trim s) = count p s.
Proof.
  intros Hp. unfold Str.trim. now rewrite count_trimEnd, count_trimStart.
Qed.

End LanguageFacts.

(** ** The shape of the personal fields *)

Module ShapeFacts.

Import Pattern Patterns Js Server Props Language.
Import CharFacts StrFacts MatcherFacts ScanFacts CaptureFacts LabelFacts PrefixFacts
  LanguageFacts.

Lemma lang_seq i r1 r2 w :
  lang i (Seq r1 r2) w ->
  exists w1 w2, w = (w1 ++ w2)%string /\ lang i r1 w1 /\ lang i r2 w2.
Proof. intros H. exact H. Qed.

Lemma charMatch_exact a ch :
  forallb (fun c => implb (charMatch true a c) (Ascii.eqb c a)) allAscii = true ->
  charMatch true a ch = true -> ch = a.
Proof.
  intros Ha Hc. pose proof (ascii_impl _ _ Ha ch Hc) as E.
  now apply Ascii.eqb_eq in E.
Qed.

Lemma all_first p (s : string) a :
  Str.all p s = true -> first s = Some a -> p a = true.
Proof.
  destruct s as [|c s]; [discriminate |]. simpl. intros H E.
  injection E as <-. now apply andb_true_iff in H.
Qed.

Lemma all_final p (s : string) b :
  Str.all p s = true -> final s = Some b -> p b = true.
Proof.
  induction s as [|c s IH]; [discriminate |]. simpl. intros H E.
  apply andb_true_iff in H as [Hc Hs].
  destruct (final s) as [d|]; [now apply IH | now injection E as <-].
Qed.

Lemma first_some (s : string) : s <> "" -> exists a, first s = Some a.
Proof. destruct s as [|c s]; [contradiction | now exists c]. Qed.

Lemma final_some (s : string) : s <> "" -> exists b, final s = Some b.
Proof.
  destruct s as [|c s]; [contradiction |]. intros _. simpl.
  destruct (final s) as [d|]; eauto.
Qed.

Lemma length_nonempty (s : string) : 1 <= String.length s -> s <> "".
Proof. destruct s; simpl; [lia | discriminate]. Qed.

(** The words of the name pattern. *)
Lemma name_words w :
  lang true (nameWords 2) w ->
  Str.all nameChar w = true
  /\ (exists a, first w = Some a /\ Char.isLetter a = true)
  /\ (exists b, final w = Some b /\ Char.isLetter b = true)
  /\ 1 <= count Char.isWhiteSpace w
  /\ 4 <= count Char.isLetter w.
Proof.
  intros H.
  pose proof (lang_count Char.isLetter _ _ _ H) as [L4 _].
  pose proof (lang_count Char.isWhiteSpace _ _ _ H) as [W1 _].
  pose proof (lang_length _ _ _ H) as Hl.
  assert (E4 : atLeast Char.isLetter true (nameWords 2) = 4) by (vm_compute; reflexivity).
  assert (E1 : atLeast Char.isWhiteSpace true (nameWords 2) = 1) by (vm_compute; reflexivity).
  assert (E5 : atLeast (fun _ => true) true (nameWords 2) = 5) by (vm_compute; reflexivity).
  rewrite E4 in L4. rewrite E1 in W1. rewrite E5 in Hl.
  assert (Hne : w <> "") by (apply length_nonempty; lia).
  split.
  { eapply StrFacts.all_mono; [| exact (lang_allowed _ _ _ H)].
    apply ascii_impl. vm_compute. reflexivity. }
  split.
  { destruct (first_some w Hne) as [a Ha]. exists a. split; [exact Ha |].
    refine (lang_begins Char.isLetter true (nameWords 2) w a _ H Ha).
    vm_compute. reflexivity. }
  split.
  { destruct (final_some w Hne) as [b Hb]. exists b. split; [exact Hb |].
    refine (lang_ends Char.isLetter true (nameWords 2) w b _ H Hb).
    vm_compute. reflexivity. }
  split; assumption.
Qed.

Lemma letter_not_space c : Char.isLetter c = true -> Char.isWhiteSpace c = false.
Proof.
  intros H. apply negb_true_iff. revert c H. apply ascii_impl.
  vm_compute. reflexivity.
Qed.

Lemma space_not_digit c : Char.isWhiteSpace c = true -> Char.isDigit c = false.
Proof.
  intros H. apply negb_true_iff. revert c H. apply ascii_impl.
  vm_compute. reflexivity.
Qed.

(** The words of the address pattern. *)
Lemma address_words g w :
  lang true (address g) w ->
  exists l d tld,
    w = (l ++ "@" ++ d ++ "." ++ tld)%string
    /\ l <> "" /\ Str.all localOk l = true
    /\ d <> "" /\ Str.all domainOk d = true
    /\ 2 <= String.length tld /\ Str.all Char.isLetter tld = true.
Proof.
  intros H. unfold address in H. cbn [lang cat] in H.
  destruct H as (l & w1 & -> & Hl & at' & w2 & -> & (ch & -> & Ha)
                 & d & w3 & -> & Hd & dot & w4 & -> & (ch' & -> & Ho)
                 & tld & w5 & -> & Ht & ->).
  apply charMatch_exact in Ha; [| vm_compute; reflexivity].
  apply charMatch_exact in Ho; [| vm_compute; reflexivity].
  subst ch ch'. exists l, d, tld.
  split; [now rewrite StrFacts.app_nil_r |].
  pose proof (lang_length _ _ _ Hl) as Ll.
  pose proof (lang_length _ _ _ Hd) as Ld.
  pose proof (lang_length _ _ _ Ht) as Lt.
  match type of Ll with ?n <= _ =>
    assert (E1 : n = 1) by (vm_compute; reflexivity); rewrite E1 in Ll end.
  match type of Ld with ?n <= _ =>
    assert (E2 : n = 1) by (vm_compute; reflexivity); rewrite E2 in Ld end.
  match type of Lt with ?n <= _ =>
    assert (E3 : n = 2) by (vm_compute; reflexivity); rewrite E3 in Lt end.
  split; [apply length_nonempty; exact Ll |].
  split.
  { eapply StrFacts.all_mono; [| exact (lang_allowed _ _ _ Hl)].
    apply ascii_impl. vm_compute. reflexivity. }
  split; [apply length_nonempty; exact Ld |].
  split.
  { eapply StrFacts.all_mono; [| exact (lang_allowed _ _ _ Hd)].
    apply ascii_impl. vm_compute. reflexivity. }
  split; [exact Lt |].
  eapply StrFacts.all_mono; [| exact (lang_allowed _ _ _ Ht)].
  apply ascii_impl. vm_compute. reflexivity.
Qed.

(** Taking out a match of a pattern that consumes no character in [p]
    keeps the characters in [p]. *)
Lemma count_remove p re (s : string) :
  wellFormed (source re) = true ->
  atMost p (ignoreCase re) (source re) = Some 0 ->
  count p (remove re s) = count p s.
Proof.
  intros Hwf H0. unfold remove. destruct (exec re s) as [mr|] eqn:E; [| reflexivity].
  apply (exec_lang _ _ _ Hwf) in E as (Lw & pre & post & Es & Lp).
  pose proof (lang_count p _ _ _ Lw) as [_ B]. rewrite H0 in B. simpl in B.
  rewrite <- Lp. rewrite Es at 1 2.
  rewrite StrFacts.take_app.
  rewrite <- StrFacts.length_app, <- StrFacts.app_assoc, StrFacts.drop_app.
  rewrite Es, !count_app. lia.
Qed.

End ShapeFacts.

(** ** Properties of the personal fields *)

Module ShapeProps.

Import Pattern Patterns Js Server Props Language.
Import CharFacts StrFacts MatcherFacts ScanFacts CaptureFacts LabelFacts PrefixFacts
  LanguageFacts ShapeFacts.

(** X11: where the name pattern matches, the name is the second group of
    the leftmost match as it stands ([trim] removes nothing): it is made of
    letters and white space only, starts and ends with a letter, and has
    white space inside and at least four letters, so it is at least two
    words of two letters or more. *)
Theorem name_of_pattern_shape (nlp : Tagger) (text : string) (m : matchResult) :
  exec nameRegex text = Some m ->
  exists info,
    extractPersonalInfo nlp (VString text) = Ok info
    /\ group 2 m = Some (name info)
    /\ Str.all nameChar (name info) = true
    /\ (exists a, first (name info) = Some a /\ Char.isLetter a = true)
    /\ (exists b, final (name info) = Some b /\ Char.isLetter b = true)
    /\ 1 <= count Char.isWhiteSpace (name info)
    /\ 4 <= count Char.isLetter (name info).
Proof.
  intros H. rewrite extractPersonalInfo_string. eexists. split; [reflexivity |].
  cbn [name]. unfold nameOf. rewrite H.
  destruct (labelled_group (alts (Lit "Name") [Lit "NAME"]) 2
              (cat [upper; Plus lower; Plus (cat [Plus ws; upper; Plus lower])])
              text m eq_refl H) as (w & Lw & Hg).
  unfold capture. rewrite Hg.
  destruct (name_words w Lw) as (A & (a & Fa & La) & (b & Fb & Lb) & W & L).
  rewrite (trim_fixed w a b Fa (letter_not_space a La) Fb (letter_not_space b Lb)).
  split; [reflexivity |]. split; [exact A |].
  split; [now exists a |]. split; [now exists b |]. split; assumption.
Qed.

Lemma name_of_pattern_shape_witness :
  exec nameRegex "Resume of jane   van der Berg, 2024"
  = Some (mkMatch 0 "Resume of jane   van der Berg"
            [(2, Some "Resume of jane   van der Berg")])
  /\ exists info,
       extractPersonalInfo silent (VString "Resume of jane   van der Berg, 2024") = Ok info
       /\ name info = "Resume of jane   van der Berg"
       /\ count Char.isWhiteSpace (name info) = 7.
Proof.
  split; [vm_compute; reflexivity |].
  destruct (name_of_pattern_shape silent "Resume of jane   van der Berg, 2024"
              (mkMatch 0 "Resume of jane   van der Berg"
                 [(2, Some "Resume of jane   van der Berg")]) eq_refl)
    as (info & Hi & Hg & _).
  exists info. split; [exact Hi |].
  injection Hg as <-. split; reflexivity.
Defined.

(** X12: the email field is empty, which is the case exactly when no part
    of the text has the shape of an address, or it is an address: a
    non-empty local part of letters, digits and [._%+-], one [@], a
    non-empty domain of letters, digits, dots and hyphens, a dot and at
    least two letters. *)
Theorem email_is_address (nlp : Tagger) (text : string) :
  exists info,
    extractPersonalInfo nlp (VString text) = Ok info
    /\ ((exec emailFallbackRegex text = None /\ email info = "")
        \/ (exec emailFallbackRegex text <> None
            /\ exists l d tld,
                 email info = (l ++ "@" ++ d ++ "." ++ tld)%string
                 /\ l <> "" /\ Str.all localOk l = true
                 /\ d <> "" /\ Str.all domainOk d = true
                 /\ 2 <= String.length tld /\ Str.all Char.isLetter tld = true)).
Proof.
  rewrite extractPersonalInfo_string. eexists. split; [reflexivity |].
  cbn [email]. unfold emailOf.
  destruct (exec emailRegex text) as [m|] eqn:E.
  - right. split.
    { apply email_occurs. unfold occurs. congruence. }
    destruct (labelled_group (alts (Lit "Email") [Lit "EMAIL"]) 2
                (cat [Plus (Cls localPart); Chr "@";
                      Plus (Cls [CRange "a" "z"; CRange "A" "Z"; CRange "0" "9";
                                 CChar "."; CChar "-"]);
                      Chr "."; AtLeast 2 (Cls [CRange "a" "z"; CRange "A" "Z"])])
                text m eq_refl E) as (w & Lw & Hg).
    unfold capture. rewrite Hg.
    destruct (address_words 2 w Lw) as (l & d & tld & -> & Nl & Al & Nd & Ad & Lt & At).
    exists l, d, tld.
    split; [| repeat (split; [assumption |]); assumption].
    destruct (first_some l Nl) as [a Fa].
    assert (Nt : tld <> "") by (apply length_nonempty; lia).
    destruct (final_some tld Nt) as [b Fb].
    apply (trim_fixed _ a b).
    + rewrite first_app, Fa. reflexivity.
    + pose proof (all_first _ _ _ Al Fa) as Ha. apply negb_true_iff.
      refine (ascii_impl localOk (fun c => negb (Char.isWhiteSpace c)) _ a Ha).
      vm_compute. reflexivity.
    + rewrite !final_app, Fb. reflexivity.
    + apply letter_not_space. exact (all_final _ _ _ At Fb).
  - left. assert (F : exec emailFallbackRegex text = None).
    { apply not_occurs. intros O. apply email_occurs in O.
      apply not_occurs in E. contradiction. }
    rewrite F. split; reflexivity.
Qed.

(** X13: the phone field is empty, which is the case exactly when no part
    of the text has the shape of a phone number, or it holds between ten
    and thirteen digits. *)
Theorem phone_has_ten_digits (nlp : Tagger) (text : string) :
  exists info,
    extractPersonalInfo nlp (VString text) = Ok info
    /\ ((exec phoneFallbackRegex text = None /\ phone info = "")
        \/ (exec phoneFallbackRegex text <> None
            /\ 10 <= count Char.isDigit (phone info) <= 13)).
Proof.
  rewrite extractPersonalInfo_string. eexists. split; [reflexivity |].
  cbn [phone]. unfold phoneOf.
  destruct (exec phoneRegex text) as [pm|] eqn:E.
  - right. split.
    { apply phone_occurs. unfold occurs. congruence. }
    rewrite (count_trim _ _ space_not_digit).
    rewrite (count_remove Char.isDigit phoneLabelRegex);
      [| reflexivity | vm_compute; reflexivity].
    apply (exec_lang phoneRegex _ _ eq_refl) in E as [Lw _].
    pose proof (lang_count Char.isDigit _ _ _ Lw) as [A B].
    assert (EA : atLeast Char.isDigit (ignoreCase phoneRegex) (source phoneRegex) = 10)
      by (vm_compute; reflexivity).
    assert (EB : atMost Char.isDigit (ignoreCase phoneRegex) (source phoneRegex) = Some 13)
      by (vm_compute; reflexivity).
    rewrite EA in A. rewrite EB in B. simpl in B. lia.
  - left. assert (F : exec phoneFallbackRegex text = None).
    { apply not_occurs. intros O. apply phone_occurs in O.
      apply not_occurs in E. contradiction. }
    rewrite F. split; reflexivity.
Qed.

End ShapeProps.

(** ** The section patterns in terms of strings *)

Module SectionMatch.

Import Pattern Patterns Js Server Props Language Sections Outcome.
Import CharFacts StrFacts MatcherFacts ScanFacts CaptureFacts LabelFacts LiteralFacts
  PrefixFacts LanguageFacts ShapeFacts SectionFacts.

Lemma any_char ch : classMatch true [CSpace; CNonSpace] ch = true.
Proof. unfold classMatch, setMem. simpl. now destruct (Char.isWhiteSpace ch). Qed.

Lemma space_class ch : classMatch true [CSpace] ch = Char.isWhiteSpace ch.
Proof.
  apply eqb_prop.
  refine (ascii_forall (fun c => Bool.eqb (classMatch true [CSpace] c)
                                   (Char.isWhiteSpace c)) _ ch).
  vm_compute. reflexivity.
Qed.

(** The lazy star hands the states ahead to its continuation one by one,
    the nearest first. *)
Lemma lazy_first s n cs c :
  matcher true (LazyStar anyChar) (mkState n s cs) c
  = match c (mkState n s cs) with
    | Some z => Some z
    | None =>
        match s with
        | EmptyString => None
        | String _ s' => matcher true (LazyStar anyChar) (mkState (S n) s' cs) c
        end
    end.
Proof.
  destruct s as [|ch s'].
  - cbn. destruct (c _); reflexivity.
  - set (rhs := matcher true (LazyStar anyChar) (mkState (S n) s' cs) c).
    unfold LazyStar, anyChar. cbn [matcher rest].
    cbn [repeatMatcher isZero clear groups rest advance endIndex captures map app].
    assert (E : (S n =? n) = false) by (apply Nat.eqb_neq; lia).
    rewrite any_char, E. cbn [Nat.eqb negb andb].
    destruct (c _) as [z|]; reflexivity.
Qed.

Lemma upTo_prefix stop (s : string) :
  s = (upTo stop s ++ Str.drop (String.length (upTo stop s)) s)%string.
Proof.
  induction s as [|c s IH]; cbn [upTo].
  - destruct (stop ""); reflexivity.
  - destruct (stop (String c s)); [reflexivity |].
    cbn [String.length Str.drop append]. now rewrite <- IH.
Qed.

Lemma upTo_stops stop (s : string) :
  stop "" = true -> stop (Str.drop (String.length (upTo stop s)) s) = true.
Proof.
  intros H0. induction s as [|c s IH]; cbn [upTo].
  - destruct (stop "") eqn:E; [exact E | discriminate].
  - destruct (stop (String c s)) eqn:E; [exact E | exact IH].
Qed.

(** No place inside the prefix is a stop. *)
Lemma upTo_first stop (s : string) k :
  k < String.length (upTo stop s) -> stop (Str.drop k s) = false.
Proof.
  revert k. induction s as [|c s IH]; intros k; cbn [upTo].
  - destruct (stop ""); simpl; lia.
  - destruct (stop (String c s)) eqn:E; [simpl; lia |].
    destruct k as [|k]; [intros _; exact E |].
    cbn [String.length Str.drop]. intros H. apply IH. lia.
Qed.

(** A lazy star in front of a continuation that accepts exactly at the
    stops runs up to the first stop. *)
Lemma lazy_upTo stop c :
  (forall n s cs, stop s = false -> c (mkState n s cs) = None) ->
  (forall n s cs, stop s = true -> c (mkState n s cs) <> None) ->
  forall s n cs,
    matcher true (LazyStar anyChar) (mkState n s cs) c
    = c (mkState (n + String.length (upTo stop s))
           (Str.drop (String.length (upTo stop s)) s) cs).
Proof.
  intros Hn Hy. induction s as [|ch s IH]; intros n cs; rewrite lazy_first; cbn [upTo].
  - destruct (stop "") eqn:E; cbn [String.length Str.drop]; rewrite Nat.add_0_r;
      destruct (c (mkState n "" cs)); reflexivity.
  - destruct (stop (String ch s)) eqn:E; cbn [String.length Str.drop].
    + rewrite Nat.add_0_r. pose proof (Hy n _ cs E) as H.
      destruct (c (mkState n (String ch s) cs)); [reflexivity | contradiction].
    + rewrite (Hn n _ cs E), IH. now rewrite Nat.add_succ_r.
Qed.

Lemma stopsAt_end ts : stopsAt ts "" = true.
Proof. induction ts as [|t ts IH]; [reflexivity |]. simpl. rewrite IH. apply orb_true_r. Qed.

(** The lookahead of a section pattern holds exactly at the stops, and
    sets no capture. *)
Lemma stop_match ts : forall t x,
  match matcher true (alts (Lit t) (map Lit ts ++ [Eoi])) x Some with
  | Some y => stopsAt (t :: ts) (rest x) = true /\ captures y = captures x
  | None => stopsAt (t :: ts) (rest x) = false
  end.
Proof.
  induction ts as [|t' ts IH]; intros t x.
  - cbn [map app alts matcher stopsAt]. rewrite matcher_lit. unfold isPrefix.
    destruct (stripPrefix true t (rest x)); [now split |].
    destruct (rest x); [now split | reflexivity].
  - change (alts (Lit t) (map Lit (t' :: ts) ++ [Eoi]))
      with (Alt (Lit t) (alts (Lit t') (map Lit ts ++ [Eoi]))).
    cbn [matcher]. rewrite matcher_lit.
    change (stopsAt (t :: t' :: ts) (rest x))
      with (isPrefix true t (rest x) || stopsAt (t' :: ts) (rest x)).
    unfold isPrefix at 1 2.
    destruct (stripPrefix true t (rest x)); [now split |].
    exact (IH t' x).
Qed.

(** The greedy star of white space tries the longest run first. *)
Lemma space_first s n cs c :
  matcher true (Star ws) (mkState n s cs) c
  = match match s with
          | EmptyString => None
          | String ch s' =>
              if Char.isWhiteSpace ch
              then matcher true (Star ws) (mkState (S n) s' cs) c
              else None
          end
    with
    | Some z => Some z
    | None => c (mkState n s cs)
    end.
Proof.
  destruct s as [|ch s'].
  - cbn. reflexivity.
  - set (rhs := matcher true (Star ws) (mkState (S n) s' cs) c).
    unfold Star, ws. cbn [matcher rest].
    cbn [repeatMatcher isZero clear groups rest advance endIndex captures map app].
    assert (E : (S n =? n) = false) by (apply Nat.eqb_neq; lia).
    rewrite space_class, E. cbn [Nat.eqb negb andb].
    reflexivity.
Qed.

Lemma space_star c :
  (forall y, c y <> None) ->
  forall s n cs, exists k,
    matcher true (Star ws) (mkState n s cs) c = c (mkState (n + k) (Str.trimStart s) cs).
Proof.
  intros Hc. induction s as [|ch s IH]; intros n cs; rewrite space_first.
  - exists 0. now rewrite Nat.add_0_r.
  - cbn [Str.trimStart]. destruct (Char.isWhiteSpace ch).
    + destruct (IH (S n) cs) as [k Hk]. exists (S k). rewrite Hk, Nat.add_succ_r.
      destruct (c _) eqn:E; [reflexivity | now apply Hc in E].
    + exists 0. now rewrite Nat.add_0_r.
Qed.

(** The body group and the lookahead of a section pattern. *)
Lemma section_body t ts s n cs :
  matcher true (cat [Grp 2 (LazyStar anyChar); Look (alts (Lit t) (map Lit ts ++ [Eoi]))])
    (mkState n s cs) Some
  = Some (mkState (n + String.length (upTo (stopsAt (t :: ts)) s))
            (Str.drop (String.length (upTo (stopsAt (t :: ts)) s)) s)
            ((2, Some (upTo (stopsAt (t :: ts)) s)) :: cs)).
Proof.
  cbn [cat matcher endIndex rest].
  rewrite (lazy_upTo (stopsAt (t :: ts))).
  - cbn [endIndex rest captures].
    pose proof (stop_match ts t
      (mkState (n + String.length (upTo (stopsAt (t :: ts)) s))
         (Str.drop (String.length (upTo (stopsAt (t :: ts)) s)) s)
         ((2, Some (Str.take (n + String.length (upTo (stopsAt (t :: ts)) s) - n) s)) :: cs)))
      as H.
    destruct (matcher true _ _ Some) as [y|].
    + destruct H as [_ ->]. cbn [captures]. do 3 f_equal.
      replace (n + String.length (upTo (stopsAt (t :: ts)) s) - n)
        with (String.length (upTo (stopsAt (t :: ts)) s)) by lia.
      rewrite (upTo_prefix (stopsAt (t :: ts)) s) at 2.
      now rewrite StrFacts.take_app.
    + cbn [rest] in H. now rewrite upTo_stops in H by apply stopsAt_end.
  - intros n' s' cs' Hs. cbn [endIndex rest captures].
    pose proof (stop_match ts t
      (mkState n' s' ((2, Some (Str.take (n' - n) s)) :: cs'))) as H.
    destruct (matcher true _ _ Some) as [y|]; [| reflexivity].
    cbn [rest] in H. destruct H as [H _]. congruence.
  - intros n' s' cs' Hs. cbn [endIndex rest captures].
    pose proof (stop_match ts t
      (mkState n' s' ((2, Some (Str.take (n' - n) s)) :: cs'))) as H.
    destruct (matcher true _ _ Some) as [y|]; [discriminate |].
    cbn [rest] in H. congruence.
Qed.

(** A section pattern from behind its header on: it always matches, and
    group 2 is the text behind the white space up to the first stop. *)
Lemma section_tail t ts s n cs :
  exists e,
    matcher true
      (cat [Star ws; Grp 2 (LazyStar anyChar); Look (alts (Lit t) (map Lit ts ++ [Eoi]))])
      (mkState n s cs) Some = Some e
    /\ captures e = (2, Some (upTo (stopsAt (t :: ts)) (Str.trimStart s))) :: cs.
Proof.
  change (cat [Star ws; Grp 2 (LazyStar anyChar);
               Look (alts (Lit t) (map Lit ts ++ [Eoi]))])
    with (Seq (Star ws)
            (cat [Grp 2 (LazyStar anyChar); Look (alts (Lit t) (map Lit ts ++ [Eoi]))])).
  cbn [matcher].
  destruct (space_star
              (fun y => matcher true
                 (cat [Grp 2 (LazyStar anyChar);
                       Look (alts (Lit t) (map Lit ts ++ [Eoi]))]) y Some)) with (s := s) (n := n) (cs := cs)
    as [k Hk].
  - intros [n' s' cs']. now rewrite section_body.
  - rewrite Hk, section_body. eexists. split; reflexivity.
Qed.

(** A section pattern at one place of the text. *)
Lemma section_here A As t ts s n :
  match firstLabel true (A :: As) s with
  | Some (B, after) =>
      exists e,
        matcher true (source (sectionRegex A As t ts)) (mkState n s []) Some = Some e
        /\ captures e = [(2, Some (upTo (stopsAt (t :: ts)) (Str.trimStart after)));
                         (1, Some (Str.take (String.length B) s))]
  | None =>
      matcher true (source (sectionRegex A As t ts)) (mkState n s []) Some = None
  end.
Proof.
  unfold sectionRegex. cbn [source].
  change (cat [Grp 1 (altsLit A As); Star ws; Grp 2 (LazyStar anyChar);
               Look (alts (Lit t) (map Lit ts ++ [Eoi]))])
    with (Seq (Grp 1 (altsLit A As))
            (cat [Star ws; Grp 2 (LazyStar anyChar);
                  Look (alts (Lit t) (map Lit ts ++ [Eoi]))])).
  cbn [matcher]. rewrite matcher_alts_total.
  - cbn [rest endIndex captures].
    destruct (firstLabel true (A :: As) s) as [[B after]|]; [| reflexivity].
    cbn [endIndex rest captures].
    destruct (section_tail t ts after (n + String.length B)
                [(1, Some (Str.take (n + String.length B - n) s))]) as (e & He & Hc).
    exists e. split; [exact He |]. rewrite Hc.
    now replace (n + String.length B - n) with (String.length B) by lia.
  - intros [n' s' cs']. cbn [endIndex rest captures].
    destruct (section_tail t ts s' n' ((1, Some (Str.take (n' - n) s)) :: cs'))
      as (e & He & _).
    rewrite He. discriminate.
Qed.

(** Group 2 of the leftmost match of a section pattern is the body of the
    section. *)
Lemma section_scan A As t ts : forall s i,
  option_map (capture 2) (scan (sectionRegex A As t ts) i s)
  = sectionBody (A :: As) (t :: ts) s.
Proof.
  unfold sectionBody.
  induction s as [|c s IH]; intros i; cbn [scan findLabel];
    pose proof (section_here A As t ts) as H.
  - specialize (H "" i). cbn [ignoreCase sectionRegex] in *.
    destruct (firstLabel true (A :: As) "") as [[B after]|].
    + destruct H as (e & -> & Hl). cbn [option_map]. unfold capture, group.
      cbn [caps]. now rewrite Hl.
    + now rewrite H.
  - specialize (H (String c s) i). cbn [ignoreCase sectionRegex] in *.
    destruct (firstLabel true (A :: As) (String c s)) as [[B after]|].
    + destruct H as (e & -> & Hl). cbn [option_map]. unfold capture, group.
      cbn [caps]. now rewrite Hl.
    + rewrite H. apply IH.
Qed.

Lemma firstLabel_in i As : forall s B after,
  firstLabel i As s = Some (B, after) -> In B As /\ stripPrefix i B s = Some after.
Proof.
  induction As as [|A As IH]; intros s B after H; [discriminate |].
  cbn [firstLabel] in H. destruct (stripPrefix i A s) as [s'|] eqn:E.
  - injection H as <- <-. split; [now left | exact E].
  - destruct (IH _ _ _ H) as [Hin Hs]. split; [now right | exact Hs].
Qed.

(** Group 1 of a match of a section pattern is a header word as the text
    has it. *)
Lemma section_header A As t ts s i m :
  scan (sectionRegex A As t ts) i s = Some m ->
  exists B h, In B (A :: As) /\ group 1 m = Some h /\ anyCase B h.
Proof.
  intros H. apply scan_some in H as (k & e & _ & _ & He & _ & Hc & _).
  pose proof (section_here A As t ts (Str.drop k s) (i + k)) as Hh.
  cbn [ignoreCase sectionRegex] in He. unfold start in He.
  destruct (firstLabel true (A :: As) (Str.drop k s)) as [[B after]|] eqn:F.
  - destruct Hh as (e' & He' & Hc'). cbn [sectionRegex source] in He', He.
    rewrite He in He'. injection He' as <-.
    destruct (firstLabel_in _ _ _ _ _ F) as [Hin Hs].
    exists B, (Str.take (String.length B) (Str.drop k s)).
    split; [exact Hin |]. split.
    + unfold group. rewrite Hc, Hc'. reflexivity.
    + destruct (stripPrefix_split _ _ _ _ Hs) as (w0 & Ew & Lw).
      rewrite Ew, <- Lw, StrFacts.take_app. unfold anyCase.
      rewrite Ew in Hs. exact (stripPrefix_cut _ _ _ _ Hs Lw).
  - cbn [sectionRegex source] in Hh, He. congruence.
Qed.

Lemma section_exec A As t ts text :
  option_map (capture 2) (exec (sectionRegex A As t ts) text)
  = sectionBody (A :: As) (t :: ts) text.
Proof. apply section_scan. Qed.

(** Tier 2 of the three functions reads the body of the section. *)
Lemma education_body nlp text :
  educationMatches nlp text = [] ->
  extractEducation nlp (VString text)
  = Ok (match sectionBody educationHeads educationStops text with
        | Some body => entries body
        | None => []
        end).
Proof.
  intros H. rewrite extractEducation_string, H. cbn [newSet fold_left List.length Nat.eqb].
  pose proof (section_exec "Education"
                ["Educations"; "EDUCATION"; "EDUCATIONS"; "Academic Background";
                 "ACADEMIC BACKGROUND"]
                "Skills" ["Projects"; "Qualifications"] text) as E.
  change (sectionRegex _ _ _ _) with educationRegex in E.
  change (sectionBody _ _ text) with (sectionBody educationHeads educationStops text) in E.
  destruct (exec educationRegex text) as [m|]; cbn [option_map] in E; now rewrite <- E.
Qed.

Lemma skills_body nlp text :
  skillsMatches nlp text = [] ->
  extractSkills nlp (VString text)
  = Ok (match sectionBody skillsHeads skillsStops text with
        | Some body => entries body
        | None => []
        end).
Proof.
  intros H. rewrite extractSkills_string, H. cbn [newSet fold_left List.length Nat.eqb].
  pose proof (section_exec "Skill"
                ["Skills"; "SKILL"; "SKILLS"; "Technical Skill"; "Technical Skills";
                 "TECHNICAL SKILL"; "TECHNICAL SKILLS"; "Qualifications"; "QUALIFICATIONS"]
                "Projects" ["Education"] text) as E.
  change (sectionRegex _ _ _ _) with skillsRegex in E.
  change (sectionBody _ _ text) with (sectionBody skillsHeads skillsStops text) in E.
  destruct (exec skillsRegex text) as [m|]; cbn [option_map] in E; now rewrite <- E.
Qed.

Lemma projects_body nlp text :
  projectMatches nlp text = [] ->
  extractProjects nlp (VString text)
  = Ok (match sectionBody projectHeads projectStops text with
        | Some body => entries body
        | None => []
        end).
Proof.
  intros H. rewrite extractProjects_string, H. cbn [newSet fold_left List.length Nat.eqb].
  pose proof (section_exec "Project"
                ["Projects"; "PROJECT"; "PROJECTS"; "Work Experience"; "WORK EXPERIENCE"]
                "Education" ["Skills"; "Qualifications"] text) as E.
  change (sectionRegex _ _ _ _) with projectsRegex in E.
  change (sectionBody _ _ text) with (sectionBody projectHeads projectStops text) in E.
  destruct (exec projectsRegex text) as [m|]; cbn [option_map] in E; now rewrite <- E.
Qed.

End SectionMatch.

(** ** Properties of the section functions *)

Module SectionProps.

Import Pattern Patterns Js Server Props Language Sections Outcome.
Import CharFacts StrFacts MatcherFacts ScanFacts CaptureFacts LabelFacts LiteralFacts
  PrefixFacts LanguageFacts ShapeFacts SectionFacts SetFacts SectionMatch.

(** X14: when the tagger finds nothing, [extractEducation] returns the
    trimmed non-empty lines of the text that stands behind the first
    header word (Education or Academic Background, in any case, also inside
    a longer word) and the white space after it, up to the first stop word
    (Skills, Projects or Qualifications, in any case) or the end of the
    text; without a header word the list is empty. *)
Theorem education_tier_two (nlp : Tagger) (text : string) :
  educationMatches nlp text = [] ->
  extractEducation nlp (VString text)
  = Ok (match sectionBody educationHeads educationStops text with
        | Some body => entries body
        | None => []
        end).
Proof.
  intros H. rewrite extractEducation_string, H. cbn [newSet fold_left List.length Nat.eqb].
  pose proof (section_exec "Education"
                ["Educations"; "EDUCATION"; "EDUCATIONS"; "Academic Background";
                 "ACADEMIC BACKGROUND"]
                "Skills" ["Projects"; "Qualifications"] text) as E.
  change (sectionRegex _ _ _ _) with educationRegex in E.
  change (sectionBody _ _ text) with (sectionBody educationHeads educationStops text) in E.
  destruct (exec educationRegex text) as [m|]; cbn [option_map] in E; now rewrite <- E.
Qed.

Lemma education_tier_two_witness :
  educationMatches silent
    (Str.lines ["Curriculum"; "EDUCATIONS:  BSc Physics"; "  MSc  "; ""; "my SKILLS"; "Go"])
  = []
  /\ sectionBody educationHeads educationStops
       (Str.lines ["Curriculum"; "EDUCATIONS:  BSc Physics"; "  MSc  "; ""; "my SKILLS"; "Go"])
     = Some (Str.lines ["S:  BSc Physics"; "  MSc  "; ""; "my "])
  /\ extractEducation silent
       (VString (Str.lines ["Curriculum"; "EDUCATIONS:  BSc Physics"; "  MSc  "; "";
                            "my SKILLS"; "Go"]))
     = Ok ["S:  BSc Physics"; "MSc"; "my"].
Proof.
  split; [reflexivity |]. split; [vm_compute; reflexivity |].
  exact (education_tier_two silent
           (Str.lines ["Curriculum"; "EDUCATIONS:  BSc Physics"; "  MSc  "; "";
                       "my SKILLS"; "Go"]) eq_refl).
Defined.

(** X15: when the tagger finds nothing, [extractSkills] returns the
    trimmed non-empty lines of the text that stands behind the first
    header word (Skill, Technical Skill or Qualifications, in any case) and
    the white space after it, up to the first stop word (Projects or
    Education, in any case) or the end of the text; no other header, such
    as Work Experience, ends the list. *)
Theorem skills_tier_two (nlp : Tagger) (text : string) :
  skillsMatches nlp text = [] ->
  extractSkills nlp (VString text)
  = Ok (match sectionBody skillsHeads skillsStops text with
        | Some body => entries body
        | None => []
        end).
Proof.
  intros H. rewrite extractSkills_string, H. cbn [newSet fold_left List.length Nat.eqb].
  pose proof (section_exec "Skill"
                ["Skills"; "SKILL"; "SKILLS"; "Technical Skill"; "Technical Skills";
                 "TECHNICAL SKILL"; "TECHNICAL SKILLS"; "Qualifications"; "QUALIFICATIONS"]
                "Projects" ["Education"] text) as E.
  change (sectionRegex _ _ _ _) with skillsRegex in E.
  change (sectionBody _ _ text) with (sectionBody skillsHeads skillsStops text) in E.
  destruct (exec skillsRegex text) as [m|]; cbn [option_map] in E; now rewrite <- E.
Qed.

Lemma skills_tier_two_witness :
  skillsMatches silent
    (Str.lines ["Technical Skill"; "Go, Rust"; "Work Experience"; "ACME"; "Education"; "MIT"])
  = []
  /\ extractSkills silent
       (VString (Str.lines ["Technical Skill"; "Go, Rust"; "Work Experience"; "ACME";
                            "Education"; "MIT"]))
     = Ok ["Go, Rust"; "Work Experience"; "ACME"].
Proof.
  split; [reflexivity |].
  exact (skills_tier_two silent
           (Str.lines ["Technical Skill"; "Go, Rust"; "Work Experience"; "ACME";
                       "Education"; "MIT"]) eq_refl).
Defined.

(** X16: when the tagger finds nothing, [extractProjects] returns the
    trimmed non-empty lines of the text that stands behind the first
    header word (Project or Work Experience, in any case) and the white
    space after it, up to the first stop word (Education, Skills or
    Qualifications, in any case) or the end of the text.  A separator
    behind the header is not skipped. *)
Theorem projects_tier_two (nlp : Tagger) (text : string) :
  projectMatches nlp text = [] ->
  extractProjects nlp (VString text)
  = Ok (match sectionBody projectHeads projectStops text with
        | Some body => entries body
        | None => []
        end).
Proof.
  intros H. rewrite extractProjects_string, H. cbn [newSet fold_left List.length Nat.eqb].
  pose proof (section_exec "Project"
                ["Projects"; "PROJECT"; "PROJECTS"; "Work Experience"; "WORK EXPERIENCE"]
                "Education" ["Skills"; "Qualifications"] text) as E.
  change (sectionRegex _ _ _ _) with projectsRegex in E.
  change (sectionBody _ _ text) with (sectionBody projectHeads projectStops text) in E.
  destruct (exec projectsRegex text) as [m|]; cbn [option_map] in E; now rewrite <- E.
Qed.

Lemma projects_tier_two_witness :
  projectMatches silent (Str.lines ["Work experience:"; "ACME 2020"; "Qualifications"; "PhD"])
  = []
  /\ extractProjects silent
       (VString (Str.lines ["Work experience:"; "ACME 2020"; "Qualifications"; "PhD"]))
     = Ok [":"; "ACME 2020"].
Proof.
  split; [reflexivity |].
  exact (projects_tier_two silent
           (Str.lines ["Work experience:"; "ACME 2020"; "Qualifications"; "PhD"]) eq_refl).
Defined.

End SectionProps.

(** ** The entries of a section *)

Module EntryFacts.

Import Pattern Patterns Js Server Props Language Sections Outcome.
Import CharFacts StrFacts LiteralFacts PrefixFacts HandlerFacts OutcomeFacts LanguageFacts
  ShapeFacts SectionFacts SectionMatch.

Lemma trimStart_first (s : string) a :
  first (Str.trimStart s) = Some a -> Char.isWhiteSpace a = false.
Proof.
  induction s as [|c s IH]; [discriminate |]. cbn [Str.trimStart].
  destruct (Char.isWhiteSpace c) eqn:E; [exact IH |].
  intros H. injection H as <-. exact E.
Qed.

Lemma trimEnd_final (s : string) b :
  final (Str.trimEnd s) = Some b -> Char.isWhiteSpace b = false.
Proof.
  induction s as [|c s IH]; [discriminate |]. cbn [Str.trimEnd].
  destruct (Str.trimEnd s) as [|d t] eqn:E.
  - destruct (Char.isWhiteSpace c) eqn:Ec; [discriminate |].
    intros H. injection H as <-. exact Ec.
  - intros H. apply IH. cbn [final] in H |- *.
    destruct (final t); [exact H |]. exact H.
Qed.

Lemma trimEnd_first (s : string) :
  Str.trimEnd s <> "" -> first (Str.trimEnd s) = first s.
Proof.
  destruct s as [|c s]; [reflexivity |]. cbn [Str.trimEnd].
  destruct (Str.trimEnd s); [| reflexivity].
  destruct (Char.isWhiteSpace c); [contradiction | reflexivity].
Qed.

(** What [trim] returns is empty or has no white space at its ends. *)
Lemma trim_ends (s : string) :
  Str.trim s = ""
  \/ exists a b, first (Str.trim s) = Some a /\ Char.isWhiteSpace a = false
                 /\ final (Str.trim s) = Some b /\ Char.isWhiteSpace b = false.
Proof.
  unfold Str.trim. destruct (Str.trimEnd (Str.trimStart s)) eqn:E; [now left |].
  right. rewrite <- E.
  assert (N : Str.trimEnd (Str.trimStart s) <> "") by (rewrite E; discriminate).
  destruct (first_some _ N) as [x Hx]. destruct (final_some _ N) as [y Hy].
  exists x, y. split; [exact Hx |]. split.
  - rewrite trimEnd_first in Hx by exact N. exact (trimStart_first _ _ Hx).
  - split; [exact Hy | exact (trimEnd_final _ _ Hy)].
Qed.

Lemma trim_trim (s : string) : Str.trim (Str.trim s) = Str.trim s.
Proof.
  destruct (trim_ends s) as [->|(a & b & Fa & Ha & Fb & Hb)]; [reflexivity |].
  exact (trim_fixed _ a b Fa Ha Fb Hb).
Qed.

Lemma clean_ends (e : string) :
  cleanEntry e ->
  exists a b, first e = Some a /\ Char.isWhiteSpace a = false
              /\ final e = Some b /\ Char.isWhiteSpace b = false.
Proof.
  intros (N & T & _). destruct (trim_ends e) as [E|H].
  - rewrite T in E. contradiction.
  - now rewrite T in H.
Qed.

(** Every entry is clean. *)
Lemma entries_clean (s : string) : Forall cleanEntry (entries s).
Proof.
  unfold entries. apply Forall_forall. intros e He.
  apply filter_In in He as [He Hn]. apply in_map_iff in He as (p & <- & Hp).
  split; [| split].
  - intros E. rewrite E in Hn. discriminate.
  - apply trim_trim.
  - apply StrFacts.all_trim.
    pose proof (split_pieces Char.LF (Str.trim s)) as F.
    rewrite Forall_forall in F. exact (F p Hp).
Qed.

(** [split] takes a joined list apart again. *)
Lemma split_cons sep (x r : string) :
  Str.all (fun c => negb (Ascii.eqb c sep)) x = true ->
  Str.split sep (x ++ String sep r) = x :: Str.split sep r.
Proof.
  induction x as [|c x IH]; intros H.
  - cbn. now rewrite Ascii.eqb_refl.
  - cbn [Str.all] in H. apply andb_true_iff in H as [Hc Hx].
    apply negb_true_iff in Hc. cbn [append Str.split]. rewrite Hc, (IH Hx). reflexivity.
Qed.

Lemma split_concat sep (l : list string) :
  l <> [] ->
  Forall (fun p => Str.all (fun c => negb (Ascii.eqb c sep)) p = true) l ->
  Str.split sep (String.concat (String sep "") l) = l.
Proof.
  induction l as [|x l IH]; [contradiction |]. intros _ F.
  inversion F as [|? ? Hx Hl]; subst.
  destruct l as [|y l].
  - cbn [String.concat]. now apply split_plain.
  - change (String.concat (String sep "") (x :: y :: l))
      with (x ++ String sep (String.concat (String sep "") (y :: l)))%string.
    rewrite (split_cons _ _ _ Hx), IH; [reflexivity | discriminate | exact Hl].
Qed.

Lemma first_concat sep (x : string) l a :
  first x = Some a -> first (String.concat sep (x :: l)) = Some a.
Proof.
  intros H. destruct l as [|y l]; [exact H |].
  change (String.concat sep (x :: y :: l))
    with (x ++ sep ++ String.concat sep (y :: l))%string.
  now rewrite first_app, H.
Qed.

Lemma final_concat sep d : forall (l : list string) x b,
  final (last (x :: l) d) = Some b -> final (String.concat sep (x :: l)) = Some b.
Proof.
  induction l as [|y l IH]; intros x b H; [exact H |].
  change (String.concat sep (x :: y :: l))
    with (x ++ sep ++ String.concat sep (y :: l))%string.
  rewrite !final_app. now rewrite (IH y b H).
Qed.

Lemma Forall_last {A} (P : A -> Prop) d : forall l x,
  Forall P (x :: l) -> P (last (x :: l) d).
Proof.
  induction l as [|y l IH]; intros x F; inversion F; subst; [assumption |].
  now apply IH.
Qed.

(** The list of the entries of a joined clean list is the list. *)
Lemma entries_concat (l : list string) :
  Forall cleanEntry l -> entries (String.concat Str.nl l) = l.
Proof.
  intros F. destruct l as [|x l]; [reflexivity |].
  unfold entries.
  assert (T : Str.trim (String.concat Str.nl (x :: l)) = String.concat Str.nl (x :: l)).
  { pose proof (Forall_last _ "" _ _ F) as Hlast.
    inversion F as [|? ? Hx Hl]; subst.
    destruct (clean_ends x Hx) as (a & _ & Fa & Ha & _ & _).
    destruct (clean_ends _ Hlast) as (_ & b & _ & _ & Fb & Hb).
    apply (trim_fixed _ a b); auto.
    - now apply first_concat.
    - now apply (final_concat _ ""). }
  rewrite T. unfold Str.nl.
  rewrite split_concat; [| discriminate |].
  - assert (M : map Str.trim (x :: l) = x :: l).
    { clear T. induction F as [|e l' (_ & He & _) F' IH]; [reflexivity |].
      cbn [map]. now rewrite He, IH. }
    rewrite M. clear T M.
    induction F as [|e l' (Ne & _ & _) F' IH]; [reflexivity |].
    cbn [filter]. destruct e as [|c e]; [contradiction |].
    change (0 <? String.length (String c e)) with true. cbn iota. f_equal. exact IH.
  - eapply Forall_impl; [| exact F]. intros e (_ & _ & H). exact H.
Qed.

(** *** A header in the plural *)

Lemma letter_match a ch :
  Char.isLetter a = true -> charMatch true a ch = true -> Char.isLetter ch = true.
Proof.
  intros Ha H. unfold charMatch in H. rewrite canonical_forms in H.
  apply orb_true_iff in H as [H|H]; [apply orb_true_iff in H as [H|H] |];
    apply Ascii.eqb_eq in H; subst a.
  - exact Ha.
  - revert Ha. apply (ascii_impl (fun c => Char.isLetter (Char.toUpperCase c))).
    vm_compute. reflexivity.
  - revert Ha. apply (ascii_impl (fun c => Char.isLetter (Char.toLowerCase c))).
    vm_compute. reflexivity.
Qed.

Lemma firstLabel_letter heads ch s :
  forallb startsLetter heads = true -> Char.isLetter ch = false ->
  firstLabel true heads (String ch s) = None.
Proof.
  intros F Hc. induction heads as [|A heads IH]; [reflexivity |].
  cbn [forallb] in F. apply andb_true_iff in F as [FA Fh].
  cbn [firstLabel]. destruct A as [|a A]; [discriminate |]. cbn [stripPrefix startsLetter] in *.
  destruct (charMatch true a ch) eqn:E.
  - pose proof (letter_match _ _ FA E). congruence.
  - exact (IH Fh).
Qed.

Lemma findLabel_skip heads pre s :
  forallb startsLetter heads = true ->
  Str.all notLetter pre = true ->
  findLabel heads (pre ++ s) = findLabel heads s.
Proof.
  intros F. induction pre as [|c pre IH]; [reflexivity |]. intros H.
  cbn [Str.all] in H. apply andb_true_iff in H as [Hc Hp]. apply negb_true_iff in Hc.
  cbn [append findLabel]. rewrite (firstLabel_letter _ _ _ F Hc). exact (IH Hp).
Qed.

Lemma findLabel_here heads s r :
  firstLabel true heads s = Some r -> findLabel heads s = Some r.
Proof. intros H. destruct s; cbn [findLabel]; now rewrite H. Qed.

Lemma anyCase_snoc x : forall A line,
  anyCase (A ++ String x "") line ->
  exists c, stripPrefix true A line = Some (String c "")
            /\ charMatch true x c = true
            /\ Str.drop (String.length A) line = String c "".
Proof.
  unfold anyCase. induction A as [|a A IH]; intros line H.
  - cbn [append stripPrefix] in H. destruct line as [|c line]; [discriminate |].
    destruct (charMatch true x c) eqn:E; [| discriminate].
    cbn [stripPrefix] in H. injection H as ->. now exists c.
  - cbn [append stripPrefix] in H. destruct line as [|c line]; [discriminate |].
    cbn [stripPrefix String.length Str.drop].
    destruct (charMatch true a c); [| discriminate]. exact (IH _ H).
Qed.

Lemma entries_first c b :
  Char.isWhiteSpace c = false ->
  exists l, entries (String c (String Char.LF b)) = String c "" :: l.
Proof.
  intros Hc.
  assert (Hn : Ascii.eqb c Char.LF = false).
  { apply Ascii.eqb_neq. intros ->. discriminate. }
  assert (Ht : Str.trim (String c "") = String c "").
  { unfold Str.trim. cbn [Str.trimStart]. rewrite Hc. cbn [Str.trimEnd]. now rewrite Hc. }
  assert (E : Str.trim (String c (String Char.LF b))
              = match Str.trimEnd b with
                | EmptyString => String c ""
                | t => String c (String Char.LF t)
                end).
  { unfold Str.trim. cbn [Str.trimStart]. rewrite Hc. cbn [Str.trimEnd].
    destruct (Str.trimEnd b); [| reflexivity].
    change (Char.isWhiteSpace Char.LF) with true. cbn iota. now rewrite Hc. }
  unfold entries. rewrite E. destruct (Str.trimEnd b) as [|d t].
  - cbn [Str.split]. rewrite Hn. cbn [Str.split map]. rewrite Ht.
    eexists. reflexivity.
  - cbn [Str.split]. rewrite Hn, Ascii.eqb_refl.
    cbn [map]. rewrite Ht. eexists. reflexivity.
Qed.

(** The body of a section whose header line is a head word and one more
    character. *)
Lemma plural_body A As t ts pre line c tail :
  forallb startsLetter (A :: As) = true ->
  Str.all notLetter pre = true ->
  stripPrefix true A line = Some (String c "") ->
  Char.isWhiteSpace c = false ->
  stopsAt (t :: ts) (String c (Str.nl ++ tail)) = false ->
  stopsAt (t :: ts) (Str.nl ++ tail) = false ->
  sectionBody (A :: As) (t :: ts) (pre ++ line ++ Str.nl ++ tail)
  = Some (String c (String Char.LF (upTo (stopsAt (t :: ts)) tail))).
Proof.
  intros F Hp Hs Hc S1 S2. unfold sectionBody.
  rewrite (findLabel_skip _ _ _ F Hp).
  rewrite (findLabel_here _ _ (A, (String c "" ++ Str.nl ++ tail)%string)).
  - cbn [append Str.trimStart]. rewrite Hc.
    cbn [upTo]. cbn [append] in S1. rewrite S1.
    unfold Str.nl in *. cbn [append upTo] in *. rewrite S2. reflexivity.
  - cbn [firstLabel]. now rewrite (stripPrefix_app _ _ _ _ _ Hs).
Qed.

Lemma s_not_space c : charMatch true "s" c = true -> Char.isWhiteSpace c = false.
Proof.
  intros H. apply negb_true_iff. revert c H. apply ascii_impl. vm_compute. reflexivity.
Qed.

(** *** Entries are parts of the body *)

Lemma trimStart_sub (s : string) : exists a, s = (a ++ Str.trimStart s)%string.
Proof.
  induction s as [|c s [a IH]]; [now exists "" |]. cbn [Str.trimStart].
  destruct (Char.isWhiteSpace c); [| now exists ""].
  exists (String c a). cbn [append]. now rewrite <- IH.
Qed.

Lemma trimEnd_sub (s : string) : exists b, s = (Str.trimEnd s ++ b)%string.
Proof.
  induction s as [|c s [b IH]]; [now exists "" |]. cbn [Str.trimEnd].
  destruct (Str.trimEnd s) as [|d t] eqn:E.
  - cbn [append] in IH. subst b.
    destruct (Char.isWhiteSpace c); [now exists (String c s) | now exists s].
  - exists b. cbn [append] in *. now rewrite <- IH.
Qed.

Lemma trim_sub (s : string) : exists a b, s = (a ++ Str.trim s ++ b)%string.
Proof.
  unfold Str.trim. destruct (trimStart_sub s) as [a Ha].
  destruct (trimEnd_sub (Str.trimStart s)) as [b Hb].
  exists a, b. now rewrite <- Hb.
Qed.

Lemma split_sub sep : forall (s p : string),
  In p (Str.split sep s) -> exists a b, s = (a ++ p ++ b)%string.
Proof.
  induction s as [|c s IH]; intros p H; cbn [Str.split] in H.
  - destruct H as [<-|[]]. now exists "", "".
  - destruct (Ascii.eqb_spec c sep) as [->|Hc].
    + destruct H as [<-|H]; [now exists "", (String sep s) |].
      destruct (IH p H) as (a & b & ->). now exists (String sep a), b.
    + pose proof (concat_split sep s) as C.
      destruct (Str.split sep s) as [|h l] eqn:E; [now destruct (split_nonempty sep s) |].
      destruct H as [<-|H].
      * exists "". destruct l as [|h' l].
        -- exists "". cbn [String.concat] in C. subst h.
           cbn [append]. now rewrite StrFacts.app_nil_r.
        -- exists (String sep (String.concat (String sep "") (h' :: l))).
           cbn [append]. now rewrite <- C.
      * destruct (IH p (or_intror H)) as (a & b & ->).
        now exists (String c a), b.
Qed.

Lemma entries_sub (s e : string) :
  In e (entries s) -> exists a b, s = (a ++ e ++ b)%string.
Proof.
  unfold entries. intros H. apply filter_In in H as [H _].
  apply in_map_iff in H as (p & <- & Hp).
  destruct (split_sub _ _ _ Hp) as (a1 & b1 & E1).
  destruct (trim_sub s) as (a0 & b0 & E0).
  destruct (trim_sub p) as (a2 & b2 & E2).
  exists (a0 ++ a1 ++ a2)%string, (b2 ++ b1 ++ b0)%string.
  rewrite E0 at 1. rewrite E1. rewrite E2 at 1.
  now rewrite !StrFacts.app_assoc.
Qed.

Lemma stopsAt_in ts t s : In t ts -> isPrefix true t s = true -> stopsAt ts s = true.
Proof.
  induction ts as [|t' ts IH]; intros Hin H; [contradiction |]. cbn [stopsAt].
  destruct Hin as [->|Hin]; [now rewrite H |].
  rewrite (IH Hin H). apply orb_true_r.
Qed.

(** The body of a section holds no stop word. *)
Lemma body_holds_no_stop heads stops text body t :
  sectionBody heads stops text = Some body ->
  In t stops -> t <> "" -> ~ holds t body.
Proof.
  unfold sectionBody. destruct (findLabel heads text) as [[B after]|]; [| discriminate].
  intros H Hin Nt (u & w0 & v & E & Ha). injection H as H.
  set (s0 := Str.trimStart after) in *.
  pose proof (upTo_prefix (stopsAt stops) s0) as P. rewrite H in P.
  assert (Nw : w0 <> "").
  { intros ->. unfold anyCase in Ha. destruct t; [contradiction | discriminate]. }
  assert (K : String.length u < String.length (upTo (stopsAt stops) s0)).
  { rewrite H, E, !StrFacts.length_app. destruct w0; [contradiction |]. simpl. lia. }
  apply upTo_first in K.
  rewrite P, E, !StrFacts.app_assoc, StrFacts.drop_app in K.
  rewrite (stopsAt_in stops t _ Hin) in K; [discriminate |].
  unfold isPrefix. unfold anyCase in Ha.
  now rewrite (stripPrefix_app _ _ _ _ _ Ha).
Qed.

Lemma holds_sub t (s e a b : string) : s = (a ++ e ++ b)%string -> holds t e -> holds t s.
Proof.
  intros -> (u & w0 & v & -> & Ha). exists (a ++ u)%string, w0, (v ++ b)%string.
  split; [| exact Ha]. now rewrite !StrFacts.app_assoc.
Qed.

Lemma entries_hold_no_stop heads stops text body :
  sectionBody heads stops text = Some body ->
  Forall (fun t => t <> "") stops ->
  Forall (fun e => forall t, In t stops -> ~ holds t e) (entries body).
Proof.
  intros H F. apply Forall_forall. intros e He t Hin Hh.
  destruct (entries_sub _ _ He) as (a & b & E).
  rewrite Forall_forall in F.
  exact (body_holds_no_stop _ _ _ _ t H Hin (F t Hin) (holds_sub _ _ _ _ _ E Hh)).
Qed.

End EntryFacts.

(** ** Properties of the entries *)

Module EntryProps.

Import Pattern Patterns Js Server Props Language Sections Outcome.
Import CharFacts StrFacts LiteralFacts PrefixFacts HandlerFacts OutcomeFacts LanguageFacts
  ShapeFacts SectionFacts SectionMatch EntryFacts.

(** X17: what the three section functions return when the tagger finds
    nothing are clean entries: none is empty, none starts or ends with
    white space and none holds a line feed. *)
Theorem tier_two_entries_clean (nlp : Tagger) (text : string) :
  (educationMatches nlp text = [] ->
   exists l, extractEducation nlp (VString text) = Ok l /\ Forall cleanEntry l)
  /\ (skillsMatches nlp text = [] ->
      exists l, extractSkills nlp (VString text) = Ok l /\ Forall cleanEntry l)
  /\ (projectMatches nlp text = [] ->
      exists l, extractProjects nlp (VString text) = Ok l /\ Forall cleanEntry l).
Proof.
  split; [| split]; intros H.
  - rewrite (education_body nlp text H). eexists. split; [reflexivity |].
    destruct (sectionBody _ _ text); [apply entries_clean | constructor].
  - rewrite (skills_body nlp text H). eexists. split; [reflexivity |].
    destruct (sectionBody _ _ text); [apply entries_clean | constructor].
  - rewrite (projects_body nlp text H). eexists. split; [reflexivity |].
    destruct (sectionBody _ _ text); [apply entries_clean | constructor].
Qed.

Lemma tier_two_entries_clean_witness :
  skillsMatches silent (Str.lines ["SKILL:"; "  Go  "; ""; " Rust and C "; "   "]) = []
  /\ extractSkills silent (VString (Str.lines ["SKILL:"; "  Go  "; ""; " Rust and C "; "   "]))
     = Ok [":"; "Go"; "Rust and C"]
  /\ Forall cleanEntry [":"; "Go"; "Rust and C"].
Proof.
  split; [reflexivity |]. split; [vm_compute; reflexivity |].
  destruct (proj1 (proj2 (tier_two_entries_clean silent
                            (Str.lines ["SKILL:"; "  Go  "; ""; " Rust and C "; "   "])))
              eq_refl) as (l & Hl & Hc).
  assert (E : Ok [":"; "Go"; "Rust and C"] = Ok l).
  { rewrite <- Hl. vm_compute. reflexivity. }
  injection E as ->. exact Hc.
Defined.

(** X18: reading a cell back.  [submit] joins the entries of a section
    by line feeds for its cell.  The pipeline of the regex tier (trim,
    split at the line feeds, trim each line, drop the empty ones) gives a
    list back from its cell exactly when every entry of the list is
    clean: not empty, without a line feed and without white space at its
    ends.  What the regex tier returns, when the tagger finds nothing, is
    always such a list; a list of the tagger tier is read back only if
    its entries are clean. *)
Theorem joined_entries_split_back (nlp : Tagger) (text : string) (l : list string) :
  (entries (String.concat Str.nl l) = l <-> Forall cleanEntry l)
  /\ (educationMatches nlp text = [] ->
      exists r, extractEducation nlp (VString text) = Ok r
                /\ entries (String.concat Str.nl r) = r)
  /\ (skillsMatches nlp text = [] ->
      exists r, extractSkills nlp (VString text) = Ok r
                /\ entries (String.concat Str.nl r) = r)
  /\ (projectMatches nlp text = [] ->
      exists r, extractProjects nlp (VString text) = Ok r
                /\ entries (String.concat Str.nl r) = r).
Proof.
  split; [| split; [| split]].
  - split; [| apply entries_concat].
    intros H. rewrite <- H. apply entries_clean.
  - intros H. rewrite (education_body nlp text H). eexists. split; [reflexivity |].
    destruct (sectionBody _ _ text); [apply entries_concat, entries_clean | reflexivity].
  - intros H. rewrite (skills_body nlp text H). eexists. split; [reflexivity |].
    destruct (sectionBody _ _ text); [apply entries_concat, entries_clean | reflexivity].
  - intros H. rewrite (projects_body nlp text H). eexists. split; [reflexivity |].
    destruct (sectionBody _ _ text); [apply entries_concat, entries_clean | reflexivity].
Qed.

Lemma joined_entries_split_back_witness :
  skillsMatches silent (Str.lines ["SKILL:"; "  Go  "; ""; " Rust and C "; "   "]) = []
  /\ (exists r,
        extractSkills silent (VString (Str.lines ["SKILL:"; "  Go  "; ""; " Rust and C "; "   "]))
        = Ok r
        /\ entries (String.concat Str.nl r) = r)
  /\ entries (String.concat Str.nl [" MIT "; Str.lines ["a"; "b"]]) = ["MIT"; "a"; "b"]
  /\ ~ Forall cleanEntry [" MIT "; Str.lines ["a"; "b"]].
Proof.
  split; [reflexivity |]. split; [| split; [reflexivity |]].
  - apply (proj1 (proj2 (proj2 (joined_entries_split_back silent
                                  (Str.lines ["SKILL:"; "  Go  "; ""; " Rust and C "; "   "])
                                  [])))).
    reflexivity.
  - intros F.
    apply (proj1 (joined_entries_split_back silent "" [" MIT "; Str.lines ["a"; "b"]])) in F.
    discriminate F.
Defined.

(** X19: a header in the plural leaves its [s] in the list.  For a text
    with no letter before a line that reads Educations, Skills or Projects
    (in any case of the letters), and with a tagger that finds nothing, the
    first entry of the section is the last letter of that line: the pattern
    tries the singular first and takes it. *)
Theorem plural_header_leaves_s (nlp : Tagger) (pre line tail : string) :
  Str.all notLetter pre = true ->
  (anyCase "Educations" line ->
   educationMatches nlp (pre ++ line ++ Str.nl ++ tail) = [] ->
   exists l,
     extractEducation nlp (VString (pre ++ line ++ Str.nl ++ tail))
     = Ok (Str.drop 9 line :: l)
     /\ anyCase "s" (Str.drop 9 line))
  /\ (anyCase "Skills" line ->
      skillsMatches nlp (pre ++ line ++ Str.nl ++ tail) = [] ->
      exists l,
        extractSkills nlp (VString (pre ++ line ++ Str.nl ++ tail))
        = Ok (Str.drop 5 line :: l)
        /\ anyCase "s" (Str.drop 5 line))
  /\ (anyCase "Projects" line ->
      projectMatches nlp (pre ++ line ++ Str.nl ++ tail) = [] ->
      exists l,
        extractProjects nlp (VString (pre ++ line ++ Str.nl ++ tail))
        = Ok (Str.drop 7 line :: l)
        /\ anyCase "s" (Str.drop 7 line)).
Proof.
  intros Hp. split; [| split]; intros Ha Hm.
  - destruct (anyCase_snoc "s" "Education" line Ha) as (c & Hs & Hc & Hd).
    cbn [String.length] in Hd. rewrite Hd.
    rewrite (education_body nlp _ Hm). unfold educationHeads, educationStops.
    rewrite (plural_body "Education"
               ["Educations"; "EDUCATION"; "EDUCATIONS"; "Academic Background";
                "ACADEMIC BACKGROUND"]
               "Skills" ["Projects"; "Qualifications"]
               pre line c tail eq_refl Hp Hs (s_not_space c Hc)).
    + destruct (entries_first c (upTo (stopsAt ["Skills"; "Projects"; "Qualifications"]) tail)
                  (s_not_space c Hc)) as [l El].
      exists l. rewrite El. split; [reflexivity |].
      unfold anyCase. cbn [stripPrefix]. now rewrite Hc.
    + unfold Str.nl. cbn [append stopsAt]. unfold isPrefix. cbn [stripPrefix].
      repeat match goal with |- context [charMatch true ?a c] =>
        destruct (charMatch true a c) end; vm_compute; reflexivity.
    + vm_compute. reflexivity.
  - destruct (anyCase_snoc "s" "Skill" line Ha) as (c & Hs & Hc & Hd).
    cbn [String.length] in Hd. rewrite Hd.
    rewrite (skills_body nlp _ Hm). unfold skillsHeads, skillsStops.
    rewrite (plural_body "Skill"
               ["Skills"; "SKILL"; "SKILLS"; "Technical Skill"; "Technical Skills";
                "TECHNICAL SKILL"; "TECHNICAL SKILLS"; "Qualifications"; "QUALIFICATIONS"]
               "Projects" ["Education"]
               pre line c tail eq_refl Hp Hs (s_not_space c Hc)).
    + destruct (entries_first c (upTo (stopsAt ["Projects"; "Education"]) tail)
                  (s_not_space c Hc)) as [l El].
      exists l. rewrite El. split; [reflexivity |].
      unfold anyCase. cbn [stripPrefix]. now rewrite Hc.
    + unfold Str.nl. cbn [append stopsAt]. unfold isPrefix. cbn [stripPrefix].
      repeat match goal with |- context [charMatch true ?a c] =>
        destruct (charMatch true a c) end; vm_compute; reflexivity.
    + vm_compute. reflexivity.
  - destruct (anyCase_snoc "s" "Project" line Ha) as (c & Hs & Hc & Hd).
    cbn [String.length] in Hd. rewrite Hd.
    rewrite (projects_body nlp _ Hm). unfold projectHeads, projectStops.
    rewrite (plural_body "Project"
               ["Projects"; "PROJECT"; "PROJECTS"; "Work Experience"; "WORK EXPERIENCE"]
               "Education" ["Skills"; "Qualifications"]
               pre line c tail eq_refl Hp Hs (s_not_space c Hc)).
    + destruct (entries_first c (upTo (stopsAt ["Education"; "Skills"; "Qualifications"]) tail)
                  (s_not_space c Hc)) as [l El].
      exists l. rewrite El. split; [reflexivity |].
      unfold anyCase. cbn [stripPrefix]. now rewrite Hc.
    + unfold Str.nl. cbn [append stopsAt]. unfold isPrefix. cbn [stripPrefix].
      repeat match goal with |- context [charMatch true ?a c] =>
        destruct (charMatch true a c) end; vm_compute; reflexivity.
    + vm_compute. reflexivity.
Qed.

Lemma plural_header_leaves_s_witness :
  Str.all notLetter (Str.lines ["2024"; "----"; ""]) = true
  /\ anyCase "Projects" "PROJECTS"
  /\ exists l,
       extractProjects silent
         (VString (Str.lines ["2024"; "----"; ""] ++ "PROJECTS" ++ Str.nl
                   ++ Str.lines ["Compiler in Rust"; "Skills"; "Go"]))
       = Ok ("S" :: l).
Proof.
  split; [reflexivity |]. split; [reflexivity |].
  destruct (proj2 (proj2 (plural_header_leaves_s silent (Str.lines ["2024"; "----"; ""])
                            "PROJECTS" (Str.lines ["Compiler in Rust"; "Skills"; "Go"])
                            eq_refl)) eq_refl eq_refl) as (l & Hl & _).
  exists l. exact Hl.
Defined.

(** X21: the lists of tier 2 stop before the next header their pattern knows:
    with a tagger that finds nothing, no entry of the education list holds
    Skills, Projects or Qualifications, no entry of the skills list holds
    Projects or Education, and no entry of the projects list holds
    Education, Skills or Qualifications, in any case of the letters. *)
Theorem entries_hold_no_stop_word (nlp : Tagger) (text : string) :
  (educationMatches nlp text = [] ->
   exists l, extractEducation nlp (VString text) = Ok l
             /\ Forall (fun e => forall t, In t educationStops -> ~ holds t e) l)
  /\ (skillsMatches nlp text = [] ->
      exists l, extractSkills nlp (VString text) = Ok l
                /\ Forall (fun e => forall t, In t skillsStops -> ~ holds t e) l)
  /\ (projectMatches nlp text = [] ->
      exists l, extractProjects nlp (VString text) = Ok l
                /\ Forall (fun e => forall t, In t projectStops -> ~ holds t e) l).
Proof.
  split; [| split]; intros H.
  - rewrite (education_body nlp text H). eexists. split; [reflexivity |].
    destruct (sectionBody _ _ text) eqn:E; [| constructor].
    apply (entries_hold_no_stop _ _ _ _ E). repeat constructor; discriminate.
  - rewrite (skills_body nlp text H). eexists. split; [reflexivity |].
    destruct (sectionBody _ _ text) eqn:E; [| constructor].
    apply (entries_hold_no_stop _ _ _ _ E). repeat constructor; discriminate.
  - rewrite (projects_body nlp text H). eexists. split; [reflexivity |].
    destruct (sectionBody _ _ text) eqn:E; [| constructor].
    apply (entries_hold_no_stop _ _ _ _ E). repeat constructor; discriminate.
Qed.

Lemma entries_hold_no_stop_word_witness :
  educationMatches silent (Str.lines ["Education"; "MIT, my skills: Go"; "Projects"; "x"]) = []
  /\ exists l,
       extractEducation silent
         (VString (Str.lines ["Education"; "MIT, my skills: Go"; "Projects"; "x"])) = Ok l
       /\ l = ["MIT, my"]
       /\ Forall (fun e => forall t, In t educationStops -> ~ holds t e) l.
Proof.
  split; [reflexivity |].
  destruct (proj1 (entries_hold_no_stop_word silent
                     (Str.lines ["Education"; "MIT, my skills: Go"; "Projects"; "x"]))
              eq_refl) as (l & Hl & Hf).
  exists l. split; [exact Hl |]. split; [| exact Hf].
  assert (E : Ok l = Ok ["MIT, my"]) by (rewrite <- Hl; vm_compute; reflexivity).
  now injection E.
Defined.

End EntryProps.

(** ** The earlier version of the program *)

Module EarlierFacts.

Import Pattern Patterns Js Server Handler Props Language Sections Outcome Lines.
Import CharFacts StrFacts ScanFacts LiteralFacts PrefixFacts HandlerFacts OutcomeFacts
  LanguageFacts ShapeFacts SectionFacts SectionMatch EntryFacts.

(** The greedy star of a class tries the longest run first. *)
Lemma class_first cs s n caps c :
  matcher true (Star (Cls cs)) (mkState n s caps) c
  = match match s with
          | EmptyString => None
          | String ch s' =>
              if classMatch true cs ch
              then matcher true (Star (Cls cs)) (mkState (S n) s' caps) c
              else None
          end
    with
    | Some z => Some z
    | None => c (mkState n s caps)
    end.
Proof.
  destruct s as [|ch s'].
  - cbn. reflexivity.
  - set (rhs := matcher true (Star (Cls cs)) (mkState (S n) s' caps) c).
    unfold Star. cbn [matcher rest].
    cbn [repeatMatcher isZero clear groups rest advance endIndex captures map app].
    assert (E : (S n =? n) = false) by (apply Nat.eqb_neq; lia).
    rewrite E. cbn [Nat.eqb negb andb].
    reflexivity.
Qed.

Lemma class_star cs c :
  (forall y, c y <> None) ->
  forall s n caps,
    matcher true (Star (Cls cs)) (mkState n s caps) c
    = c (mkState (n + String.length (upTo (unless (classMatch true cs)) s))
           (Str.drop (String.length (upTo (unless (classMatch true cs)) s)) s) caps).
Proof.
  intros Hc. induction s as [|ch s IH]; intros n caps; rewrite class_first.
  - cbn. now rewrite Nat.add_0_r.
  - cbn [upTo unless]. destruct (classMatch true cs ch); cbn [negb String.length Str.drop].
    + rewrite IH, Nat.add_succ_r.
      destruct (c _) eqn:E; [reflexivity | now apply Hc in E].
    + now rewrite Nat.add_0_r.
Qed.

(** An optional character of a class is taken when it is there. *)
Lemma opt_class cs c :
  (forall y, c y <> None) ->
  forall s n caps,
    matcher true (Opt (Cls cs)) (mkState n s caps) c
    = c match s with
        | String ch s' => if classMatch true cs ch then mkState (S n) s' caps
                          else mkState n s caps
        | EmptyString => mkState n s caps
        end.
Proof.
  intros Hc s n caps. unfold Opt. cbn [matcher rest].
  destruct s as [|ch s']; [reflexivity |].
  cbn [repeatMatcher isZero clear groups rest advance endIndex captures map app
       String.length Nat.add option_map pred].
  assert (E : (S n =? n) = false) by (apply Nat.eqb_neq; lia).
  rewrite E. cbn [Nat.eqb negb andb].
  destruct (classMatch true cs ch); [| reflexivity].
  destruct (c _) eqn:F; [reflexivity | now apply Hc in F].
Qed.

Lemma upTo_ext (f g : string -> bool) :
  (forall s, f s = g s) -> forall s, upTo f s = upTo g s.
Proof.
  intros H. induction s as [|c s IH]; cbn [upTo]; rewrite H; [reflexivity |].
  now rewrite IH.
Qed.

Lemma dot_class ch : classMatch true [CRange "000" "009"; CRange "011" "012"; CRange "014" "255"] ch
                     = negb (isLineTerminator ch).
Proof.
  apply eqb_prop.
  refine (ascii_forall
            (fun c => Bool.eqb (classMatch true [CRange "000" "009"; CRange "011" "012";
                                                 CRange "014" "255"] c)
                        (negb (isLineTerminator c))) _ ch).
  vm_compute. reflexivity.
Qed.

Lemma sep_class ch : classMatch true [CChar ":"; CChar "-"] ch = isSeparator ch.
Proof.
  apply eqb_prop.
  refine (ascii_forall
            (fun c => Bool.eqb (classMatch true [CChar ":"; CChar "-"] c) (isSeparator c))
            _ ch).
  vm_compute. reflexivity.
Qed.

Lemma upTo_line s : upTo (unless (classMatch true [CRange "000" "009"; CRange "011" "012";
                                                   CRange "014" "255"])) s
                    = upTo lineEnd s.
Proof.
  apply upTo_ext. intros [|c t]; [reflexivity |]. cbn [unless lineEnd].
  rewrite dot_class. now destruct (isLineTerminator c).
Qed.

(** The group of a labelled pattern: the rest of the line. *)
Lemma label_group s n caps :
  matcher true (cat [Grp 1 (Star Earlier.dot)]) (mkState n s caps) Some
  = Some (mkState (n + String.length (upTo lineEnd s))
            (Str.drop (String.length (upTo lineEnd s)) s)
            ((1, Some (upTo lineEnd s)) :: caps)).
Proof.
  unfold Earlier.dot. cbn [cat matcher endIndex rest].
  rewrite class_star; [| discriminate].
  rewrite upTo_line. cbn [endIndex rest captures]. do 4 f_equal.
  replace (n + String.length (upTo lineEnd s) - n)
    with (String.length (upTo lineEnd s)) by lia.
  rewrite (upTo_prefix lineEnd s) at 2. now rewrite StrFacts.take_app.
Qed.

(** A labelled pattern from behind its label on. *)
Lemma label_tail s n caps :
  exists e,
    matcher true (cat [Star ws; Opt sep; Star ws; Grp 1 (Star Earlier.dot)])
      (mkState n s caps) Some = Some e
    /\ captures e
       = (1, Some (upTo lineEnd (Str.trimStart (skipSeparator (Str.trimStart s))))) :: caps.
Proof.
  change (cat [Star ws; Opt sep; Star ws; Grp 1 (Star Earlier.dot)])
    with (Seq (Star ws) (Seq (Opt sep) (Seq (Star ws) (cat [Grp 1 (Star Earlier.dot)])))).
  cbn [matcher].
  assert (T3 : forall y, matcher true (cat [Grp 1 (Star Earlier.dot)]) y Some <> None).
  { intros [n' s' c']. now rewrite label_group. }
  assert (T2 : forall y, matcher true (Star ws) y
                           (fun y0 => matcher true (cat [Grp 1 (Star Earlier.dot)]) y0 Some)
                         <> None).
  { intros [n' s' c']. destruct (space_star _ T3 s' n' c') as [k ->]. apply T3. }
  assert (T1 : forall y, matcher true (Opt sep) y
                           (fun y0 => matcher true (Star ws) y0
                              (fun y1 => matcher true (cat [Grp 1 (Star Earlier.dot)]) y1 Some))
                         <> None).
  { intros [n' s' c']. unfold sep. rewrite opt_class by exact T2. apply T2. }
  destruct (space_star _ T1 s n caps) as [k ->].
  unfold sep. rewrite opt_class by exact T2.
  set (s1 := Str.trimStart s).
  assert (E : exists n1,
            match s1 with
            | String ch s' =>
                if classMatch true [CChar ":"; CChar "-"] ch
                then mkState (S (n + k)) s' caps else mkState (n + k) s1 caps
            | EmptyString => mkState (n + k) s1 caps
            end = mkState n1 (skipSeparator s1) caps).
  { destruct s1 as [|ch s']; cbn [skipSeparator]; [eauto |].
    rewrite sep_class. destruct (isSeparator ch); eauto. }
  destruct E as [n1 ->].
  destruct (space_star _ T3 (skipSeparator s1) n1 caps) as [k2 ->].
  rewrite label_group. eexists. split; reflexivity.
Qed.

(** A labelled pattern at one place of the text. *)
Lemma label_here a b s n :
  match firstLabel true [a; b] s with
  | Some (B, after) =>
      exists e,
        matcher true
          (cat [alts (Lit a) [Lit b]; Star ws; Opt sep; Star ws; Grp 1 (Star Earlier.dot)])
          (mkState n s []) Some = Some e
        /\ captures e
           = [(1, Some (upTo lineEnd (Str.trimStart (skipSeparator (Str.trimStart after)))))]
  | None =>
      matcher true
        (cat [alts (Lit a) [Lit b]; Star ws; Opt sep; Star ws; Grp 1 (Star Earlier.dot)])
        (mkState n s []) Some = None
  end.
Proof.
  change (cat [alts (Lit a) [Lit b]; Star ws; Opt sep; Star ws; Grp 1 (Star Earlier.dot)])
    with (Seq (altsLit a [b])
            (cat [Star ws; Opt sep; Star ws; Grp 1 (Star Earlier.dot)])).
  cbn [matcher]. rewrite matcher_alts_total.
  - cbn [rest endIndex captures].
    destruct (firstLabel true [a; b] s) as [[B after]|]; [| reflexivity].
    destruct (label_tail after (n + String.length B) []) as (e & He & Hc).
    exists e. split; assumption.
  - intros [n' s' c']. destruct (label_tail s' n' c') as (e & He & _).
    rewrite He. discriminate.
Qed.

(** The first group of the leftmost match of a labelled pattern, trimmed,
    is the value of the label. *)
Lemma label_scan a b : forall s i,
  match scan (mkRegExp (cat [alts (Lit a) [Lit b]; Star ws; Opt sep; Star ws;
                             Grp 1 (Star Earlier.dot)]) true) i s with
  | Some m => match group 1 m with Some g => Str.trim g | None => "" end
  | None => ""
  end = labelValue [a; b] s.
Proof.
  unfold labelValue.
  induction s as [|c s IH]; intros i; cbn [scan findLabel ignoreCase source];
    pose proof (label_here a b) as H.
  - specialize (H "" i).
    destruct (firstLabel true [a; b] "") as [[B after]|].
    + destruct H as (e & -> & Hl). unfold group. cbn [caps]. rewrite Hl.
      cbn [lookup Nat.eqb]. reflexivity.
    + now rewrite H.
  - specialize (H (String c s) i).
    destruct (firstLabel true [a; b] (String c s)) as [[B after]|].
    + destruct H as (e & -> & Hl). unfold group. cbn [caps]. rewrite Hl.
      cbn [lookup Nat.eqb]. reflexivity.
    + rewrite H. apply IH.
Qed.

Lemma firstGroup_name text : Earlier.firstGroup Earlier.nameRegex text = labelValue ["Name"; "NAME"] text.
Proof. apply (label_scan "Name" "NAME"). Qed.

Lemma firstGroup_email text :
  Earlier.firstGroup Earlier.emailRegex text = labelValue ["Email"; "EMAIL"] text.
Proof. apply (label_scan "Email" "EMAIL"). Qed.

Lemma firstGroup_phone text :
  Earlier.firstGroup Earlier.phoneRegex text = labelValue ["Phone"; "PHONE"] text.
Proof. apply (label_scan "Phone" "PHONE"). Qed.

Lemma upTo_value v tail :
  Str.all (fun c => negb (isLineTerminator c)) v = true -> lineEnd tail = true ->
  upTo lineEnd (v ++ tail) = v.
Proof.
  intros Hv Ht. induction v as [|c v IH].
  - cbn [String.append]. destruct tail as [|d tail]; [reflexivity |].
    cbn [upTo]. now rewrite Ht.
  - cbn [Str.all] in Hv. apply andb_true_iff in Hv as [Hc Hv].
    cbn [String.append upTo lineEnd]. apply negb_true_iff in Hc. rewrite Hc. now rewrite IH.
Qed.

Lemma trimStart_fixed (s : string) a :
  first s = Some a -> Char.isWhiteSpace a = false -> Str.trimStart s = s.
Proof.
  destruct s as [|c s]; [discriminate |]. intros H Ha. injection H as ->.
  cbn [Str.trimStart]. now rewrite Ha.
Qed.

(** A word written in any case of a word of letters is a word of letters
    of the same length. *)
Lemma anyCase_letters : forall B h,
  Str.all Char.isLetter B = true -> anyCase B h ->
  Str.all Char.isLetter h = true /\ String.length h = String.length B.
Proof.
  unfold anyCase. induction B as [|b B IH]; intros h HB H.
  - cbn [stripPrefix] in H. injection H as ->. now split.
  - cbn [stripPrefix] in H. destruct h as [|c h]; [discriminate |].
    destruct (charMatch true b c) eqn:E; [| discriminate].
    cbn [Str.all] in HB. apply andb_true_iff in HB as [Hb HB].
    destruct (IH h HB H) as [A L]. cbn [Str.all String.length].
    rewrite (letter_match b c Hb E), A, L. now split.
Qed.

(** The entries of a word of letters are the word. *)
Lemma entries_word (h : string) :
  h <> "" -> Str.all Char.isLetter h = true -> entries h = [h].
Proof.
  intros N A. destruct (first_some h N) as [a Fa]. destruct (final_some h N) as [b Fb].
  assert (T : Str.trim h = h).
  { apply (trim_fixed h a b Fa); [| exact Fb |].
    - apply letter_not_space. exact (all_first _ _ _ A Fa).
    - apply letter_not_space. exact (all_final _ _ _ A Fb). }
  unfold entries. rewrite T, split_plain.
  - cbn [map filter]. rewrite T. destruct h; [contradiction | reflexivity].
  - eapply StrFacts.all_mono; [| exact A]. intros c Hc.
    apply negb_true_iff, Ascii.eqb_neq. intros ->. discriminate.
Qed.

(** The earlier functions that read group 1 of a section pattern return
    the header word. *)
Lemma header_entries A As t ts text m :
  Forall (fun B => Str.all Char.isLetter B = true /\ B <> "") (A :: As) ->
  exec (sectionRegex A As t ts) text = Some m ->
  exists B h, In B (A :: As) /\ anyCase B h
              /\ bind (element 1 m) (fun g => Ok (entries g)) = Ok [h].
Proof.
  intros F H. apply section_header in H as (B & h & Hin & Hg & Ha).
  exists B, h. split; [exact Hin |]. split; [exact Ha |].
  unfold element. rewrite Hg. cbn [bind]. f_equal.
  rewrite Forall_forall in F. destruct (F B Hin) as [HB NB].
  destruct (anyCase_letters B h HB Ha) as [Hh Lh].
  apply entries_word; [| exact Hh].
  intros ->. destruct B; [contradiction | discriminate].
Qed.

(** The earlier [submit] from the point where the text is there, for a
    text from which nothing is taken. *)
Lemma earlier_rest (w : World) (n em ph : string) (f : File) (t : list effect)
    (k : string -> M Response) (req := mkRequest n em ph (Some f)) :
  send w (originalname f) (buffer f) = Ok tt ->
  append w (formRow w req f) = Ok tt ->
  forall ok, fetch w (formPayload w req f) = Ok ok ->
  bindM (lift (Earlier.extractEducation ""))
    (fun education =>
     bindM (lift (Earlier.extractSkills ""))
       (fun skills =>
        bindM (lift (Earlier.extractProjects ""))
          (fun projects =>
           bindM (uploadToS3 w (buffer f) (originalname f))
             (fun publicUrl =>
              bindM
                (storeInGoogleSheets w
                   [orElse (name (Earlier.extractPersonalInfo "")) n;
                    orElse (email (Earlier.extractPersonalInfo "")) em;
                    orElse (phone (Earlier.extractPersonalInfo "")) ph;
                    publicUrl;
                    String.concat Str.nl education;
                    String.concat Str.nl skills;
                    String.concat Str.nl projects])
                (fun _ =>
                 bindM (sendEmail w em)
                   (fun _ =>
                    bindM
                      (sendWebhook w em
                         (mkCvData
                            (orElse (name (Earlier.extractPersonalInfo "")) n)
                            (orElse (email (Earlier.extractPersonalInfo "")) em)
                            (orElse (phone (Earlier.extractPersonalInfo "")) ph))
                         publicUrl education skills projects)
                      (fun _ =>
                       ret (mkResponse 200 "Application submitted successfully!")))))))) t
  = (Ok (mkResponse 200 "Application submitted successfully!"),
     t ++ [PutObject (originalname f) (buffer f);
           AppendRow (formRow w req f);
           SendMail (formEmail req);
           mailLog w (formEmail req);
           Post (formPayload w req f)]).
Proof.
  intros Hu Ha ok Hw. subst req.
  change (Earlier.extractEducation "") with (@Ok (list string) []).
  change (Earlier.extractSkills "") with (@Ok (list string) []).
  change (Earlier.extractProjects "") with (@Ok (list string) []).
  change (Earlier.extractPersonalInfo "") with (mkInfo "" "" "").
  unfold uploadToS3, storeInGoogleSheets, sendEmail, sendWebhook, tryCatch.
  unfold bindM, emit, lift, ret. cbn [name email phone orElse truthy String.length Nat.ltb
    Nat.leb String.concat cvName cvEmail].
  unfold formRow, formPayload, mailLog in *.
  cbn [formName formEmail formPhone body bodyName bodyEmail bodyPhone] in *.
  rewrite Hu, Ha.
  destruct (sendMail w em) as [[]|e]; rewrite Hw, <- !List.app_assoc;
    reflexivity.
Qed.

(** The fields of the earlier [extractPersonalInfo] in terms of labelled
    values. *)
Lemma personal_values (text : string) :
  Earlier.extractPersonalInfo text
  = mkInfo (if truthy (labelValue ["Name"; "NAME"] text)
            then labelValue ["Name"; "NAME"] text
            else Str.trim (hd "" (Str.split Char.LF text)))
           (labelValue ["Email"; "EMAIL"] text)
           (labelValue ["Phone"; "PHONE"] text).
Proof.
  unfold Earlier.extractPersonalInfo.
  rewrite firstGroup_name, firstGroup_email, firstGroup_phone.
  destruct (Str.split Char.LF text) as [|h l] eqn:E;
    [now destruct (split_nonempty Char.LF text) |].
  reflexivity.
Qed.

End EarlierFacts.

(** ** Properties of the earlier version *)

Module EarlierProps.

Import Pattern Patterns Js Server Handler Props Language Sections Outcome Lines.
Import CharFacts StrFacts ScanFacts CaptureFacts LiteralFacts PrefixFacts HandlerFacts
  OutcomeFacts LanguageFacts ShapeFacts SectionFacts SectionMatch EntryFacts EarlierFacts.

(** X24: the fields of the earlier [extractPersonalInfo] are the values of the
    labelled lines; the name falls back to the first line, trimmed. *)
Theorem earlier_personal_info (text : string) :
  Earlier.extractPersonalInfo text
  = mkInfo (if truthy (labelValue ["Name"; "NAME"] text)
            then labelValue ["Name"; "NAME"] text
            else Str.trim (hd "" (Str.split Char.LF text)))
           (labelValue ["Email"; "EMAIL"] text)
           (labelValue ["Phone"; "PHONE"] text).
Proof.
  unfold Earlier.extractPersonalInfo.
  rewrite firstGroup_name, firstGroup_email, firstGroup_phone.
  destruct (Str.split Char.LF text) as [|h l] eqn:E;
    [now destruct (split_nonempty Char.LF text) |].
  reflexivity.
Qed.

Lemma earlier_personal_info_example :
  Earlier.extractPersonalInfo
    (Str.lines ["Curriculum Vitae"; "Username: jd"; "Name - Jane Doe  "; "EMAIL";
                " : jane@x.org"; "Phone:"; ""; "Education"; "MIT 2020"])
  = mkInfo "jd" "jane@x.org" "Education".
Proof. vm_compute. reflexivity. Qed.

(** X25: in the earlier version a labelled line gives the name: for a text with
    no letter before [Name: ] and a value behind it that runs to the end
    of its line and has no white space at its ends, the name is that
    value. *)
Theorem earlier_labelled_name (pre v tail : string) (a b : ascii) :
  Str.all notLetter pre = true ->
  Str.all (fun c => negb (isLineTerminator c)) v = true ->
  first v = Some a -> Char.isWhiteSpace a = false ->
  final v = Some b -> Char.isWhiteSpace b = false ->
  lineEnd tail = true ->
  name (Earlier.extractPersonalInfo (pre ++ "Name: " ++ v ++ tail)) = v.
Proof.
  intros Hp Hv Fa Ha Fb Hb Ht. rewrite personal_values. cbn [name].
  assert (E : labelValue ["Name"; "NAME"] (pre ++ "Name: " ++ v ++ tail) = v).
  { unfold labelValue. rewrite (findLabel_skip ["Name"; "NAME"] _ _ eq_refl Hp).
    rewrite (findLabel_here _ _ ("Name", (": " ++ v ++ tail)%string)) by reflexivity.
    cbn [String.append].
    change (Str.trimStart (String ":" (String " " (v ++ tail))))
      with (String ":" (String " " (v ++ tail))).
    change (Str.trimStart (skipSeparator (String ":" (String " " (v ++ tail)))))
      with (Str.trimStart (v ++ tail)).
    rewrite (trimStart_fixed (v ++ tail) a); [| now rewrite first_app, Fa | exact Ha].
    rewrite (upTo_value v tail Hv Ht). exact (trim_fixed v a b Fa Ha Fb Hb). }
  rewrite E. destruct v; [discriminate | reflexivity].
Qed.

Lemma earlier_labelled_name_witness :
  Str.all notLetter (Str.lines ["2024-05-01"; ""]) = true
  /\ lineEnd (Str.lines [""; "Email: jane@x.org"]) = true
  /\ name (Earlier.extractPersonalInfo
             (Str.lines ["2024-05-01"; ""] ++ "Name: " ++ "Jane Doe"
              ++ Str.lines [""; "Email: jane@x.org"]))
     = "Jane Doe".
Proof.
  split; [reflexivity |]. split; [reflexivity |].
  exact (earlier_labelled_name (Str.lines ["2024-05-01"; ""]) "Jane Doe"
           (Str.lines [""; "Email: jane@x.org"]) "J" "e"
           eq_refl eq_refl eq_refl eq_refl eq_refl eq_refl eq_refl).
Defined.

(** X26: the earlier [extractEducation] and [extractProjects] read group 1 of
    their pattern, the header, where [extractSkills] reads group 2: for
    every text they return the empty list or just the header word as the
    text has it, and nothing of the section. *)
Theorem earlier_sections_return_header (text : string) :
  (Earlier.extractEducation text = Ok []
   \/ exists B h, In B ["Education"; "Educations"; "EDUCATION"; "EDUCATIONS"]
                  /\ anyCase B h /\ Earlier.extractEducation text = Ok [h])
  /\ (Earlier.extractProjects text = Ok []
      \/ exists B h, In B ["Project"; "Projects"; "PROJECT"; "PROJECTS"]
                     /\ anyCase B h /\ Earlier.extractProjects text = Ok [h]).
Proof.
  split.
  - unfold Earlier.extractEducation.
    destruct (exec Earlier.educationRegex text) as [m|] eqn:E; [| now left].
    right.
    apply (header_entries "Education" ["Educations"; "EDUCATION"; "EDUCATIONS"]
             "Skills" ["Projects"; "Qualifications"] text m); [| exact E].
    repeat constructor; discriminate.
  - unfold Earlier.extractProjects.
    destruct (exec Earlier.projectsRegex text) as [m|] eqn:E; [| now left].
    right.
    apply (header_entries "Project" ["Projects"; "PROJECT"; "PROJECTS"]
             "Education" ["Skills"; "Qualifications"] text m); [| exact E].
    repeat constructor; discriminate.
Qed.

(** X27: the earlier [extractSkills] returns the trimmed non-empty lines behind
    the first header word (Skill or Qualifications, in any case) and the
    white space after it, up to the first stop word (Projects or Education,
    in any case) or the end of the text. *)
Theorem earlier_skills (text : string) :
  Earlier.extractSkills text
  = Ok (match sectionBody ["Skill"; "Skills"; "SKILL"; "SKILLS"; "Qualifications"]
                skillsStops text with
        | Some body => entries body
        | None => []
        end).
Proof.
  unfold Earlier.extractSkills.
  pose proof (section_exec "Skill" ["Skills"; "SKILL"; "SKILLS"; "Qualifications"]
                "Projects" ["Education"] text) as E.
  change (sectionRegex _ _ _ _) with Earlier.skillsRegex in E.
  change (sectionBody _ _ text)
    with (sectionBody ["Skill"; "Skills"; "SKILL"; "SKILLS"; "Qualifications"]
            skillsStops text) in E.
  destruct (exec Earlier.skillsRegex text) as [m|] eqn:F; cbn [option_map] in E;
    rewrite <- E; [| reflexivity].
  now rewrite (element_capture Earlier.skillsRegex 2 text m eq_refl F).
Qed.

(** X28: in the earlier version a parser that throws does not end the request:
    the helper logs the error and gives the empty text, from which nothing
    is taken, and with the services answering the handler uploads the
    file, stores the values of the form and answers 200. *)
Theorem earlier_parse_failure_degrades (w : World) (req : Request) (f : File)
    (e : exn) (ok : bool) (t : list effect) :
  file req = Some f ->
  supported (extension (originalname f)) = true ->
  parser w (extension (originalname f)) (buffer f) = Throw e ->
  send w (originalname f) (buffer f) = Ok tt ->
  append w (formRow w req f) = Ok tt ->
  fetch w (formPayload w req f) = Ok ok ->
  Earlier.submit w req t
  = (Ok (mkResponse 200 "Application submitted successfully!"),
     t ++ [parseEffect (extension (originalname f)) (buffer f);
           ConsoleError e;
           PutObject (originalname f) (buffer f);
           AppendRow (formRow w req f);
           SendMail (formEmail req);
           mailLog w (formEmail req);
           Post (formPayload w req f)]).
Proof.
  intros Hf Hs Hp Hu Ha Hw.
  destruct (file_multipart req f Hf) as (n & em & ph & ->). clear Hf.
  unfold Earlier.submit. unfold bindM at 1. unfold lift at 1.
  cbn [body destructure file bodyName bodyEmail bodyPhone]. unfold tryCatch.
  unfold bindM at 1. unfold lift at 1. cbn [receiver_file].
  unfold bindM at 1.
  assert (E : (if String.eqb (extension (originalname f)) "pdf"
               then Earlier.extractTextFromPDF w (buffer f)
               else if String.eqb (extension (originalname f)) "docx"
                    then Earlier.extractTextFromDOCX w (buffer f)
                    else ret "") t
              = (Ok "", t ++ [parseEffect (extension (originalname f)) (buffer f);
                              ConsoleError e])).
  { unfold supported, parser, parseEffect in *.
    unfold Earlier.extractTextFromPDF, Earlier.extractTextFromDOCX, tryCatch, bindM, emit,
      lift, ret.
    destruct (String.eqb (extension (originalname f)) "pdf").
    - rewrite Hp, <- List.app_assoc. reflexivity.
    - cbn [orb] in Hs. rewrite Hs, Hp, <- List.app_assoc. reflexivity. }
  rewrite E. cbv zeta.
  rewrite (earlier_rest w n em ph f _ (fun _ => ret (mkResponse 200 "")) Hu Ha ok Hw).
  now rewrite <- List.app_assoc.
Qed.

Lemma earlier_parse_failure_degrades_witness :
  parser demo (extension "cv.pdf") [x00] = Throw (Error "Invalid PDF structure")
  /\ Earlier.submit demo (janeForm (Some (mkFile "cv.pdf" [x00]))) []
     = (Ok (mkResponse 200 "Application submitted successfully!"),
        [ParsePdf [x00]; ConsoleError (Error "Invalid PDF structure");
         PutObject "cv.pdf" [x00];
         AppendRow ["Jane"; "jane@example.com"; "555";
                    "https://bucket.s3.amazonaws.com/cv.pdf"; ""; ""; ""];
         SendMail "jane@example.com";
         ConsoleLog "Email sent successfully to:";
         Post (mkWebhook "jane@example.com" (mkCvData "Jane" "jane@example.com" "555")
                 [] [] [] "https://bucket.s3.amazonaws.com/cv.pdf"
                 "Jane" "jane@example.com" "2025-01-01T00:00:00.000Z")]).
Proof.
  split; [reflexivity |].
  exact (earlier_parse_failure_degrades demo (janeForm (Some (mkFile "cv.pdf" [x00])))
           (mkFile "cv.pdf" [x00]) (Error "Invalid PDF structure") true []
           eq_refl eq_refl eq_refl eq_refl eq_refl eq_refl).
Defined.

(** X29: the earlier handler has no branch for other extensions: a file that
    is neither [pdf] nor [docx] is not rejected.  No parser is called, the
    text is empty, and with the services answering the file is uploaded,
    the values of the form are stored and the answer is 200. *)
Theorem earlier_unsupported_accepted (w : World) (req : Request) (f : File)
    (ok : bool) (t : list effect) :
  file req = Some f ->
  supported (extension (originalname f)) = false ->
  send w (originalname f) (buffer f) = Ok tt ->
  append w (formRow w req f) = Ok tt ->
  fetch w (formPayload w req f) = Ok ok ->
  Earlier.submit w req t
  = (Ok (mkResponse 200 "Application submitted successfully!"),
     t ++ [PutObject (originalname f) (buffer f);
           AppendRow (formRow w req f);
           SendMail (formEmail req);
           mailLog w (formEmail req);
           Post (formPayload w req f)]).
Proof.
  intros Hf Hs Hu Ha Hw.
  destruct (file_multipart req f Hf) as (n & em & ph & ->). clear Hf.
  unfold Earlier.submit. unfold bindM at 1. unfold lift at 1.
  cbn [body destructure file bodyName bodyEmail bodyPhone]. unfold tryCatch.
  unfold bindM at 1. unfold lift at 1. cbn [receiver_file].
  unfold bindM at 1. unfold supported in Hs. apply orb_false_iff in Hs as [H1 H2].
  rewrite H1, H2. unfold ret at 1. cbv zeta.
  now rewrite (earlier_rest w n em ph f _ (fun _ => ret (mkResponse 200 "")) Hu Ha ok Hw).
Qed.

Lemma earlier_unsupported_accepted_witness :
  supported (extension "malware.exe") = false
  /\ Earlier.submit demo (janeForm (Some (mkFile "malware.exe" [x4d; x5a]))) []
     = (Ok (mkResponse 200 "Application submitted successfully!"),
        [PutObject "malware.exe" [x4d; x5a];
         AppendRow ["Jane"; "jane@example.com"; "555";
                    "https://bucket.s3.amazonaws.com/malware.exe"; ""; ""; ""];
         SendMail "jane@example.com";
         ConsoleLog "Email sent successfully to:";
         Post (mkWebhook "jane@example.com" (mkCvData "Jane" "jane@example.com" "555")
                 [] [] [] "https://bucket.s3.amazonaws.com/malware.exe"
                 "Jane" "jane@example.com" "2025-01-01T00:00:00.000Z")]).
Proof.
  split; [reflexivity |].
  exact (earlier_unsupported_accepted demo (janeForm (Some (mkFile "malware.exe" [x4d; x5a])))
           (mkFile "malware.exe" [x4d; x5a]) true []
           eq_refl eq_refl eq_refl eq_refl eq_refl).
Defined.

End EarlierProps.

(** ** What the inference needs *)

Module MaterialFacts.

Import Pattern Patterns Js Server Props Language Guard.
Import CharFacts StrFacts ScanFacts CaptureFacts LabelFacts LanguageFacts ShapeFacts
  SectionFacts.

(** A text in which a pattern matches has the characters the pattern
    needs. *)
Lemma exec_material p re text m :
  wellFormed (source re) = true -> exec re text = Some m ->
  atLeast p (ignoreCase re) (source re) <= count p text.
Proof.
  intros Hwf H. apply (exec_lang _ _ _ Hwf) in H as (Lw & pre & post & -> & _).
  pose proof (lang_count p _ _ _ Lw) as [A _]. rewrite !count_app. lia.
Qed.

(** The three outcomes of the guard. *)
Lemma guard_text nlp v s :
  ensureString v = Ok (Some s) ->
  extractPersonalInfo nlp v = extractPersonalInfo nlp (VString s)
  /\ extractEducation nlp v = extractEducation nlp (VString s)
  /\ extractSkills nlp v = extractSkills nlp (VString s)
  /\ extractProjects nlp v = extractProjects nlp (VString s).
Proof.
  intros H. unfold extractPersonalInfo, extractEducation, extractSkills, extractProjects.
  rewrite H. repeat split; reflexivity.
Qed.

Lemma guard_undefined nlp v :
  ensureString v = Ok None ->
  extractPersonalInfo nlp v = Throw (TypeError "Cannot read properties of undefined")
  /\ extractEducation nlp v = Throw (TypeError "Cannot read properties of undefined")
  /\ extractSkills nlp v = Throw (TypeError "Cannot read properties of undefined")
  /\ extractProjects nlp v = Throw (TypeError "Cannot read properties of undefined").
Proof.
  intros H. unfold extractPersonalInfo, extractEducation, extractSkills, extractProjects.
  rewrite H. repeat split; reflexivity.
Qed.

Lemma guard_throw nlp v e :
  ensureString v = Throw e ->
  extractPersonalInfo nlp v = Throw e
  /\ extractEducation nlp v = Throw e
  /\ extractSkills nlp v = Throw e
  /\ extractProjects nlp v = Throw e.
Proof.
  intros H. unfold extractPersonalInfo, extractEducation, extractSkills, extractProjects.
  rewrite H. repeat split; reflexivity.
Qed.

(** With a text the four functions return. *)
Lemma string_returns nlp s e :
  extractPersonalInfo nlp (VString s) <> Throw e
  /\ extractEducation nlp (VString s) <> Throw e
  /\ extractSkills nlp (VString s) <> Throw e
  /\ extractProjects nlp (VString s) <> Throw e.
Proof.
  rewrite extractPersonalInfo_string, extractEducation_string, extractSkills_string,
    extractProjects_string.
  repeat split; discriminate.
Qed.

(** An argument is without a text exactly when the guard gives none. *)
Lemma noText_guard v e :
  noText v e
  <-> ensureString v = Throw e
      \/ (ensureString v = Ok None
          /\ e = TypeError "Cannot read properties of undefined").
Proof.
  unfold noText. split.
  - intros [Hv H]. now rewrite (ensureString_other v Hv).
  - intros H. assert (Hv : forall s, v <> VString s).
    { intros s ->. cbn [ensureString] in H. destruct H as [H|[H _]]; discriminate. }
    split; [exact Hv |]. now rewrite <- (ensureString_other v Hv).
Qed.

End MaterialFacts.

(** ** Further properties of the inference functions *)

Module InferenceProps.

Import Pattern Patterns Js Server Props Language Guard.
Import CharFacts StrFacts ScanFacts CaptureFacts LabelFacts LanguageFacts ShapeFacts
  SectionFacts MaterialFacts.

(** X22: the four inference functions throw exactly for the arguments
    without a text.  An argument that is not a string and for which
    [JSON.stringify] throws (a BigInt, a reference back into the
    structure) makes them throw that error; one for which it returns
    [undefined] ([undefined] itself, a function, a symbol) makes the first
    method call on the text throw a TypeError.  For a string, and for
    every argument that [JSON.stringify] turns into a text, they return. *)
Theorem throws_without_json_text (nlp : Tagger) (v : value) (e : exn) :
  (extractPersonalInfo nlp v = Throw e <-> noText v e)
  /\ (extractEducation nlp v = Throw e <-> noText v e)
  /\ (extractSkills nlp v = Throw e <-> noText v e)
  /\ (extractProjects nlp v = Throw e <-> noText v e).
Proof.
  rewrite noText_guard.
  destruct (ensureString v) as [[s|]|e'] eqn:E.
  - destruct (guard_text nlp v s E) as (-> & -> & -> & ->).
    destruct (string_returns nlp s e) as (H1 & H2 & H3 & H4).
    split; [| split; [| split]]; (split; [intros H; contradiction | intros [H|[H _]]; discriminate]).
  - destruct (guard_undefined nlp v E) as (-> & -> & -> & ->).
    split; [| split; [| split]];
      (split; [intros H; injection H as <-; right; now split
              | intros [H|[_ ->]]; [discriminate | reflexivity]]).
  - destruct (guard_throw nlp v e' E) as (-> & -> & -> & ->).
    split; [| split; [| split]];
      (split; [intros H; injection H as <-; now left
              | intros [H|[H _]]; [now injection H as -> | discriminate]]).
Qed.

Lemma throws_without_json_text_witness :
  extractPersonalInfo silent (VOther (Ok None))
  = Throw (TypeError "Cannot read properties of undefined")
  /\ extractSkills silent (VObject [("id", VArray [VNull; VOther (Throw bigIntError)])])
     = Throw bigIntError
  /\ extractEducation silent (VArray [VOther (Ok None); VUndefined])
     <> Throw (TypeError "Cannot read properties of undefined").
Proof.
  split; [| split].
  - apply (proj1 (throws_without_json_text silent (VOther (Ok None)) _)).
    split; [discriminate |]. right. split; reflexivity.
  - apply (proj1 (proj2 (proj2 (throws_without_json_text silent
             (VObject [("id", VArray [VNull; VOther (Throw bigIntError)])]) _)))).
    split; [discriminate |]. left. reflexivity.
  - intros H.
    apply (proj1 (proj2 (throws_without_json_text silent
             (VArray [VOther (Ok None); VUndefined]) _))) in H.
    destruct H as [_ [H|[H _]]]; discriminate.
Defined.

(** X23: no field without its material: a text with fewer than ten digits
    gives no phone, a text without [@] gives no email, and in a text with
    fewer than four letters or without white space the name pattern does
    not match, so that the name comes from the tagger or the first
    line. *)
Theorem fields_need_material (nlp : Tagger) (text : string) :
  exists info,
    extractPersonalInfo nlp (VString text) = Ok info
    /\ (count Char.isDigit text < 10 -> phone info = "")
    /\ (count isAt text = 0 -> email info = "")
    /\ (count Char.isLetter text < 4 \/ count Char.isWhiteSpace text = 0 ->
        exec nameRegex text = None
        /\ name info
           = if truthy (outText nlp "#Person" text)
             then Str.trim (outText nlp "#Person" text)
             else hd "" (filter (fun line => 0 <? String.length line)
                           (map Str.trim (Str.split Char.LF text)))).
Proof.
  rewrite extractPersonalInfo_string. eexists. split; [reflexivity |].
  cbn [name email phone]. split; [| split].
  - intros H. unfold phoneOf.
    destruct (exec phoneRegex text) as [m|] eqn:E.
    + pose proof (exec_material Char.isDigit phoneRegex text m eq_refl E) as A.
      assert (EA : atLeast Char.isDigit (ignoreCase phoneRegex) (source phoneRegex) = 10)
        by (vm_compute; reflexivity).
      rewrite EA in A. lia.
    + destruct (exec phoneFallbackRegex text) as [m|] eqn:F; [| reflexivity].
      pose proof (exec_material Char.isDigit phoneFallbackRegex text m eq_refl F) as A.
      assert (EA : atLeast Char.isDigit (ignoreCase phoneFallbackRegex)
                     (source phoneFallbackRegex) = 10)
        by (vm_compute; reflexivity).
      rewrite EA in A. lia.
  - intros H. unfold emailOf.
    destruct (exec emailRegex text) as [m|] eqn:E.
    + pose proof (exec_material isAt emailRegex text m eq_refl E) as A.
      assert (EA : atLeast isAt (ignoreCase emailRegex) (source emailRegex) = 1)
        by (vm_compute; reflexivity).
      rewrite EA in A. lia.
    + destruct (exec emailFallbackRegex text) as [m|] eqn:F; [| reflexivity].
      pose proof (exec_material isAt emailFallbackRegex text m eq_refl F) as A.
      assert (EA : atLeast isAt (ignoreCase emailFallbackRegex)
                     (source emailFallbackRegex) = 1)
        by (vm_compute; reflexivity).
      rewrite EA in A. lia.
  - intros H.
    assert (N : exec nameRegex text = None).
    { destruct (exec nameRegex text) as [m|] eqn:E; [| reflexivity].
      pose proof (exec_material Char.isLetter nameRegex text m eq_refl E) as A.
      pose proof (exec_material Char.isWhiteSpace nameRegex text m eq_refl E) as B.
      assert (EA : atLeast Char.isLetter (ignoreCase nameRegex) (source nameRegex) = 4)
        by (vm_compute; reflexivity).
      assert (EB : atLeast Char.isWhiteSpace (ignoreCase nameRegex) (source nameRegex) = 1)
        by (vm_compute; reflexivity).
      rewrite EA in A. rewrite EB in B. lia. }
    split; [exact N |]. unfold nameOf. rewrite N.
    destruct (truthy (outText nlp "#Person" text)); [reflexivity |].
    now destruct (filter _ _).
Qed.

Lemma fields_need_material_witness :
  count Char.isDigit "Tel. 555 1234, room 12" < 10
  /\ count isAt "Tel. 555 1234, room 12" = 0
  /\ count Char.isWhiteSpace "JaneDoe" = 0
  /\ (exists info,
        extractPersonalInfo silent (VString "Tel. 555 1234, room 12") = Ok info
        /\ phone info = "" /\ email info = "")
  /\ (exists info,
        extractPersonalInfo silent (VString "JaneDoe") = Ok info /\ name info = "JaneDoe").
Proof.
  split; [vm_compute; lia |]. split; [reflexivity |]. split; [reflexivity |]. split.
  - destruct (fields_need_material silent "Tel. 555 1234, room 12")
      as (info & Hi & Hp & He & _).
    exists info. split; [exact Hi |]. split.
    + apply Hp. vm_compute. lia.
    + apply He. reflexivity.
  - destruct (fields_need_material silent "JaneDoe") as (info & Hi & _ & _ & Hn).
    exists info. split; [exact Hi |].
    destruct Hn as [_ ->]; [right; reflexivity |]. reflexivity.
Defined.

End InferenceProps.

(** ** The private key of the configuration *)

Module ConfigFacts.

Import Pattern Patterns Js Server Props Config.
Import CharFacts StrFacts ScanFacts CaptureFacts LabelFacts LiteralFacts.

(** The pattern matches where a backslash and an n stand, and takes both. *)
Lemma escaped_here i s :
  matcher false (Lit escaped) (mkState i s []) Some
  = match s with
    | String c (String d s'') =>
        if Ascii.eqb c backslash && Ascii.eqb d "n"
        then Some (mkState (i + 2) s'' []) else None
    | _ => None
    end.
Proof.
  rewrite matcher_lit. cbn [rest endIndex captures escaped stripPrefix String.length].
  unfold charMatch, Char.canonicalize.
  destruct s as [|c [|d s'']]; try reflexivity.
  - now destruct (Ascii.eqb backslash c).
  - rewrite (Ascii.eqb_sym backslash c), (Ascii.eqb_sym "n"%char d).
    destruct (Ascii.eqb c backslash); [| reflexivity].
    now destruct (Ascii.eqb d "n").
Qed.

(** One step of [unescape]. *)
Lemma unescape_cons c s' :
  (exists s'', s' = String "n" s'' /\ c = backslash
     /\ unescape (String c s') = String Char.LF (unescape s''))
  \/ (match s' with
      | String d _ => Ascii.eqb c backslash && Ascii.eqb d "n" = false
      | EmptyString => True
      end
      /\ unescape (String c s') = String c (unescape s')).
Proof.
  destruct s' as [|d s'']; [right; now split |].
  cbn [unescape].
  destruct (Ascii.eqb c backslash) eqn:Ec, (Ascii.eqb d "n") eqn:Ed; cbn [andb];
    try (right; now split).
  left. exists s''. apply Ascii.eqb_eq in Ec, Ed. now subst.
Qed.

(** The replacement of the engine is [unescape]. *)
Lemma replaceAll_unescape : forall fuel i s,
  String.length s < fuel ->
  replaceAll escapedNewline Str.nl fuel i s = unescape s.
Proof.
  induction fuel as [|fuel IH]; intros i s Hf; [lia |].
  cbn [replaceAll]. cbn [ignoreCase source escapedNewline].
  rewrite escaped_here.
  destruct s as [|c s']; [reflexivity |].
  cbn [String.length] in Hf.
  destruct s' as [|d s''].
  - destruct fuel; [lia |]. reflexivity.
  - cbn [unescape String.length] in *.
    destruct (Ascii.eqb c backslash && Ascii.eqb d "n").
    + cbn [endIndex]. replace (i + 2 - i) with 2 by lia.
      cbn [Str.drop Str.nl String.append]. f_equal. apply IH. lia.
    + f_equal. apply IH. cbn [String.length]. lia.
Qed.

(** No escaped line feed is left, wherever the search starts. *)
Lemma unescape_clean : forall n s i,
  String.length s <= n -> scan escapedNewline i (unescape s) = None.
Proof.
  induction n as [|n IH]; intros s i Hn.
  - destruct s; [| cbn [String.length] in Hn; lia].
    cbn [unescape scan ignoreCase source escapedNewline]. now rewrite escaped_here.
  - destruct s as [|c s'].
    { cbn [unescape scan ignoreCase source escapedNewline]. now rewrite escaped_here. }
    cbn [String.length] in Hn.
    destruct (unescape_cons c s') as [(s'' & -> & -> & E) | (Hc & E)]; rewrite E.
    + cbn [scan ignoreCase source escapedNewline]. rewrite escaped_here.
      assert (Hs : scan escapedNewline (S i) (unescape s'') = None)
        by (apply IH; cbn [String.length] in Hn; lia).
      destruct (unescape s''); cbn [scan] in *; exact Hs.
    + assert (Hs : scan escapedNewline (S i) (unescape s') = None) by (apply IH; lia).
      cbn [scan ignoreCase source escapedNewline]. rewrite escaped_here.
      destruct s' as [|d s'']; [exact Hs |].
      destruct (unescape_cons d s'') as [(t & -> & -> & E') | (_ & E')];
        rewrite E' in *.
      * replace (Ascii.eqb Char.LF "n") with false by reflexivity.
        rewrite andb_false_r. exact Hs.
      * rewrite Hc. exact Hs.
Qed.

(** A text without an escaped line feed is left as it is. *)
Lemma unescape_same : forall s i,
  scan escapedNewline i s = None -> unescape s = s.
Proof.
  induction s as [|c s' IH]; intros i H; [reflexivity |].
  cbn [scan ignoreCase source escapedNewline] in H. rewrite escaped_here in H.
  destruct s' as [|d s'']; [reflexivity |].
  cbn [unescape].
  destruct (Ascii.eqb c backslash && Ascii.eqb d "n"); [discriminate |].
  f_equal. exact (IH _ H).
Qed.

(** The replacement never makes the text longer. *)
Lemma unescape_length : forall n s,
  String.length s <= n -> String.length (unescape s) <= String.length s.
Proof.
  induction n as [|n IH]; intros s Hn.
  - destruct s; [cbn; lia | cbn [String.length] in Hn; lia].
  - destruct s as [|c s']; [cbn; lia |].
    cbn [String.length] in Hn.
    destruct (unescape_cons c s') as [(s'' & -> & -> & E) | (_ & E)]; rewrite E;
      cbn [String.length] in *.
    + specialize (IH s''). lia.
    + specialize (IH s'). lia.
Qed.

End ConfigFacts.

Module ConfigProps.

Import Pattern Patterns Js Server Props Config ConfigFacts.

(** X30.  The private key handed to the Google client is the value of the
    environment variable with a line feed for every backslash followed by
    n, read from left to right: no escaped line feed is left in it, it is
    never longer than the variable, and a variable without an escaped line
    feed is handed over as it is.  A variable that is not set makes the
    configuration throw a TypeError. *)
Theorem private_key_unescaped (key : string) :
  private_key None = Throw (TypeError "Cannot read properties of undefined")
  /\ exists fixed,
       private_key (Some key) = Ok fixed
       /\ fixed = unescape key
       /\ exec escapedNewline fixed = None
       /\ String.length fixed <= String.length key
       /\ (exec escapedNewline key = None <-> fixed = key).
Proof.
  split; [reflexivity |].
  exists (unescape key). unfold private_key, replace_g.
  rewrite replaceAll_unescape by lia.
  split; [reflexivity |]. split; [reflexivity |].
  split; [exact (unescape_clean _ key 0 (Nat.le_refl _)) |].
  split; [exact (unescape_length _ key (Nat.le_refl _)) |].
  split.
  - exact (unescape_same key 0).
  - intros E. rewrite <- E. exact (unescape_clean _ key 0 (Nat.le_refl _)).
Qed.

End ConfigProps.
